(** * MafiaGame: the room service and the host scheduler

    A shallow embedding of the game logic of the repository:
    - [roomService.ts] in its current form (role assignment, win evaluation,
      night and vote submission and resolution), module [RoomService];
    - the earlier [src/firebase/roomService.ts], which is still part of the
      repository, module [LegacyRoomService];
    - the host's auto-advance [tick] of [Room.tsx], module [Host];
    - the lobby, settings and reconnection functions of [roomService.ts],
      module [LobbyService], and its chat, module [ChatService];
    - the handlers and guards of the page [Room.tsx], module [Page].

    Firestore is modelled as one room document and the ordered list of the
    room's player documents; the chat is the ordered list of its messages,
    and the connection fields of the player documents are a list by document
    id.  The tally of a vote is a plain JS object, with the keys it inherits.
    [Date.now()], [serverTimestamp()] and [Math.random()] are explicit
    parameters.  The event log, which no function reads, is left out. *)

From Stdlib Require Import Bool Arith ZArith Lia Permutation String List.
Import ListNotations.
Local Open Scope string_scope.
Local Open Scope list_scope.

(* ================================================================== *)
(** * Part I: definitions                                              *)
(* ================================================================== *)

(** ** Enumerations

    The source uses string literals; each closed set of literals is an
    inductive type here. *)

(** [role]: "unknown" | "citizen" | "mafia" | "don" | "doctor" | "komissar". *)
Inductive Role : Type :=
| unknown | citizen | mafia | don | doctor | komissar.

(** [status]: "lobby" | "playing" | "ended". *)
Inductive Status : Type :=
| st_lobby | st_playing | st_ended.

(** [phase]: "lobby" | "night" | "day" | "vote" | "ended". *)
Inductive Phase : Type :=
| ph_lobby | ph_night | ph_day | ph_vote | ph_ended.

(** [winner]: "town" | "mafia" (and [null], which is [None]). *)
Inductive Winner : Type :=
| w_town | w_mafia.

Definition Role_eq_dec (a b : Role) : {a = b} + {a <> b}.
Proof. decide equality. Defined.

Definition Status_eqb (a b : Status) : bool :=
  match a, b with
  | st_lobby, st_lobby | st_playing, st_playing | st_ended, st_ended => true
  | _, _ => false
  end.

Definition Phase_eqb (a b : Phase) : bool :=
  match a, b with
  | ph_lobby, ph_lobby | ph_night, ph_night | ph_day, ph_day
  | ph_vote, ph_vote | ph_ended, ph_ended => true
  | _, _ => false
  end.

(** ** Documents *)

(** [private.lastCheckResult] of a player (current service:
    [{targetId, isMafia, at}]) and [day.lastCheckResult] of the room (legacy
    service: [{targetPlayerId, isMafia}], no timestamp). *)
Record CheckResult : Type := mkCheckResult {
  targetId : string;
  isMafia : bool;
  at_ : option Z
}.

(** A player document.  [pid] is the document id ([p.id]).  Fields that no
    game function reads (avatar, creation and submission times) are left
    out; the connection fields are those of [LobbyService.Connection]. *)
Record Player : Type := mkPlayer {
  pid : string;
  nickname : string;
  role : Role;
  isAlive : bool;
  isReady : bool;
  isKicked : bool;
  nightSubmitted : bool;
  voteSubmitted : bool;
  private_lastCheckResult : option CheckResult
}.

Record Settings : Type := mkSettings {
  nightSec : option Z;
  daySec : option Z;
  voteSec : option Z
}.

(** [room.night]: the pending night actions and, after resolution, the
    audit record.  An absent field and a [null] field are both [None]. *)
Record Night : Type := mkNight {
  killTargetId : option string;
  killBy : option string;
  submittedKill : bool;
  saveTargetId : option string;
  saveBy : option string;
  submittedSave : bool;
  checkTargetId : option string;
  checkBy : option string;
  submittedCheck : bool;
  night_updatedAt : option Z;
  night_resolvedAt : option Z;
  lastKilledPlayerId : option string;
  lastSavedPlayerId : option string
}.

(** [room.day]; only the legacy service stores anything in it. *)
Record Day : Type := mkDay {
  day_lastCheckResult : option CheckResult
}.

(** [room.vote]; [votes] is the object [voterId -> targetId], kept as the
    list of its entries in the order [Object.entries] visits them (the
    result of a vote does not depend on that order, see
    [eliminatedOf_Permutation]). *)
Record Vote : Type := mkVote {
  vote_startedAt : option Z;
  votes : list (string * string);
  resolved : bool;
  vote_updatedAt : option Z;
  vote_resolvedAt : option Z;
  eliminatedPlayerId : option string
}.

(** The room document, without its creation and start times. *)
Record Room : Type := mkRoom {
  code : string;
  status : Status;
  phase : Phase;
  dayNumber : nat;
  ownerNickname : string;
  ownerPlayerId : option string;
  phaseEndsAtMs : option Z;
  winner : option Winner;
  settings : Settings;
  night : Night;
  day : Day;
  vote : Vote
}.

(** The empty objects [{}] written by the service. *)
Definition emptyNight : Night :=
  mkNight None None false None None false None None false None None None None.

Definition emptyDay : Day := mkDay None.

Definition emptyVote : Vote := mkVote None [] false None None None.

(** The part of Firestore that belongs to one room id: the room document
    (absent when no such room exists) and its [players] sub-collection in
    [createdAt] order. *)
Record Store : Type := mkStore {
  room : option Room;
  players : list Player
}.

(** [Date.now()] and the value [serverTimestamp()] resolves to. *)
Record Clock : Type := mkClock {
  nowMs : Z;
  serverTs : Z
}.

(** Failures.  The source throws [Error] objects that differ by message:
    - [RoomNotFound]: "Room topilmadi";
    - [ActorNotFound]: "Actor topilmadi";  [VoterNotFound]: "Voter topilmadi";
    - [ActionAlreadySubmitted]: "Siz actionni yuborgan siz" (night) and
      "Siz ovoz berib bo'lgansiz" (vote);
    - [InvalidPlayerCount]: "Kamida 4 ta o'yinchi kerak";
    - [DocNotFound]: Firestore rejecting an update of a missing document. *)
Inductive Error : Type :=
| RoomNotFound
| ActorNotFound
| VoterNotFound
| ActionAlreadySubmitted
| InvalidPlayerCount
| DocNotFound.

(** The outcome of an operation: the store it leaves behind, and the error
    when it threw.  A throw keeps the writes that were already committed. *)
Inductive Res : Type :=
| Ok (s : Store)
| Throw (e : Error) (s : Store).

Definition storeOf (r : Res) : Store :=
  match r with Ok s => s | Throw _ s => s end.

Definition isOk (r : Res) : bool :=
  match r with Ok _ => true | Throw _ _ => false end.

(** Sequencing of awaited writes: the first throw aborts the rest. *)
Definition bindRes (r : Res) (k : Store -> Res) : Res :=
  match r with
  | Ok s => k s
  | Throw e s => Throw e s
  end.

Notation "r >>= k" := (bindRes r k) (at level 50, left associativity).

(** ** JavaScript helpers *)

(** Truthiness of a [string | undefined | null]: a non-empty string. *)
Definition truthy (o : option string) : bool :=
  match o with
  | Some s => negb (s =? "")
  | None => false
  end.

(** [a !== b] and [a === b] on [string | undefined]. *)
Definition optEqb (a b : option string) : bool :=
  match a, b with
  | Some x, Some y => x =? y
  | None, None => true
  | _, _ => false
  end.

(** [a ?? b] for an optional number. *)
Definition orElse (a : option Z) (b : Z) : Z :=
  match a with Some x => x | None => b end.

(** ** Field updates of player documents *)

Definition setAlive (b : bool) (p : Player) : Player :=
  mkPlayer (pid p) (nickname p) (role p) b (isReady p) (isKicked p)
           (nightSubmitted p) (voteSubmitted p) (private_lastCheckResult p).

Definition setNightSubmitted (b : bool) (p : Player) : Player :=
  mkPlayer (pid p) (nickname p) (role p) (isAlive p) (isReady p) (isKicked p)
           b (voteSubmitted p) (private_lastCheckResult p).

Definition setVoteSubmitted (b : bool) (p : Player) : Player :=
  mkPlayer (pid p) (nickname p) (role p) (isAlive p) (isReady p) (isKicked p)
           (nightSubmitted p) b (private_lastCheckResult p).

Definition setLastCheckResult (c : option CheckResult) (p : Player) : Player :=
  mkPlayer (pid p) (nickname p) (role p) (isAlive p) (isReady p) (isKicked p)
           (nightSubmitted p) (voteSubmitted p) c.

(** ** Firestore writes *)

Definition hasPlayer (i : string) (ps : list Player) : bool :=
  existsb (fun p => pid p =? i) ps.

(** The effect of updating document [i] of the sub-collection. *)
Definition updatePlayers (i : string) (f : Player -> Player)
           (ps : list Player) : list Player :=
  map (fun p => if pid p =? i then f p else p) ps.

(** [updateDoc(doc(db, "rooms", roomId, "players", i), ...)]. *)
Definition updatePlayerDoc (i : string) (f : Player -> Player) (s : Store) : Res :=
  if hasPlayer i (players s)
  then Ok (mkStore (room s) (updatePlayers i f (players s)))
  else Throw DocNotFound s.

(** [updateDoc(doc(db, "rooms", roomId), ...)]. *)
Definition updateRoomDoc (f : Room -> Room) (s : Store) : Res :=
  match room s with
  | Some r => Ok (mkStore (Some (f r)) (players s))
  | None => Throw DocNotFound s
  end.

(** One [batch.update].  A batch commits atomically: every target document
    must exist, otherwise nothing is written. *)
Inductive BatchWrite : Type :=
| PlayerUpdate (i : string) (f : Player -> Player)
| RoomUpdate (f : Room -> Room).

Definition applyWrite (w : BatchWrite) (s : Store) : option Store :=
  match w with
  | PlayerUpdate i f =>
      if hasPlayer i (players s)
      then Some (mkStore (room s) (updatePlayers i f (players s)))
      else None
  | RoomUpdate f =>
      match room s with
      | Some r => Some (mkStore (Some (f r)) (players s))
      | None => None
      end
  end.

Fixpoint applyWrites (ws : list BatchWrite) (s : Store) : option Store :=
  match ws with
  | [] => Some s
  | w :: ws' =>
      match applyWrite w s with
      | Some s' => applyWrites ws' s'
      | None => None
      end
  end.

(** [batch.commit()]. *)
Definition commit (batch : list BatchWrite) (s : Store) : Res :=
  match applyWrites batch s with
  | Some s' => Ok s'
  | None => Throw DocNotFound s
  end.

(** ** Randomness *)

(** The source of [Math.random()] for one [shuffle]: [rnd i] stands for the
    draw made at loop index [i], and [rnd i mod (i + 1)] for
    [Math.floor(Math.random() * (i + 1))], a value in [0 .. i]. *)
Definition Rand : Type := nat -> nat.

(** ** The current room service *)

Module RoomService.

(** [isMafiaRole]. *)
Definition isMafiaRole (r : Role) : bool :=
  match r with
  | mafia | don => true
  | _ => false
  end.

(** [calcWinner]: [Some w_town] is "town", [Some w_mafia] is "mafia",
    [None] is [null]. *)
Definition calcWinner (ps : list Player) : option Winner :=
  let alive := filter isAlive ps in
  let mafiaAlive := length (filter (fun p => isMafiaRole (role p)) alive) in
  let townAlive := length alive - mafiaAlive in
  if (mafiaAlive =? 0)%nat then Some w_town
  else if (townAlive <=? mafiaAlive)%nat then Some w_mafia
  else None.

(** [computeEndsAtMs]. *)
Definition computeEndsAtMs (clk : Clock) (durationSec : Z) : Z :=
  (nowMs clk + durationSec * 1000)%Z.

(** *** Role assignment *)

(** [a[i] = x]; never used out of range. *)
Fixpoint setNth {T : Type} (i : nat) (x : T) (a : list T) : list T :=
  match a, i with
  | [], _ => []
  | _ :: t, O => x :: t
  | h :: t, S i' => h :: setNth i' x t
  end.

(** [[a[i], a[j]] = [a[j], a[i]]].  In [shuffle], [j <= i < a.length]. *)
Definition swap {T : Type} (a : list T) (i j : nat) : list T :=
  match nth_error a i, nth_error a j with
  | Some x, Some y => setNth j x (setNth i y a)
  | _, _ => a
  end.

(** The loop of [shuffle], from index [i] down to 1. *)
Fixpoint shuffleFrom {T : Type} (rnd : Rand) (i : nat) (a : list T) : list T :=
  match i with
  | O => a
  | S i' => shuffleFrom rnd i' (swap a i (rnd i mod (i + 1)))
  end.

(** [shuffle]. *)
Definition shuffle {T : Type} (rnd : Rand) (arr : list T) : list T :=
  shuffleFrom rnd (length arr - 1) arr.

(** [for (let i = 0; i < mafiaCount; i++) roles.push("mafia")]. *)
Fixpoint pushMafia (n : nat) (roles : list Role) : list Role :=
  match n with
  | O => roles
  | S n' => pushMafia n' (roles ++ [mafia])
  end.

(** [while (roles.length < count) roles.push("citizen")]; the loop runs at
    most [count] times, which is the fuel given by [rolesFor]. *)
Fixpoint pushCitizens (fuel count : nat) (roles : list Role) : list Role :=
  match fuel with
  | O => roles
  | S fuel' =>
      if (length roles <? count)%nat
      then pushCitizens fuel' count (roles ++ [citizen])
      else roles
  end.

Definition mafiaCountFor (count : nat) : nat :=
  let mafiaCount := 1 in
  let mafiaCount := if (6 <=? count)%nat then 2 else mafiaCount in
  let mafiaCount := if (9 <=? count)%nat then 3 else mafiaCount in
  mafiaCount.

(** [buildRoles] up to its final [shuffle]. *)
Definition rolesFor (count : nat) : list Role :=
  let roles := pushMafia (mafiaCountFor count) [] in
  let roles := if (9 <=? count)%nat then roles ++ [don] else roles in
  let roles := roles ++ [komissar] in
  let roles := roles ++ [doctor] in
  pushCitizens count count roles.

(** [buildRoles]. *)
Definition buildRoles (rnd : Rand) (count : nat) : list Role :=
  shuffle rnd (rolesFor count).

(** *** Lobby *)

(** The document [createRoom] and [joinRoom] add for a player; [i] is the
    id Firestore generates. *)
Definition newPlayer (i nick : string) : Player :=
  mkPlayer i nick unknown true false false false false None.

(** [createRoom]: the store of the new room once its three writes are done;
    [c] is the generated room code and [i] the owner's player id. *)
Definition createRoom (c i nick : string) : Store :=
  mkStore
    (Some (mkRoom c st_lobby ph_lobby 0 nick (Some i) None None
                  (mkSettings (Some 60%Z) (Some 60%Z) (Some 45%Z))
                  emptyNight emptyDay emptyVote))
    [newPlayer i nick].

(** [joinRoom]: one more player document, the last in [createdAt] order. *)
Definition joinRoom (i nick : string) (s : Store) : Store :=
  mkStore (room s) (players s ++ [newPlayer i nick]).

(** *** Start of the game *)

(** The fields [startGame] writes on a player document. *)
Definition startPlayer (r : Role) (p : Player) : Player :=
  mkPlayer (pid p) (nickname p) r true false false false false None.

(** The fields [startGame] writes on the room document. *)
Definition startRoom (endsAt : Z) (r : Room) : Room :=
  mkRoom (code r) st_playing ph_night 0 (ownerNickname r) (ownerPlayerId r)
         (Some endsAt) None (settings r) emptyNight emptyDay emptyVote.

Definition settingsOf (s : Store) : Settings :=
  match room s with
  | Some r => settings r
  | None => mkSettings None None None
  end.

(** [startGame]; [rndRoles] and [rndPlayers] feed the two shuffles.
    [roles[idx]] is paired with [shuffledPlayers[idx]]; both lists have the
    same length (see [buildRoles_length]). *)
Definition startGame (clk : Clock) (rndRoles rndPlayers : Rand)
           (nightDurationSec : option Z) (s : Store) : Res :=
  let nightSec := orElse nightDurationSec (orElse (nightSec (settingsOf s)) 60) in
  let ps := players s in
  if (length ps <? 4)%nat then Throw InvalidPlayerCount s
  else
    let roles := buildRoles rndRoles (length ps) in
    let shuffledPlayers := shuffle rndPlayers ps in
    let batch :=
      map (fun pr => PlayerUpdate (pid (fst pr)) (startPlayer (snd pr)))
          (combine shuffledPlayers roles)
      ++ [RoomUpdate (startRoom (computeEndsAtMs clk nightSec))] in
    commit batch s.

(** *** Night *)

Definition setKill (target actor : string) (ts : Z) (n : Night) : Night :=
  mkNight (Some target) (Some actor) true
          (saveTargetId n) (saveBy n) (submittedSave n)
          (checkTargetId n) (checkBy n) (submittedCheck n)
          (Some ts) (night_resolvedAt n) (lastKilledPlayerId n) (lastSavedPlayerId n).

Definition setSave (target actor : string) (ts : Z) (n : Night) : Night :=
  mkNight (killTargetId n) (killBy n) (submittedKill n)
          (Some target) (Some actor) true
          (checkTargetId n) (checkBy n) (submittedCheck n)
          (Some ts) (night_resolvedAt n) (lastKilledPlayerId n) (lastSavedPlayerId n).

Definition setCheck (target actor : string) (ts : Z) (n : Night) : Night :=
  mkNight (killTargetId n) (killBy n) (submittedKill n)
          (saveTargetId n) (saveBy n) (submittedSave n)
          (Some target) (Some actor) true
          (Some ts) (night_resolvedAt n) (lastKilledPlayerId n) (lastSavedPlayerId n).

Definition withNight (f : Night -> Night) (r : Room) : Room :=
  mkRoom (code r) (status r) (phase r) (dayNumber r) (ownerNickname r)
         (ownerPlayerId r) (phaseEndsAtMs r) (winner r) (settings r)
         (f (night r)) (day r) (vote r).

Definition withVote (f : Vote -> Vote) (r : Room) : Room :=
  mkRoom (code r) (status r) (phase r) (dayNumber r) (ownerNickname r)
         (ownerPlayerId r) (phaseEndsAtMs r) (winner r) (settings r)
         (night r) (day r) (f (vote r)).

(** The three role-dependent writes of [submitNightAction]; a role outside
    the parameter's type matches none of the three tests. *)
Definition writeNightAction (clk : Clock) (r : Role) (actor target : string)
           (s : Store) : Res :=
  match r with
  | mafia | don => updateRoomDoc (withNight (setKill target actor (serverTs clk))) s
  | doctor => updateRoomDoc (withNight (setSave target actor (serverTs clk))) s
  | komissar => updateRoomDoc (withNight (setCheck target actor (serverTs clk))) s
  | _ => Ok s
  end.

(** [submitNightAction]. *)
Definition submitNightAction (clk : Clock) (r : Role)
           (actorPlayerId targetPlayerId : string) (s : Store) : Res :=
  match find (fun p => pid p =? actorPlayerId) (players s) with
  | None => Throw ActorNotFound s
  | Some actor =>
      if nightSubmitted actor then Throw ActionAlreadySubmitted s
      else
        writeNightAction clk r actorPlayerId targetPlayerId s >>= fun s1 =>
        updatePlayerDoc actorPlayerId (setNightSubmitted true) s1
  end.

(** [killedPlayerId] of [resolveNight]. *)
Definition killedOf (n : Night) : option string :=
  if truthy (killTargetId n) && negb (optEqb (killTargetId n) (saveTargetId n))
  then killTargetId n
  else None.

(** [p.id === x] for [x : string | null]. *)
Definition isId (x : option string) (p : Player) : bool :=
  match x with
  | Some i => pid p =? i
  | None => false
  end.

(** [players.map((p) => (p.id === x ? { ...p, isAlive: false } : p))]. *)
Definition playersAfter (x : option string) (ps : list Player) : list Player :=
  map (fun p => if isId x p then setAlive false p else p) ps.

(** The komissar's step of [resolveNight], an [updateDoc] of its own that is
    awaited before the batch is built. *)
Definition writeCheckResult (clk : Clock) (n : Night) (s : Store) : Res :=
  if truthy (checkTargetId n) && truthy (checkBy n) then
    match checkTargetId n, checkBy n with
    | Some ct, Some cb =>
        match find (fun p => pid p =? ct) (players s) with
        | Some target =>
            updatePlayerDoc cb
              (setLastCheckResult
                 (Some (mkCheckResult ct (isMafiaRole (role target))
                                      (Some (nowMs clk)))))
              s
        | None => Ok s
        end
    | _, _ => Ok s
    end
  else Ok s.

(** The audit record written to [room.night]. *)
Definition resolvedNight (ts : Z) (killed saved : option string) : Night :=
  mkNight None None false None None false None None false None
          (Some ts) killed saved.

(** The room update of [resolveNight], in its two branches. *)
Definition nightRoomUpdate (clk : Clock) (w : option Winner) (daySec : Z)
           (killed saved : option string) (r : Room) : Room :=
  match w with
  | Some _ =>
      mkRoom (code r) st_ended ph_ended (dayNumber r) (ownerNickname r)
             (ownerPlayerId r) None w (settings r)
             (resolvedNight (serverTs clk) killed saved) emptyDay emptyVote
  | None =>
      mkRoom (code r) (status r) ph_day (dayNumber r + 1) (ownerNickname r)
             (ownerPlayerId r) (Some (computeEndsAtMs clk daySec)) (winner r)
             (settings r)
             (resolvedNight (serverTs clk) killed saved) emptyDay emptyVote
  end.

(** [resolveNight]. *)
Definition resolveNight (clk : Clock) (dayDurationSec : option Z) (s : Store) : Res :=
  match room s with
  | None => Throw RoomNotFound s
  | Some r =>
      let daySec := orElse dayDurationSec (orElse (daySec (settings r)) 60) in
      let n := night r in
      let ps := players s in
      writeCheckResult clk n s >>= fun s1 =>
      let killedPlayerId := killedOf n in
      let batch :=
        match killedPlayerId with
        | Some k => [PlayerUpdate k (setAlive false)]
        | None => []
        end
        ++ map (fun p => PlayerUpdate (pid p) (setNightSubmitted false)) ps
        ++ [RoomUpdate (nightRoomUpdate clk (calcWinner (playersAfter killedPlayerId ps))
                                        daySec killedPlayerId (saveTargetId n))] in
      commit batch s1
  end.

(** *** Vote *)

(** The room update of [startVote]. *)
Definition voteRoomUpdate (clk : Clock) (voteSec : Z) (r : Room) : Room :=
  mkRoom (code r) (status r) ph_vote (dayNumber r) (ownerNickname r)
         (ownerPlayerId r) (Some (computeEndsAtMs clk voteSec)) (winner r)
         (settings r) (night r) (day r)
         (mkVote (Some (serverTs clk)) [] false None None None).

(** [startVote]. *)
Definition startVote (clk : Clock) (voteDurationSec : option Z) (s : Store) : Res :=
  let voteSec := orElse voteDurationSec (orElse (voteSec (settingsOf s)) 45) in
  let batch :=
    map (fun p => PlayerUpdate (pid p) (setVoteSubmitted false)) (players s)
    ++ [RoomUpdate (voteRoomUpdate clk voteSec)] in
  commit batch s.

(** Writing the field [vote.votes.<voter>]: an existing entry is replaced,
    a new one comes last. *)
Fixpoint setEntry {V : Type} (k : string) (v : V) (m : list (string * V))
  : list (string * V) :=
  match m with
  | [] => [(k, v)]
  | (k', v') :: m' =>
      if k' =? k then (k, v) :: m' else (k', v') :: setEntry k v m'
  end.

Fixpoint getEntry {V : Type} (k : string) (m : list (string * V)) : option V :=
  match m with
  | [] => None
  | (k', v') :: m' => if k' =? k then Some v' else getEntry k m'
  end.

Definition setVoteOf (voter target : string) (ts : Z) (v : Vote) : Vote :=
  mkVote (vote_startedAt v) (setEntry voter target (votes v)) (resolved v)
         (Some ts) (vote_resolvedAt v) (eliminatedPlayerId v).

(** [submitVote]. *)
Definition submitVote (clk : Clock) (voterPlayerId targetPlayerId : string)
           (s : Store) : Res :=
  match find (fun p => pid p =? voterPlayerId) (players s) with
  | None => Throw VoterNotFound s
  | Some voter =>
      if voteSubmitted voter then Throw ActionAlreadySubmitted s
      else
        updateRoomDoc
          (withVote (setVoteOf voterPlayerId targetPlayerId (serverTs clk))) s
        >>= fun s1 =>
        updatePlayerDoc voterPlayerId (setVoteSubmitted true) s1
  end.

(** [aliveIds.has(i)]. *)
Definition aliveHas (ps : list Player) (i : string) : bool :=
  existsb (fun p => pid p =? i) (filter isAlive ps).

(** The property names of [Object.prototype], annex B of ECMAScript
    included: the keys for which a plain object [{}] answers with an
    inherited member although it holds no entry of its own.  All of them are
    functions but [__proto__], an accessor that yields the prototype itself
    and whose setter ignores a value that is no object. *)
Definition prototypeKeys : list string :=
  ["constructor"; "__defineGetter__"; "__defineSetter__"; "hasOwnProperty";
   "__lookupGetter__"; "__lookupSetter__"; "isPrototypeOf";
   "propertyIsEnumerable"; "toString"; "valueOf"; "__proto__"; "toLocaleString"].

Definition inherited (k : string) : bool :=
  existsb (fun k' => k' =? k) prototypeKeys.

(** What an entry of [tally] holds: a number, or the string that [+ 1]
    makes of an inherited member (the member's text followed by "1", which is
    no numeral) and of such a string again. *)
Inductive TallyValue : Type :=
| t_num (n : nat)
| t_str.

(** [tally[targetId] = (tally[targetId] || 0) + 1] on the plain object
    [tally = {}].  The lookup finds the object's own entry, else the
    inherited member, else [undefined]; an inherited member and a string are
    truthy, so [+ 1] appends to them.  The assignment adds or replaces an
    own entry, except for [__proto__], where it calls the setter with a
    string and changes nothing. *)
Definition bump (t : string) (tally : list (string * TallyValue))
  : list (string * TallyValue) :=
  match getEntry t tally with
  | Some (t_num c) => setEntry t (t_num (if (c =? 0)%nat then 0 + 1 else c + 1)) tally
  | Some t_str => setEntry t t_str tally
  | None =>
      if inherited t
      then (if t =? "__proto__" then tally else setEntry t t_str tally)
      else setEntry t (t_num (0 + 1)) tally
  end.

(** The body of the first loop of [resolveVote], for the entry
    [[voterId, targetId] = e]. *)
Definition tallyStep (ps : list Player) (tally : list (string * TallyValue))
           (e : string * string) : list (string * TallyValue) :=
  if negb (aliveHas ps (fst e)) then tally
  else if negb (aliveHas ps (snd e)) then tally
  else bump (snd e) tally.

(** The first loop of [resolveVote]. *)
Definition tallyVotes (ps : list Player) (votesObj : list (string * string))
  : list (string * TallyValue) :=
  fold_left (tallyStep ps) votesObj [].

(** The variables [eliminatedId], [max] and [tie] of the second loop. *)
Record Leader : Type := mkLeader {
  l_eliminatedId : option string;
  l_max : nat;
  l_tie : bool
}.

(** The body of the second loop.  For a string that is no numeral both
    [count > max] and [count === max] are false. *)
Definition leaderStep (l : Leader) (e : string * TallyValue) : Leader :=
  let (t, count) := e in
  match count with
  | t_num count =>
      if (l_max l <? count)%nat then mkLeader (Some t) count false
      else if (count =? l_max l)%nat && negb (count =? 0)%nat
           then mkLeader (l_eliminatedId l) (l_max l) true
           else l
  | t_str => l
  end.

(** The second loop of [resolveVote] over the entries of [tally], here in
    the order of their insertion, followed by [if (tie) eliminatedId =
    null]. *)
Definition leaderOf (tally : list (string * TallyValue)) : option string :=
  let l := fold_left leaderStep tally (mkLeader None 0 false) in
  if l_tie l then None else l_eliminatedId l.

(** [eliminatedId] of [resolveVote]. *)
Definition eliminatedOf (ps : list Player) (votesObj : list (string * string))
  : option string :=
  leaderOf (tallyVotes ps votesObj).

Definition resolvedVote (ts : Z) (eliminated : option string) (v : Vote) : Vote :=
  mkVote (vote_startedAt v) (votes v) true (vote_updatedAt v) (Some ts) eliminated.

(** The room update of [resolveVote], in its two branches. *)
Definition voteResolveUpdate (clk : Clock) (w : option Winner) (nightSec : Z)
           (eliminated : option string) (r : Room) : Room :=
  match w with
  | Some _ =>
      mkRoom (code r) st_ended ph_ended (dayNumber r) (ownerNickname r)
             (ownerPlayerId r) None w (settings r)
             emptyNight (day r) (resolvedVote (serverTs clk) eliminated (vote r))
  | None =>
      mkRoom (code r) (status r) ph_night (dayNumber r) (ownerNickname r)
             (ownerPlayerId r) (Some (computeEndsAtMs clk nightSec)) (winner r)
             (settings r)
             emptyNight (day r) (resolvedVote (serverTs clk) eliminated (vote r))
  end.

(** [resolveVote]. *)
Definition resolveVote (clk : Clock) (nightDurationSec : option Z) (s : Store) : Res :=
  match room s with
  | None => Throw RoomNotFound s
  | Some r =>
      let nightSec := orElse nightDurationSec (orElse (nightSec (settings r)) 60) in
      let votesObj := votes (vote r) in
      let ps := players s in
      let eliminatedId := eliminatedOf ps votesObj in
      let batch :=
        (if truthy eliminatedId
         then match eliminatedId with
              | Some e => [PlayerUpdate e (setAlive false)]
              | None => []
              end
         else [])
        ++ map (fun p => PlayerUpdate (pid p) (setVoteSubmitted false)) ps
        ++ [RoomUpdate (voteResolveUpdate clk (calcWinner (playersAfter eliminatedId ps))
                                          nightSec eliminatedId)] in
      commit batch s
  end.

End RoomService.

(** ** The earlier room service, [src/firebase/roomService.ts]

    Only the functions that differ from the current service in what the
    properties below are about: night submission, vote submission and night
    resolution.  [isMafiaRole], [calcWinner] and [computeEndsAtMs] are the
    same in both files. *)

Module LegacyRoomService.

Import RoomService.

(** [submitNightAction]: the three role-dependent writes and nothing else. *)
Definition submitNightAction (clk : Clock) (r : Role)
           (actorPlayerId targetPlayerId : string) (s : Store) : Res :=
  writeNightAction clk r actorPlayerId targetPlayerId s.

(** [submitVote]. *)
Definition submitVote (clk : Clock) (voterPlayerId targetPlayerId : string)
           (s : Store) : Res :=
  updateRoomDoc
    (withVote (setVoteOf voterPlayerId targetPlayerId (serverTs clk))) s.

(** [checkResult] of [resolveNight]. *)
Definition checkResultOf (n : Night) (ps : list Player) : option CheckResult :=
  if truthy (checkTargetId n) then
    match checkTargetId n with
    | Some ct =>
        match find (fun p => pid p =? ct) ps with
        | Some target => Some (mkCheckResult ct (isMafiaRole (role target)) None)
        | None => None
        end
    | None => None
    end
  else None.

(** The room update of [resolveNight]: ["day.lastCheckResult"] is a field of
    the room document in both branches. *)
Definition nightRoomUpdate (clk : Clock) (w : option Winner) (dayDurationSec : Z)
           (checkResult : option CheckResult) (killed saved : option string)
           (r : Room) : Room :=
  match w with
  | Some _ =>
      mkRoom (code r) st_ended ph_ended (dayNumber r) (ownerNickname r)
             (ownerPlayerId r) None w (settings r)
             (resolvedNight (serverTs clk) killed saved)
             (mkDay checkResult) (vote r)
  | None =>
      mkRoom (code r) (status r) ph_day (dayNumber r + 1) (ownerNickname r)
             (ownerPlayerId r) (Some (computeEndsAtMs clk dayDurationSec))
             (winner r) (settings r)
             (resolvedNight (serverTs clk) killed saved)
             (mkDay checkResult) emptyVote
  end.

(** [resolveNight]; the default of [dayDurationSec] is 60. *)
Definition resolveNight (clk : Clock) (dayDurationSec : option Z) (s : Store) : Res :=
  match room s with
  | None => Throw RoomNotFound s
  | Some r =>
      let dayDurationSec := orElse dayDurationSec 60 in
      let n := night r in
      let ps := players s in
      let checkResult := checkResultOf n ps in
      let killedPlayerId := killedOf n in
      let batch :=
        match killedPlayerId with
        | Some k => [PlayerUpdate k (setAlive false)]
        | None => []
        end
        ++ [RoomUpdate (nightRoomUpdate clk (calcWinner (playersAfter killedPlayerId ps))
                                        dayDurationSec checkResult
                                        killedPlayerId (saveTargetId n))] in
      commit batch s
  end.

End LegacyRoomService.

(** ** The host's auto-advance, [Room.tsx] *)

Module Host.

Import RoomService.

(** What one browser tab holds: the stored player id, the last [room]
    snapshot delivered by the listener, and [autoLockRef.current].  The lock
    string [done-<phase>-<phaseEndsAtMs>] is kept as the pair it is built
    from, the empty string as [None]. *)
Record Client : Type := mkClient {
  playerId : option string;
  snapshot : option Room;
  autoLock : option (Phase * Z)
}.

(** [isHost]. *)
Definition isHost (c : Client) : bool :=
  match snapshot c with
  | Some r => truthy (playerId c) && optEqb (ownerPlayerId r) (playerId c)
  | None => false
  end.

Definition lockEqb (l : option (Phase * Z)) (key : Phase * Z) : bool :=
  match l with
  | Some (ph, d) => Phase_eqb ph (fst key) && (d =? snd key)%Z
  | None => false
  end.

(** The constants [NIGHT_SEC], [DAY_SEC] and [VOTE_SEC] of the component. *)
Record Durations : Type := mkDurations {
  NIGHT_SEC : Z;
  DAY_SEC : Z;
  VOTE_SEC : Z
}.

(** The earlier versions of [Room.tsx] fix them. *)
Definition fixedDurations : Durations := mkDurations 60 60 45.

(** The current version reads them from the snapshot's settings. *)
Definition settingsDurations (r : Room) : Durations :=
  mkDurations (orElse (nightSec (settings r)) 60)
              (orElse (daySec (settings r)) 60)
              (orElse (voteSec (settings r)) 45).

(** The [try] block of [tick]: the resolution chosen by the snapshot's
    phase. *)
Definition advance (clk : Clock) (dur : Durations) (r : Room) (s : Store) : Res :=
  match phase r with
  | ph_night => resolveNight clk (Some (DAY_SEC dur)) s
  | ph_day => startVote clk (Some (VOTE_SEC dur)) s
  | ph_vote => resolveVote clk (Some (NIGHT_SEC dur)) s
  | _ => Ok s
  end.

(** [tick], run by the interval of a tab whose effect is installed
    ([isHost] holds). *)
Definition tick (clk : Clock) (dur : Durations) (c : Client) (s : Store)
  : Client * Store :=
  if negb (isHost c) then (c, s)
  else
    match snapshot c with
    | None => (c, s)
    | Some r =>
        if negb (Status_eqb (status r) st_playing) then (c, s)
        else
          match phaseEndsAtMs r with
          | None => (c, s)
          | Some d =>
              if (d =? 0)%Z then (c, s)
              else
                let key := (phase r, d) in
                if lockEqb (autoLock c) key then (c, s)
                else if negb (d <=? nowMs clk)%Z then (c, s)
                else
                  match advance clk dur r s with
                  | Ok s' => (mkClient (playerId c) (snapshot c) (Some key), s')
                  | Throw _ s' => (mkClient (playerId c) (snapshot c) None, s')
                  end
          end
    end.

(** A tab that has just received the room document of the store. *)
Definition freshClient (i : string) (s : Store) : Client :=
  mkClient (Some i) (room s) None.

End Host.

(** ** Operations and reachable stores *)

Module Game.

Import RoomService.

(** The operations the service exposes on an existing room. *)
Inductive Op : Type :=
| OpStartGame (rndRoles rndPlayers : Rand) (nightDurationSec : option Z)
| OpSubmitNightAction (r : Role) (actorPlayerId targetPlayerId : string)
| OpResolveNight (dayDurationSec : option Z)
| OpStartVote (voteDurationSec : option Z)
| OpSubmitVote (voterPlayerId targetPlayerId : string)
| OpResolveVote (nightDurationSec : option Z).

Definition run (clk : Clock) (o : Op) (s : Store) : Res :=
  match o with
  | OpStartGame rr rp d => startGame clk rr rp d s
  | OpSubmitNightAction r a t => submitNightAction clk r a t s
  | OpResolveNight d => resolveNight clk d s
  | OpStartVote d => startVote clk d s
  | OpSubmitVote v t => submitVote clk v t s
  | OpResolveVote d => resolveVote clk d s
  end.

(** The stores a room can be in: created, then any sequence of joins (each
    with a fresh, non-empty document id) and operations, whether they
    succeed or throw. *)
Inductive reachable : Store -> Prop :=
| reach_create (c i nick : string) :
    i <> "" -> reachable (createRoom c i nick)
| reach_join (i nick : string) (s : Store) :
    reachable s -> i <> "" -> hasPlayer i (players s) = false ->
    reachable (joinRoom i nick s)
| reach_run (clk : Clock) (o : Op) (s : Store) :
    reachable s -> reachable (storeOf (run clk o s)).

(** Running a script of timed operations, throws included. *)
Fixpoint runAll (script : list (Clock * Op)) (s : Store) : Store :=
  match script with
  | [] => s
  | (clk, o) :: rest => runAll rest (storeOf (run clk o s))
  end.

End Game.

(** ** Notions used in the statements

    These follow the wording of the specification, not the code. *)

Module Spec.

(** How many players satisfy [f]. *)
Fixpoint countPlayers (f : Player -> bool) (ps : list Player) : nat :=
  match ps with
  | [] => 0
  | p :: ps' => (if f p then 1 else 0) + countPlayers f ps'
  end.

(** Mafia-aligned roles = {mafia, don}. *)
Definition mafiaAligned (r : Role) : bool :=
  if Role_eq_dec r mafia then true
  else if Role_eq_dec r don then true else false.

(** aliveMafia = count of alive mafia-aligned. *)
Definition aliveMafia (ps : list Player) : nat :=
  countPlayers (fun p => isAlive p && mafiaAligned (role p)) ps.

(** aliveTown = count of alive minus aliveMafia. *)
Definition aliveTown (ps : list Player) : nat :=
  countPlayers isAlive ps - aliveMafia ps.

(** The role-count policy for [n] players. *)
Definition mafiaCount (n : nat) : nat :=
  if (n <? 6)%nat then 1 else if (n <? 9)%nat then 2 else 3.

Definition donCount (n : nat) : nat :=
  if (9 <=? n)%nat then 1 else 0.

Definition countRole (r : Role) (roles : list Role) : nat :=
  count_occ Role_eq_dec roles r.

(** The player with id [i] is currently alive. *)
Definition aliveId (ps : list Player) (i : string) : bool :=
  existsb (fun p => (pid p =? i) && isAlive p) ps.

(** A vote counts when both its voter and its target are alive. *)
Definition validVote (ps : list Player) (e : string * string) : bool :=
  aliveId ps (fst e) && aliveId ps (snd e).

(** The number of valid votes for [t]. *)
Fixpoint votesFor (ps : list Player) (vs : list (string * string)) (t : string) : nat :=
  match vs with
  | [] => 0
  | e :: vs' =>
      (if validVote ps e && (snd e =? t) then 1 else 0) + votesFor ps vs' t
  end.

(** [t] holds the unique maximum of [cnt], and that maximum is above 0. *)
Definition uniqueMax (cnt : string -> nat) (t : string) : Prop :=
  0 < cnt t /\ forall t', t' <> t -> cnt t' < cnt t.

(** The kill target if present and different from the save target. *)
Definition nightKilled (kill save : option string) : option string :=
  match kill with
  | Some k =>
      if k =? "" then None
      else match save with
           | Some sv => if sv =? k then None else Some k
           | None => Some k
           end
  | None => None
  end.

(** What a resolution does to the roster: the player [x], if any, dies. *)
Definition dies (x : option string) (p : Player) : bool :=
  match x with
  | Some i => if pid p =? i then false else isAlive p
  | None => isAlive p
  end.

(** The outcome of a resolution: the roster, and status, phase, day
    number, deadline, winner and last killed player of the room. *)
Definition outcome (s : Store)
  : list Player
    * option (Status * Phase * nat * option Z * option Winner * option string) :=
  (players s,
   option_map (fun r => (status r, phase r, dayNumber r, phaseEndsAtMs r,
                         winner r, lastKilledPlayerId (night r)))
              (room s)).

(** The store in which the pending save target is [sv]. *)
Definition withSave (sv : option string) (s : Store) : Store :=
  mkStore
    (option_map
       (RoomService.withNight
          (fun n => mkNight (killTargetId n) (killBy n) (submittedKill n)
                            sv (saveBy n) (submittedSave n)
                            (checkTargetId n) (checkBy n) (submittedCheck n)
                            (night_updatedAt n) (night_resolvedAt n)
                            (lastKilledPlayerId n) (lastSavedPlayerId n)))
       (room s))
    (players s).

(** How many players of the roster hold role [r]. *)
Definition rosterCount (r : Role) (ps : list Player) : nat :=
  countRole r (map role ps).

End Spec.

(** ** Sample rooms *)

Module Sample.

Import RoomService Game Host.

Definition rnd0 : Rand := fun _ => 0.

Definition clk (t : Z) : Clock := mkClock t t.

(** Four players in the lobby; [p1] owns the room. *)
Definition lobby4 : Store :=
  joinRoom "p4" "Dana"
    (joinRoom "p3" "Chris" (joinRoom "p2" "Bo" (createRoom "123456" "p1" "Alex"))).

(** The first night: [p1] mafia, [p2] komissar, [p3] doctor, [p4] citizen;
    the night ends at 61000. *)
Definition night4 : Store :=
  storeOf (startGame (clk 1000) rnd0 rnd0 None lobby4).

(** A tab of the owner [p1] that has just received the room of [night4]. *)
Definition ownerTab : Host.Client := freshClient "p1" night4.

(** The store after that tab's tick at 61000, when the night has just
    expired, and the store after a further tick at 61500 of a second tab of
    the owner that holds the same snapshot and a lock of its own. *)
Definition nightTickedOnce : Store :=
  snd (tick (clk 61000) fixedDurations ownerTab night4).

Definition nightTickedTwice : Store :=
  snd (tick (clk 61500) fixedDurations ownerTab nightTickedOnce).

(** Nine players in the lobby. *)
Definition lobby9 : Store :=
  fold_left (fun s i => joinRoom i "guest" s)
            ["q2"; "q3"; "q4"; "q5"; "q6"; "q7"; "q8"; "q9"]
            (createRoom "654321" "q1" "host").

(** The game started with those nine players. *)
Definition started9 : Store :=
  storeOf (startGame (clk 1000) rnd0 rnd0 None lobby9).

(** The night of [night4] with a kill on [p4] by [p1] and a check of [p1]
    by [p2] submitted. *)
Definition night4Acted : Store :=
  runAll [(clk 2000, OpSubmitNightAction mafia "p1" "p4");
          (clk 3000, OpSubmitNightAction komissar "p2" "p1")] night4.

(** The same night with [p3] saved by the doctor. *)
Definition savedNight : Store := Spec.withSave (Some "p3") night4Acted.

(** The night of [night4] with a check of [p1] by [p2] submitted through
    the earlier service. *)
Definition legacyChecked : Store :=
  storeOf (LegacyRoomService.submitNightAction (clk 3000) komissar "p2" "p1" night4).

(** The vote of the first day after [p4] was killed in the night. *)
Definition voteAfterKill : Store :=
  runAll [(clk 61000, OpResolveNight None);
          (clk 121000, OpStartVote None)] night4Acted.

(** That vote with [p1] and [p2] voting for [p2], and [p3] for [p1]; its
    deadline is 166000. *)
Definition voteAfterKillCast : Store :=
  runAll [(clk 122000, OpSubmitVote "p1" "p2");
          (clk 123000, OpSubmitVote "p2" "p2");
          (clk 124000, OpSubmitVote "p3" "p1")] voteAfterKill.

(** A vote in which [p2], [p3] vote for [p1] and [p4] votes for [p2]. *)
Definition vote4 : Store :=
  runAll [(clk 61000, OpResolveNight None);
          (clk 121000, OpStartVote None);
          (clk 122000, OpSubmitVote "p2" "p1");
          (clk 123000, OpSubmitVote "p3" "p1");
          (clk 124000, OpSubmitVote "p4" "p2")] night4.

(** The room after that vote is resolved: the mafia is out, the town wins. *)
Definition ended4 : Store :=
  runAll [(clk 166000, OpResolveVote None)] vote4.

End Sample.

(** ** Notions used in the proofs *)

(** The role a player document receives from the batch of [startGame]. *)
Definition assigned (l : list (Player * Role)) (p : Player) : Player :=
  match find (fun pr => pid (fst pr) =? pid p) l with
  | Some pr => RoomService.startPlayer (snd pr) p
  | None => p
  end.

(** What the komissar's step of [resolveNight] does to a player document,
    [ps] being the roster read by the resolution. *)
Definition checkEffect (clk : Clock) (n : Night) (ps : list Player) (p : Player) : Player :=
  if truthy (checkTargetId n) && truthy (checkBy n) then
    match checkTargetId n, checkBy n with
    | Some ct, Some cb =>
        match find (fun q => pid q =? ct) ps with
        | Some target =>
            if pid p =? cb
            then setLastCheckResult
                   (Some (mkCheckResult ct (RoomService.isMafiaRole (role target))
                                        (Some (nowMs clk)))) p
            else p
        | None => p
        end
    | _, _ => p
    end
  else p.

(** The komissar's step needs the document of [checkBy] when it writes. *)
Definition checkCommits (n : Night) (ps : list Player) : bool :=
  if truthy (checkTargetId n) && truthy (checkBy n) then
    match checkTargetId n, checkBy n with
    | Some ct, Some cb =>
        match find (fun q => pid q =? ct) ps with
        | Some _ => hasPlayer cb ps
        | None => true
        end
    | _, _ => true
    end
  else true.

(** The batch of a resolution needs the document of the player it kills. *)
Definition victimExists (x : option string) (ps : list Player) : bool :=
  match x with
  | Some k => hasPlayer k ps
  | None => true
  end.

(** What a committed resolution does to a player document: the victim dies,
    then the per-cycle flag is reset by [f]. *)
Definition afterResolution (x : option string) (f : Player -> Player) (p : Player) : Player :=
  f (if RoomService.isId x p then setAlive false p else p).

(** The numbers of a tally, as the two loops of [resolveVote] treat them
    when no key is inherited: a count per target, and the leader among the
    counts. *)
Module Counts.

Import RoomService.

Definition bump (t : string) (tally : list (string * nat)) : list (string * nat) :=
  match getEntry t tally with
  | Some c => setEntry t (if (c =? 0)%nat then 0 + 1 else c + 1) tally
  | None => setEntry t (0 + 1) tally
  end.

Definition tallyStep (ps : list Player) (tally : list (string * nat))
           (e : string * string) : list (string * nat) :=
  if negb (aliveHas ps (fst e)) then tally
  else if negb (aliveHas ps (snd e)) then tally
  else bump (snd e) tally.

Definition tallyVotes (ps : list Player) (votesObj : list (string * string))
  : list (string * nat) :=
  fold_left (tallyStep ps) votesObj [].

Definition leaderStep (l : Leader) (e : string * nat) : Leader :=
  let (t, count) := e in
  if (l_max l <? count)%nat then mkLeader (Some t) count false
  else if (count =? l_max l)%nat && negb (count =? 0)%nat
       then mkLeader (l_eliminatedId l) (l_max l) true
       else l.

Definition leaderOf (tally : list (string * nat)) : option string :=
  let l := fold_left leaderStep tally (mkLeader None 0 false) in
  if l_tie l then None else l_eliminatedId l.

Definition eliminatedOf (ps : list Player) (votesObj : list (string * string))
  : option string :=
  leaderOf (tallyVotes ps votesObj).

End Counts.

(** The entries of a tally that hold a number. *)
Fixpoint numbers (tally : list (string * RoomService.TallyValue)) : list (string * nat) :=
  match tally with
  | [] => []
  | (k, RoomService.t_num c) :: rest => (k, c) :: numbers rest
  | (k, RoomService.t_str) :: rest => numbers rest
  end.

(** The ballots whose target is no inherited key. *)
Definition ordinaryVotes (vs : list (string * string)) : list (string * string) :=
  filter (fun e => negb (RoomService.inherited (snd e))) vs.

(** In a tally built by [bump], inherited keys hold strings and all other
    keys hold numbers. *)
Definition tallyInv (tally : list (string * RoomService.TallyValue)) : Prop :=
  forall k v, In (k, v) tally ->
              (RoomService.inherited k = true <-> v = RoomService.t_str).

(** The count a tally holds for [t]; a missing entry counts 0. *)
Definition entryCount (t : string) (tally : list (string * nat)) : nat :=
  match RoomService.getEntry t tally with
  | Some c => c
  | None => 0
  end.

(** What the second loop of [resolveVote] knows after the entries [l]. *)
Definition leaderInv (l : list (string * nat)) (ld : RoomService.Leader) : Prop :=
  match RoomService.l_eliminatedId ld with
  | None => l = [] /\ RoomService.l_max ld = 0 /\ RoomService.l_tie ld = false
  | Some t =>
      In (t, RoomService.l_max ld) l
      /\ 0 < RoomService.l_max ld
      /\ (forall k c, In (k, c) l -> c <= RoomService.l_max ld)
      /\ (RoomService.l_tie ld = true
          <-> exists k, k <> t /\ In (k, RoomService.l_max ld) l)
  end.

(** A batched write that keeps the id of the player document it updates. *)
Definition keepsId (w : BatchWrite) : Prop :=
  match w with
  | PlayerUpdate _ f => forall p, pid (f p) = pid p
  | RoomUpdate _ => True
  end.

(** A batched write that keeps the property [P] of the room document. *)
Definition keepsRoom (P : Room -> Prop) (w : BatchWrite) : Prop :=
  match w with
  | PlayerUpdate _ _ => True
  | RoomUpdate f => forall r, P r -> P (f r)
  end.

(** [P] holds of the room document, if there is one. *)
Definition roomInv (P : Room -> Prop) (s : Store) : Prop :=
  forall r, room s = Some r -> P r.

(** A room with a winner has status "ended". *)
Definition endedWhenWon (r : Room) : Prop :=
  winner r <> None -> status r = st_ended.

(** ** Tactics for concrete rosters *)

(** Distinct ids of a concrete roster. *)
Ltac distinct_ids :=
  vm_compute;
  repeat (apply NoDup_cons; [simpl; intuition discriminate|]);
  apply NoDup_nil.

(** No empty document id in a concrete roster. *)
Ltac nonempty_ids :=
  let p := fresh "p" in
  let Hin := fresh "Hin" in
  intros p Hin; vm_compute in Hin;
  repeat (destruct Hin as [<-|Hin]; [discriminate|]);
  contradiction.

(** ** Lobby, settings and reconnection, [roomService.ts] *)

Module LobbyService.

Import RoomService.

Definition setReady (b : bool) (p : Player) : Player :=
  mkPlayer (pid p) (nickname p) (role p) (isAlive p) b (isKicked p)
           (nightSubmitted p) (voteSubmitted p) (private_lastCheckResult p).

Definition setKicked (b : bool) (p : Player) : Player :=
  mkPlayer (pid p) (nickname p) (role p) (isAlive p) (isReady p) b
           (nightSubmitted p) (voteSubmitted p) (private_lastCheckResult p).

(** [updatePlayer].  Of [data : Partial<{ avatar, isReady }>] only [isReady]
    is a field of [Player]; [None] is a [data] without it. *)
Definition updatePlayer (playerId : string) (data_isReady : option bool) (s : Store) : Res :=
  updatePlayerDoc playerId
                  (match data_isReady with
                   | Some b => setReady b
                   | None => fun p => p
                   end) s.

(** [kickPlayer]: the update of the target's document.  Of the fields it
    writes, [isKicked] is a field of [Player]. *)
Definition kickPlayer (targetPlayerId : string) (s : Store) : Res :=
  updatePlayerDoc targetPlayerId (setKicked true) s.

(** The connection fields of a player document: [isConnected],
    [lastSeenAtMs], and [lastSeenAt], which a document has once
    [setPlayerConnection] or [heartbeat] has written it. *)
Record Connection : Type := mkConnection {
  isConnected : bool;
  lastSeenAtMs : Z;
  lastSeenAt : option Z
}.

(** The connection fields of the room's player documents, by document id.
    They are kept beside the [Store], whose [Player] holds the fields the
    game reads. *)
Definition Connections : Type := list (string * Connection).

(** What a write of connection fields leaves: the fields as written, or the
    error thrown with the fields as they were. *)
Inductive Written : Type :=
| Wrote (cs : Connections)
| Refused (e : Error) (cs : Connections).

(** [setPlayerConnection]: an [updateDoc] of the three connection fields;
    the document must exist. *)
Definition setPlayerConnection (clk : Clock) (playerId : string) (connected : bool)
           (s : Store) (cs : Connections) : Written :=
  if hasPlayer playerId (players s)
  then Wrote (setEntry playerId
                       (mkConnection connected (nowMs clk) (Some (serverTs clk))) cs)
  else Refused DocNotFound cs.

(** [heartbeat]. *)
Definition heartbeat (clk : Clock) (playerId : string) (s : Store) (cs : Connections)
  : Written :=
  if hasPlayer playerId (players s)
  then Wrote (setEntry playerId (mkConnection true (nowMs clk) (Some (serverTs clk))) cs)
  else Refused DocNotFound cs.

(** [ensurePlayerExists]. *)
Definition ensurePlayerExists (playerId : string) (s : Store) : bool :=
  hasPlayer playerId (players s).

(** [{ ...prev, ...settings }] for a [Partial] whose absent keys are
    [None]. *)
Definition mergeSettings (prev settings : Settings) : Settings :=
  mkSettings
    (match nightSec settings with Some x => Some x | None => nightSec prev end)
    (match daySec settings with Some x => Some x | None => daySec prev end)
    (match voteSec settings with Some x => Some x | None => voteSec prev end).

Definition withSettings (st : Settings) (r : Room) : Room :=
  mkRoom (code r) (status r) (phase r) (dayNumber r) (ownerNickname r)
         (ownerPlayerId r) (phaseEndsAtMs r) (winner r) st
         (night r) (day r) (vote r).

(** [updateRoomSettings]. *)
Definition updateRoomSettings (settings : Settings) (s : Store) : Res :=
  let prev := settingsOf s in
  updateRoomDoc (withSettings (mergeSettings prev settings)) s.

(** [localStorage] of one browser, as the list of its entries. *)
Definition LocalStorage : Type := list (string * string).

Definition getItem (k : string) (ls : LocalStorage) : option string := getEntry k ls.

Definition setItem (k v : string) (ls : LocalStorage) : LocalStorage := setEntry k v ls.

(** The value [autoRejoinIfNeeded] resolves to. *)
Record Rejoin : Type := mkRejoin {
  rejoin_playerId : option string;
  didRejoin : bool
}.

(** What a call leaves behind: its value or the error thrown, the browser's
    [localStorage], the store and the connection fields. *)
Inductive Rejoined : Type :=
| Returned (v : Rejoin) (ls : LocalStorage) (s : Store) (cs : Connections)
| Failed (e : Error) (ls : LocalStorage) (s : Store) (cs : Connections).

(** [autoRejoinIfNeeded].  [i] is the id Firestore generates should a
    document be added and [clkAdd] the clock read for that document; [clk]
    is the clock read by [setPlayerConnection]. *)
Definition autoRejoinIfNeeded (i : string) (clkAdd clk : Clock)
           (code nicknameFallback : string)
           (ls : LocalStorage) (s : Store) (cs : Connections) : Rejoined :=
  let storedPlayerId := getItem ("playerId_" ++ code) ls in
  if negb (truthy storedPlayerId) then Returned (mkRejoin None false) ls s cs
  else
    match storedPlayerId with
    | None => Returned (mkRejoin None false) ls s cs
    | Some stored =>
        if ensurePlayerExists stored s then
          match setPlayerConnection clk stored true s cs with
          | Wrote cs1 => Returned (mkRejoin (Some stored) false) ls s cs1
          | Refused e cs1 => Failed e ls s cs1
          end
        else
          let nick :=
            match getItem ("nickname_" ++ code) ls with
            | Some n => if n =? "" then nicknameFallback else n
            | None => nicknameFallback
            end in
          let s1 := mkStore (room s) (players s ++ [newPlayer i nick]) in
          let cs1 := setEntry i (mkConnection true (nowMs clkAdd) None) cs in
          let ls1 := setItem ("playerId_" ++ code) i ls in
          match setPlayerConnection clk i true s1 cs1 with
          | Wrote cs2 => Returned (mkRejoin (Some i) true) ls1 s1 cs2
          | Refused e cs2 => Failed e ls1 s1 cs2
          end
    end.

End LobbyService.

(** ** The chat, [roomService.ts] *)

Module ChatService.

(** A chat text, as the list of its UTF-16 code units. *)
Definition Text : Type := list N.

(** The code units [String.prototype.trim] removes: the white space and
    line terminators of ECMAScript, all of them in the basic plane. *)
Definition isWhiteSpace (c : N) : bool :=
  ((9 <=? c) && (c <=? 13)
   || (c =? 32) || (c =? 160) || (c =? 5760)
   || (8192 <=? c) && (c <=? 8202)
   || (c =? 8232) || (c =? 8233) || (c =? 8239) || (c =? 8287)
   || (c =? 12288) || (c =? 65279))%N.

Fixpoint trimStart (t : Text) : Text :=
  match t with
  | [] => []
  | c :: t' => if isWhiteSpace c then trimStart t' else t
  end.

Definition trimEnd (t : Text) : Text := rev (trimStart (rev t)).

(** [text.trim()]. *)
Definition trim (t : Text) : Text := trimEnd (trimStart t).

(** [scope]: "lobby" | "public" | "mafia". *)
Inductive Scope : Type :=
| sc_lobby | sc_public | sc_mafia.

(** A document of the [messages] sub-collection, without its creation
    times. *)
Record Message : Type := mkMessage {
  senderId : string;
  senderNick : string;
  text : Text;
  scope : Scope
}.

(** [sendMessage], on the messages in [createdAt] order. *)
Definition sendMessage (senderId senderNick : string) (text : Text) (scope : Scope)
           (msgs : list Message) : list Message :=
  let clean := trim text in
  match clean with
  | [] => msgs
  | _ :: _ => msgs ++ [mkMessage senderId senderNick (firstn 300 clean) scope]
  end.

End ChatService.

(** ** The page of a room, [Room.tsx] *)

Module Page.

Import RoomService ChatService.

(** What the handlers of one tab read besides the clock: the client state
    of [Host] and the last [players] snapshot.  The tab has found its room,
    so [roomId] is set. *)
Record Tab : Type := mkTab {
  client : Host.Client;
  roster : list Player
}.

(** A tab of the player [i] whose snapshots are those of the store. *)
Definition freshTab (i : string) (s : Store) : Tab :=
  mkTab (Host.freshClient i s) (players s).

(** [me]. *)
Definition me (t : Tab) : option Player :=
  if truthy (Host.playerId (client t)) then
    match Host.playerId (client t) with
    | Some i => find (fun p => pid p =? i) (roster t)
    | None => None
    end
  else None.

(** [allReady]. *)
Definition allReady (t : Tab) : bool :=
  if (length (roster t) =? 0)%nat then false else forallb isReady (roster t).

(** [room?.status === st]. *)
Definition statusIs (st : Status) (t : Tab) : bool :=
  match Host.snapshot (client t) with
  | Some r => Status_eqb (status r) st
  | None => false
  end.

(** [isMafiaPlayer]. *)
Definition isMafiaPlayer (t : Tab) : bool :=
  match me t with
  | Some m => isMafiaRole (role m)
  | None => false
  end.

(** [toggleReady]. *)
Definition toggleReady (t : Tab) (s : Store) : Res :=
  match Host.playerId (client t), me t with
  | Some i, Some m => LobbyService.updatePlayer i (Some (negb (isReady m))) s
  | _, _ => Ok s
  end.

(** The [disabled] attribute of the Ready button, and a click on it. *)
Definition readyDisabled (t : Tab) : bool :=
  match me t with
  | Some _ => statusIs st_playing t || statusIs st_ended t
  | None => true
  end.

Definition clickReady (t : Tab) (s : Store) : Res :=
  if readyDisabled t then Ok s else toggleReady t s.

(** [onStartGame]: the error of [startGame] is caught and shown; on success
    the lock of the auto-advance is cleared. *)
Definition onStartGame (clk : Clock) (rndRoles rndPlayers : Rand) (t : Tab) (s : Store)
  : Tab * Store :=
  if negb (allReady t) then (t, s)
  else
    match startGame clk rndRoles rndPlayers None s with
    | Ok s' =>
        (mkTab (Host.mkClient (Host.playerId (client t)) (Host.snapshot (client t)) None)
               (roster t), s')
    | Throw _ s' => (t, s')
    end.

(** The Start button is rendered for the host; its [disabled] attribute,
    and a click on it. *)
Definition startDisabled (t : Tab) : bool :=
  negb (allReady t) || statusIs st_playing t || statusIs st_ended t.

Definition clickStart (clk : Clock) (rndRoles rndPlayers : Rand) (t : Tab) (s : Store)
  : Tab * Store :=
  if Host.isHost (client t) && negb (startDisabled t)
  then onStartGame clk rndRoles rndPlayers t s
  else (t, s).

(** [Math.ceil(a / b)] for integers [a] and [b > 0]. *)
Definition ceilDiv (a b : Z) : Z := (- ((- a) / b))%Z.

(** [timeLeftSec]; [now] is the tab's [nowMs] state. *)
Definition timeLeftSec (t : Tab) (now : Z) : option Z :=
  match Host.snapshot (client t) with
  | None => None
  | Some r =>
      match phaseEndsAtMs r with
      | None => None
      | Some ends =>
          if (ends =? 0)%Z || Phase_eqb (phase r) ph_ended
             || negb (Status_eqb (status r) st_playing)
          then None
          else Some (ceilDiv (ends - now) 1000)
      end
  end.

(** [Math.max(10, Math.min(300, Number(x || dflt)))] for a whole number
    [x]; like 0, a [NaN] is falsy and gives the default. *)
Definition clampSec (x dflt : Z) : Z :=
  Z.max 10 (Z.min 300 (if (x =? 0)%Z then dflt else x)).

(** [onSaveSettings] with the three inputs of the form; an error of
    [updateRoomSettings] is caught and shown. *)
Definition onSaveSettings (nightSecInput daySecInput voteSecInput : Z)
           (t : Tab) (s : Store) : Store :=
  if negb (Host.isHost (client t)) then s
  else
    let n := clampSec nightSecInput 60 in
    let d := clampSec daySecInput 60 in
    let v := clampSec voteSecInput 45 in
    storeOf (LobbyService.updateRoomSettings (mkSettings (Some n) (Some d) (Some v)) s).

(** [visibleMsgs]. *)
Definition visibleMsgs (t : Tab) (msgs : list Message) : list Message :=
  match Host.snapshot (client t) with
  | None => []
  | Some r =>
      filter (fun m =>
                match scope m with
                | sc_mafia => isMafiaPlayer t
                | sc_lobby =>
                    Status_eqb (status r) st_lobby || Phase_eqb (phase r) ph_lobby
                | sc_public => true
                end) msgs
  end.

(** [onSendChat] with the text and the scope chosen in the form. *)
Definition onSendChat (chatText : Text) (chatScope : Scope) (t : Tab)
           (msgs : list Message) : list Message :=
  match me t with
  | None => msgs
  | Some m =>
      if pid m =? "" then msgs
      else
        let text := trim chatText in
        match text with
        | [] => msgs
        | _ :: _ =>
            let scopeToSend :=
              match chatScope with
              | sc_mafia => if negb (isMafiaPlayer t) then sc_public else chatScope
              | _ => chatScope
              end in
            sendMessage (pid m) (if nickname m =? "" then "Player" else nickname m)
                        text scopeToSend msgs
        end
  end.

(** [room?.phase === ph]. *)
Definition phaseIs (ph : Phase) (t : Tab) : bool :=
  match Host.snapshot (client t) with
  | Some r => Phase_eqb (phase r) ph
  | None => false
  end.

(** [isDoctor] and [isKomissar]. *)
Definition isDoctor (t : Tab) : bool :=
  match me t with
  | Some m => if Role_eq_dec (role m) doctor then true else false
  | None => false
  end.

Definition isKomissar (t : Tab) : bool :=
  match me t with
  | Some m => if Role_eq_dec (role m) komissar then true else false
  | None => false
  end.

(** [onSubmitNight] with the [targetId] state of the tab; an error of
    [submitNightAction] is caught and shown. *)
Definition onSubmitNight (clk : Clock) (targetId : string) (t : Tab) (s : Store) : Store :=
  match me t with
  | None => s
  | Some m =>
      if pid m =? "" then s
      else if targetId =? "" then s
      else if nightSubmitted m then s
      else
        let roleToSend :=
          if isMafiaPlayer t
          then (if Role_eq_dec (role m) don then don else mafia)
          else if isDoctor t then doctor else komissar in
        storeOf (submitNightAction clk roleToSend (pid m) targetId s)
  end.

(** The night panel offers the action to the three night roles; its Submit
    button is disabled once [me.nightSubmitted] holds. *)
Definition nightAction (t : Tab) : bool :=
  statusIs st_playing t && phaseIs ph_night t
  && (isMafiaPlayer t || isDoctor t || isKomissar t).

Definition clickSubmitNight (clk : Clock) (targetId : string) (t : Tab) (s : Store) : Store :=
  match me t with
  | Some m =>
      if nightAction t && negb (nightSubmitted m)
      then onSubmitNight clk targetId t s
      else s
  | None => s
  end.

(** [onSubmitVote]. *)
Definition onSubmitVote (clk : Clock) (targetId : string) (t : Tab) (s : Store) : Store :=
  match me t with
  | None => s
  | Some m =>
      if pid m =? "" then s
      else if targetId =? "" then s
      else if voteSubmitted m then s
      else storeOf (submitVote clk (pid m) targetId s)
  end.

(** The vote panel offers the ballot to the living; its Submit button is
    disabled once [me.voteSubmitted] holds. *)
Definition voteAction (t : Tab) : bool :=
  statusIs st_playing t && phaseIs ph_vote t
  && match me t with
     | Some m => isAlive m
     | None => false
     end.

Definition clickSubmitVote (clk : Clock) (targetId : string) (t : Tab) (s : Store) : Store :=
  match me t with
  | Some m =>
      if voteAction t && negb (voteSubmitted m)
      then onSubmitVote clk targetId t s
      else s
  | None => s
  end.

End Page.

(** ** Further notions and sample rooms *)

(** A batched write that updates a player document. *)
Definition playerWrite (w : BatchWrite) : Prop :=
  match w with
  | PlayerUpdate _ _ => True
  | RoomUpdate _ => False
  end.

(** The write of [submitNightAction] on the room document, by the role the
    caller passes. *)
Definition nightWrite (clk : Clock) (x : Role) (actor target : string) (r : Room) : Room :=
  match x with
  | mafia | don =>
      RoomService.withNight (RoomService.setKill target actor (serverTs clk)) r
  | doctor =>
      RoomService.withNight (RoomService.setSave target actor (serverTs clk)) r
  | komissar =>
      RoomService.withNight (RoomService.setCheck target actor (serverTs clk)) r
  | _ => r
  end.

(** What the resolutions look at in a player document. *)
Definition standing (p : Player) : string * Role * bool := (pid p, role p, isAlive p).

(** [p'] is a later state of the document [p] in which the player has the
    same id and role and has not come back to life. *)
Definition survives (p p' : Player) : Prop :=
  pid p' = pid p /\ role p' = role p /\ (isAlive p' = true -> isAlive p = true).

(** A batched write that moves the player document it updates along the
    relation [R]. *)
Definition stepsPlayer (R : Player -> Player -> Prop) (w : BatchWrite) : Prop :=
  match w with
  | PlayerUpdate _ f => forall p, R p (f p)
  | RoomUpdate _ => True
  end.

(** Every update the service applies to a player document outside
    [startGame] moves it along [R]. *)
Definition playerSteps (R : Player -> Player -> Prop) : Prop :=
  (forall p, R p (setAlive false p))
  /\ (forall b p, R p (setNightSubmitted b p))
  /\ (forall b p, R p (setVoteSubmitted b p))
  /\ (forall c p, R p (setLastCheckResult c p)).

(** A batched write that moves the room document along the relation [R]. *)
Definition stepsRoom (R : Room -> Room -> Prop) (w : BatchWrite) : Prop :=
  match w with
  | PlayerUpdate _ _ => True
  | RoomUpdate f => forall r, R r (f r)
  end.

(** Every update the service applies to a room document moves it along
    [R]. *)
Definition roomSteps (R : Room -> Room -> Prop) : Prop :=
  (forall e r, R r (RoomService.startRoom e r))
  /\ (forall f r, R r (RoomService.withNight f r))
  /\ (forall v t ts r, R r (RoomService.withVote (RoomService.setVoteOf v t ts) r))
  /\ (forall c w d k sv r, R r (RoomService.nightRoomUpdate c w d k sv r))
  /\ (forall c d r, R r (RoomService.voteRoomUpdate c d r))
  /\ (forall c w d e r, R r (RoomService.voteResolveUpdate c w d e r)).

(** [o] is a call of [startGame]. *)
Definition startsGame (o : Game.Op) : bool :=
  match o with
  | Game.OpStartGame _ _ _ => true
  | _ => false
  end.

(** What no operation of the service writes on a room document. *)
Definition identity (r : Room) : string * string * option string * Settings :=
  (code r, ownerNickname r, ownerPlayerId r, settings r).

(** No voter has two ballots in the room. *)
Definition oneBallotEach (r : Room) : Prop :=
  NoDup (map fst (votes (vote r))).

(** A room in phase "ended" has status "ended", no deadline and a winner. *)
Definition endedForGood (r : Room) : Prop :=
  phase r = ph_ended ->
  status r = st_ended /\ phaseEndsAtMs r = None /\ winner r <> None.

(** What a resolution decides about the room. *)
Definition verdict (r : Room)
  : Status * Phase * nat * option Z * option Winner * option string * option string :=
  (status r, phase r, dayNumber r, phaseEndsAtMs r, winner r,
   lastKilledPlayerId (night r), lastSavedPlayerId (night r)).

(** What can happen to a room through the page and the service: a click on
    the Ready button or on the Start button in a tab of player [i] that
    holds the current snapshots, and a call of the service. *)
Inductive Event : Type :=
| EvReady (i : string)
| EvStart (i : string) (clk : Clock) (rndRoles rndPlayers : Rand)
| EvCall (clk : Clock) (o : Game.Op).

Definition happen (s : Store) (e : Event) : Store :=
  match e with
  | EvReady i => storeOf (Page.clickReady (Page.freshTab i s) s)
  | EvStart i clk rr rp => snd (Page.clickStart clk rr rp (Page.freshTab i s) s)
  | EvCall clk o => storeOf (Game.run clk o s)
  end.

Definition session (es : list Event) (s : Store) : Store := fold_left happen es s.

(** The event is not a direct call of [startGame]. *)
Definition throughPage (e : Event) : Prop :=
  match e with
  | EvCall _ o => startsGame o = false
  | _ => True
  end.

(** A room that has left the lobby and in which nobody is ready. *)
Definition underWay (s : Store) : Prop :=
  (exists r, room s = Some r /\ status r <> st_lobby)
  /\ players s <> []
  /\ (forall p, In p (players s) -> isReady p = false).

(** The phase that follows [ph] in the cycle of a running game, and the
    duration the host gives to a phase. *)
Definition nextPhase (ph : Phase) : Phase :=
  match ph with
  | ph_night => ph_day
  | ph_day => ph_vote
  | ph_vote => ph_night
  | _ => ph
  end.

Definition durationOf (dur : Host.Durations) (ph : Phase) : Z :=
  match ph with
  | ph_night => Host.NIGHT_SEC dur
  | ph_day => Host.DAY_SEC dur
  | ph_vote => Host.VOTE_SEC dur
  | _ => 0%Z
  end.

Module Scenes.

Import RoomService Game Host.

(** Three players in the lobby: one too few. *)
Definition lobby3 : Store :=
  joinRoom "p3" "Chris" (joinRoom "p2" "Bo" (createRoom "123456" "p1" "Alex")).

(** The room of [Sample.voteAfterKillCast] once its vote is resolved: [p2]
    is out, [p1] (mafia) and [p3] (doctor) are left, the mafia wins. *)
Definition mafiaWon4 : Store :=
  runAll [(Sample.clk 166000, OpResolveVote None)] Sample.voteAfterKillCast.

(** After the start: the host clicks Start again, a player clicks Ready,
    the night is resolved and a vote is started. *)
Definition afterStart : list Event :=
  [EvStart "p1" (Sample.clk 5000) Sample.rnd0 Sample.rnd0;
   EvReady "p2";
   EvCall (Sample.clk 61000) (OpResolveNight None);
   EvStart "p1" (Sample.clk 62000) Sample.rnd0 Sample.rnd0;
   EvCall (Sample.clk 121000) (OpStartVote None)].

(** The page of the owner [p1] during the first night of [Sample.night4]. *)
Definition ownerPage : Page.Tab := Page.freshTab "p1" Sample.night4.

(** The page of [p2], the komissar of [Sample.night4]. *)
Definition komissarPage : Page.Tab := Page.freshTab "p2" Sample.night4.

(** Nine players; in the first night nobody acts, on the first day the
    mafia [q1] is voted out by [q5], [q6] and [q7], and the second night
    begins while the other mafia-side players live on. *)
Definition secondNight9 : Store :=
  runAll [(Sample.clk 61000, OpResolveNight None);
          (Sample.clk 121000, OpStartVote None);
          (Sample.clk 122000, OpSubmitVote "q5" "q1");
          (Sample.clk 123000, OpSubmitVote "q6" "q1");
          (Sample.clk 124000, OpSubmitVote "q7" "q1");
          (Sample.clk 166000, OpResolveVote None)] Sample.started9.

(** Four players in the lobby, the fourth with the document id
    [propertyIsEnumerable]: twenty letters, as the ids Firestore generates. *)
Definition lobbyInherited : Store :=
  joinRoom "propertyIsEnumerable" "Dana"
    (joinRoom "p3" "Chris" (joinRoom "p2" "Bo" (createRoom "123456" "p1" "Alex"))).

(** The ballots of the other three, all for the fourth. *)
Definition ballotsOnInherited : list (string * string) :=
  [("p1", "propertyIsEnumerable"); ("p2", "propertyIsEnumerable");
   ("p3", "propertyIsEnumerable")].

(** The game of these four: started, the first night resolved without a
    victim, the vote started and the three ballots cast. *)
Definition voteOnInherited : Store :=
  runAll [(Sample.clk 1000, OpStartGame Sample.rnd0 Sample.rnd0 None);
          (Sample.clk 61000, OpResolveNight None);
          (Sample.clk 121000, OpStartVote None);
          (Sample.clk 122000, OpSubmitVote "p1" "propertyIsEnumerable");
          (Sample.clk 123000, OpSubmitVote "p2" "propertyIsEnumerable");
          (Sample.clk 124000, OpSubmitVote "p3" "propertyIsEnumerable")]
         lobbyInherited.

(** A tab of the owner [p1] that has just received the room of
    [Sample.voteAfterKillCast]; the store after that tab's tick at 166000,
    when the vote has just expired, and the store after a further tick at
    166500 of a second tab of the owner that holds the same snapshot and a
    lock of its own. *)
Definition voteTab : Host.Client := freshClient "p1" Sample.voteAfterKillCast.

Definition voteTickedOnce : Store :=
  snd (tick (Sample.clk 166000) fixedDurations voteTab Sample.voteAfterKillCast).

Definition voteTickedTwice : Store :=
  snd (tick (Sample.clk 166500) fixedDurations voteTab voteTickedOnce).

End Scenes.

(* ================================================================== *)
(** * Part II: properties                                              *)
(* ================================================================== *)

(** ** Lists and strings *)

Lemma eqb_neq_sym (a b : string) : (a =? b) = (b =? a).
Proof. apply String.eqb_sym. Qed.

Section SetNth.
Context {T : Type}.

Lemma setNth_length (i : nat) (x : T) (a : list T) :
  length (RoomService.setNth i x a) = length a.
Proof.
  revert i; induction a as [|h t IH]; intros [|i]; simpl; auto.
Qed.

Lemma nth_error_setNth_same (i : nat) (x : T) (a : list T) :
  i < length a -> nth_error (RoomService.setNth i x a) i = Some x.
Proof.
  revert i; induction a as [|h t IH]; intros [|i] Hi; simpl in *; try lia; auto.
  apply IH; lia.
Qed.

Lemma nth_error_setNth_other (i j : nat) (x : T) (a : list T) :
  i <> j -> nth_error (RoomService.setNth i x a) j = nth_error a j.
Proof.
  revert i j; induction a as [|h t IH]; intros [|i] [|j] Hij; simpl; auto.
  congruence.
Qed.

(** Overwriting position [i], which held [x], with [y] trades one [x]
    for one [y]. *)
Lemma setNth_trade (i : nat) (x y : T) (a : list T) :
  nth_error a i = Some x ->
  Permutation (x :: RoomService.setNth i y a) (y :: a).
Proof.
  revert i; induction a as [|h t IH]; intros [|i] Hx; simpl in *; try discriminate.
  - injection Hx as ->. apply perm_swap.
  - apply IH in Hx.
    rewrite perm_swap. rewrite Hx. apply perm_swap.
Qed.

Lemma swap_Permutation (a : list T) (i j : nat) :
  Permutation (RoomService.swap a i j) a.
Proof.
  unfold RoomService.swap.
  destruct (nth_error a i) as [x|] eqn:Hi; [|reflexivity].
  destruct (nth_error a j) as [y|] eqn:Hj; [|reflexivity].
  assert (Hlen : i < length a) by (apply nth_error_Some; congruence).
  assert (Hj' : nth_error (RoomService.setNth i y a) j = Some y).
  { destruct (Nat.eq_dec i j) as [<-|Hne].
    - now apply nth_error_setNth_same.
    - now rewrite nth_error_setNth_other. }
  apply (Permutation_cons_inv (a := y)).
  rewrite (@setNth_trade j y x _ Hj').
  now apply setNth_trade.
Qed.

Lemma shuffleFrom_Permutation (rnd : Rand) (i : nat) (a : list T) :
  Permutation (RoomService.shuffleFrom rnd i a) a.
Proof.
  revert a; induction i as [|i IH]; intros a; simpl; [reflexivity|].
  rewrite IH. apply swap_Permutation.
Qed.

(** [shuffle] returns a rearrangement of its argument. *)
Lemma shuffle_Permutation (rnd : Rand) (a : list T) :
  Permutation (RoomService.shuffle rnd a) a.
Proof. apply shuffleFrom_Permutation. Qed.

Lemma shuffle_length (rnd : Rand) (a : list T) :
  length (RoomService.shuffle rnd a) = length a.
Proof. apply Permutation_length, shuffle_Permutation. Qed.
End SetNth.

(** ** Role assignment *)

Lemma pushMafia_repeat (n : nat) (roles : list Role) :
  RoomService.pushMafia n roles = roles ++ repeat mafia n.
Proof.
  revert roles; induction n as [|n IH]; intros roles; simpl.
  - now rewrite app_nil_r.
  - rewrite IH, <- app_assoc. reflexivity.
Qed.

(** The [while] loop stops on its own before the fuel runs out, having
    added exactly the missing citizens. *)
Lemma pushCitizens_repeat (fuel count : nat) (roles : list Role) :
  count - length roles <= fuel ->
  RoomService.pushCitizens fuel count roles
  = roles ++ repeat citizen (count - length roles).
Proof.
  revert roles; induction fuel as [|fuel IH]; intros roles Hfuel; simpl.
  - replace (count - length roles) with 0 by lia. now rewrite app_nil_r.
  - destruct (length roles <? count)%nat eqn:Hlt.
    + apply Nat.ltb_lt in Hlt.
      rewrite IH by (rewrite length_app; simpl; lia).
      rewrite length_app; simpl.
      replace (count - length roles) with (S (count - (length roles + 1))) by lia.
      simpl. rewrite <- app_assoc. reflexivity.
    + apply Nat.ltb_ge in Hlt.
      replace (count - length roles) with 0 by lia. now rewrite app_nil_r.
Qed.

Lemma mafiaCountFor_spec (n : nat) :
  RoomService.mafiaCountFor n = Spec.mafiaCount n.
Proof.
  unfold RoomService.mafiaCountFor, Spec.mafiaCount.
  destruct (9 <=? n)%nat eqn:H9, (6 <=? n)%nat eqn:H6,
           (n <? 6)%nat eqn:L6, (n <? 9)%nat eqn:L9;
    try reflexivity;
    repeat match goal with
           | H : (_ <=? _)%nat = true |- _ => apply Nat.leb_le in H
           | H : (_ <=? _)%nat = false |- _ => apply Nat.leb_gt in H
           | H : (_ <? _)%nat = true |- _ => apply Nat.ltb_lt in H
           | H : (_ <? _)%nat = false |- _ => apply Nat.ltb_ge in H
           end; lia.
Qed.

(** The role list before the shuffle, in closed form. *)
Lemma rolesFor_closed (n : nat) :
  RoomService.rolesFor n
  = repeat mafia (Spec.mafiaCount n) ++ repeat don (Spec.donCount n)
    ++ [komissar; doctor]
    ++ repeat citizen (n - (Spec.mafiaCount n + Spec.donCount n + 2)).
Proof.
  unfold RoomService.rolesFor.
  rewrite pushMafia_repeat, mafiaCountFor_spec.
  cbn [app].
  set (m := Spec.mafiaCount n).
  assert (Hpre : (if (9 <=? n)%nat then repeat mafia m ++ [don] else repeat mafia m)
                 = repeat mafia m ++ repeat don (Spec.donCount n)).
  { unfold Spec.donCount. destruct (9 <=? n)%nat; cbn [repeat]; [reflexivity|].
    now rewrite app_nil_r. }
  rewrite Hpre.
  rewrite pushCitizens_repeat by lia.
  repeat rewrite length_app. repeat rewrite repeat_length. cbn [length].
  repeat rewrite <- app_assoc. cbn [app].
  do 5 f_equal. lia.
Qed.

Lemma countRole_repeat (r r' : Role) (n : nat) :
  Spec.countRole r (repeat r' n) = if Role_eq_dec r' r then n else 0.
Proof.
  unfold Spec.countRole.
  induction n as [|n IH]; simpl.
  - now destruct (Role_eq_dec r' r).
  - destruct (Role_eq_dec r' r); simpl; lia.
Qed.

Lemma countRole_app (r : Role) (l1 l2 : list Role) :
  Spec.countRole r (l1 ++ l2) = Spec.countRole r l1 + Spec.countRole r l2.
Proof. apply count_occ_app. Qed.

Lemma countRole_buildRoles (rnd : Rand) (n : nat) (r : Role) :
  Spec.countRole r (RoomService.buildRoles rnd n)
  = Spec.countRole r (RoomService.rolesFor n).
Proof.
  unfold Spec.countRole, RoomService.buildRoles.
  apply Permutation_count_occ, shuffle_Permutation.
Qed.

Lemma mafiaCount_bounds (n : nat) :
  4 <= n -> Spec.mafiaCount n + Spec.donCount n + 2 <= n.
Proof.
  unfold Spec.mafiaCount, Spec.donCount. intros Hn.
  destruct (n <? 6)%nat eqn:L6, (n <? 9)%nat eqn:L9, (9 <=? n)%nat eqn:H9;
    repeat match goal with
           | H : (_ <=? _)%nat = true |- _ => apply Nat.leb_le in H
           | H : (_ <=? _)%nat = false |- _ => apply Nat.leb_gt in H
           | H : (_ <? _)%nat = true |- _ => apply Nat.ltb_lt in H
           | H : (_ <? _)%nat = false |- _ => apply Nat.ltb_ge in H
           end; lia.
Qed.

Lemma buildRoles_length (rnd : Rand) (n : nat) :
  3 <= n -> length (RoomService.buildRoles rnd n) = n.
Proof.
  intros Hn. unfold RoomService.buildRoles.
  rewrite shuffle_length, rolesFor_closed.
  repeat rewrite length_app. repeat rewrite repeat_length. simpl.
  unfold Spec.mafiaCount, Spec.donCount.
  destruct (n <? 6)%nat eqn:L6, (n <? 9)%nat eqn:L9, (9 <=? n)%nat eqn:H9;
    repeat match goal with
           | H : (_ <=? _)%nat = true |- _ => apply Nat.leb_le in H
           | H : (_ <=? _)%nat = false |- _ => apply Nat.leb_gt in H
           | H : (_ <? _)%nat = true |- _ => apply Nat.ltb_lt in H
           | H : (_ <? _)%nat = false |- _ => apply Nat.ltb_ge in H
           end; lia.
Qed.

(** C4.  For every player count [n >= 4], [buildRoles] returns exactly [n]
    roles: [mafiaCount n] mafia (1 below 6 players, 2 below 9, 3 from 9 on),
    one don exactly from 9 players on, one komissar, one doctor, and
    citizens in all remaining slots. *)
Theorem buildRoles_counts (rnd : Rand) (n : nat) :
  4 <= n ->
  let roles := RoomService.buildRoles rnd n in
  length roles = n
  /\ Spec.countRole mafia roles = Spec.mafiaCount n
  /\ Spec.countRole don roles = Spec.donCount n
  /\ Spec.countRole komissar roles = 1
  /\ Spec.countRole doctor roles = 1
  /\ Spec.mafiaCount n + Spec.donCount n + 2 <= n
  /\ Spec.countRole citizen roles = n - (Spec.mafiaCount n + Spec.donCount n + 2)
  /\ Spec.countRole unknown roles = 0.
Proof.
  intros Hn roles. subst roles.
  split; [apply buildRoles_length; lia|].
  pose proof (mafiaCount_bounds n Hn) as Hb.
  repeat rewrite countRole_buildRoles.
  rewrite rolesFor_closed.
  repeat rewrite countRole_app. repeat rewrite countRole_repeat.
  unfold Spec.countRole. simpl.
  repeat split; lia.
Qed.

Lemma buildRoles_counts_witness :
  4 <= 7 /\
  length (RoomService.buildRoles Sample.rnd0 7) = 7
  /\ Spec.countRole mafia (RoomService.buildRoles Sample.rnd0 7) = 2
  /\ Spec.countRole don (RoomService.buildRoles Sample.rnd0 7) = 0
  /\ Spec.countRole citizen (RoomService.buildRoles Sample.rnd0 7) = 3.
Proof.
  assert (H : 4 <= 7) by lia.
  split; [exact H|].
  destruct (buildRoles_counts Sample.rnd0 7 H) as (Hl & Hm & Hd & _ & _ & _ & Hc & _).
  repeat split; assumption.
Defined.

(** ** Firestore writes *)

Lemma store_eta (s : Store) : mkStore (room s) (players s) = s.
Proof. now destruct s. Qed.

Lemma hasPlayer_In (i : string) (ps : list Player) :
  hasPlayer i ps = true <-> exists p, In p ps /\ pid p = i.
Proof.
  unfold hasPlayer. rewrite existsb_exists.
  split; intros (p & Hin & Hp); exists p; split; auto.
  - now apply String.eqb_eq.
  - now apply String.eqb_eq.
Qed.

Lemma updatePlayers_pid (i : string) (f : Player -> Player) (ps : list Player) :
  (forall p, pid (f p) = pid p) ->
  map pid (updatePlayers i f ps) = map pid ps.
Proof.
  intros Hf. unfold updatePlayers. rewrite map_map.
  apply map_ext. intros p. destruct (pid p =? i); auto.
Qed.

Lemma hasPlayer_map_pid (i : string) (ps qs : list Player) :
  map pid ps = map pid qs -> hasPlayer i ps = hasPlayer i qs.
Proof.
  unfold hasPlayer. revert qs.
  induction ps as [|p ps IH]; intros [|q qs] H; simpl in *; try discriminate; auto.
  injection H as Hpq Hrest. rewrite Hpq. f_equal. now apply IH.
Qed.

Lemma hasPlayer_updatePlayers (i j : string) (f : Player -> Player) (ps : list Player) :
  (forall p, pid (f p) = pid p) ->
  hasPlayer i (updatePlayers j f ps) = hasPlayer i ps.
Proof. intros Hf. apply hasPlayer_map_pid. now apply updatePlayers_pid. Qed.

Lemma applyWrites_app (ws1 ws2 : list BatchWrite) (s : Store) :
  applyWrites (ws1 ++ ws2) s
  = match applyWrites ws1 s with
    | Some s' => applyWrites ws2 s'
    | None => None
    end.
Proof.
  revert s; induction ws1 as [|w ws1 IH]; intros s; simpl; [reflexivity|].
  destruct (applyWrite w s); auto.
Qed.

(** A batch of one update [f] per listed player, [f] idempotent and keeping
    the id: every listed document gets [f], the others stay. *)
Lemma applyWrites_each (f : Player -> Player) (l : list Player) (s : Store) :
  (forall p, pid (f p) = pid p) ->
  (forall p, f (f p) = f p) ->
  (forall q, In q l -> hasPlayer (pid q) (players s) = true) ->
  applyWrites (map (fun p => PlayerUpdate (pid p) f) l) s
  = Some (mkStore (room s)
            (map (fun p => if hasPlayer (pid p) l then f p else p) (players s))).
Proof.
  intros Hpid Hidem. revert s.
  induction l as [|q l IH]; intros s Hin; simpl.
  - rewrite map_id. now rewrite store_eta.
  - rewrite (Hin q (or_introl eq_refl)).
    rewrite IH; simpl.
    + f_equal. f_equal. unfold updatePlayers. rewrite map_map.
      apply map_ext. intros p.
      rewrite (eqb_neq_sym (pid q) (pid p)).
      destruct (pid p =? pid q) eqn:E; simpl.
      * rewrite Hpid. rewrite Hidem. now destruct (hasPlayer (pid p) l).
      * reflexivity.
    + intros q' Hq'. rewrite hasPlayer_updatePlayers by assumption.
      apply Hin. now right.
Qed.

Lemma hasPlayer_self (p : Player) (ps : list Player) :
  In p ps -> hasPlayer (pid p) ps = true.
Proof. intros H. apply hasPlayer_In. now exists p. Qed.

(** ** Win evaluation *)

Lemma mafiaAligned_isMafiaRole (r : Role) :
  Spec.mafiaAligned r = RoomService.isMafiaRole r.
Proof. now destruct r. Qed.

Lemma countPlayers_filter (f : Player -> bool) (ps : list Player) :
  length (filter f ps) = Spec.countPlayers f ps.
Proof.
  induction ps as [|p ps IH]; simpl; [reflexivity|].
  destruct (f p); simpl; now rewrite IH.
Qed.

Lemma aliveMafia_filter (ps : list Player) :
  length (filter (fun p => RoomService.isMafiaRole (role p)) (filter isAlive ps))
  = Spec.aliveMafia ps.
Proof.
  unfold Spec.aliveMafia.
  induction ps as [|p ps IH]; simpl; [reflexivity|].
  rewrite mafiaAligned_isMafiaRole.
  destruct (isAlive p); simpl; [|exact IH].
  destruct (RoomService.isMafiaRole (role p)); simpl; now rewrite IH.
Qed.

(** C6.  [calcWinner] returns town when no mafia-aligned player (mafia or
    don) is alive, mafia when the alive mafia-aligned players are at least
    as many as the alive town players (a tie included), and no winner
    otherwise; aliveTown is the alive count minus aliveMafia. *)
Theorem calcWinner_spec (ps : list Player) :
  RoomService.calcWinner ps
  = if (Spec.aliveMafia ps =? 0)%nat then Some w_town
    else if (Spec.aliveTown ps <=? Spec.aliveMafia ps)%nat then Some w_mafia
    else None.
Proof.
  unfold RoomService.calcWinner, Spec.aliveTown.
  now rewrite aliveMafia_filter, countPlayers_filter.
Qed.

(** The three cases of the evaluator, one by one. *)
Corollary calcWinner_cases (ps : list Player) :
  (Spec.aliveMafia ps = 0 -> RoomService.calcWinner ps = Some w_town)
  /\ (0 < Spec.aliveMafia ps -> Spec.aliveTown ps <= Spec.aliveMafia ps ->
      RoomService.calcWinner ps = Some w_mafia)
  /\ (0 < Spec.aliveMafia ps -> Spec.aliveMafia ps < Spec.aliveTown ps ->
      RoomService.calcWinner ps = None).
Proof.
  unfold RoomService.calcWinner.
  rewrite aliveMafia_filter, countPlayers_filter.
  fold (Spec.aliveTown ps).
  repeat split.
  - intros ->. reflexivity.
  - intros Hpos Hle.
    destruct (Spec.aliveMafia ps =? 0)%nat eqn:E; [apply Nat.eqb_eq in E; lia|].
    apply Nat.leb_le in Hle. now rewrite Hle.
  - intros Hpos Hlt.
    destruct (Spec.aliveMafia ps =? 0)%nat eqn:E; [apply Nat.eqb_eq in E; lia|].
    apply Nat.leb_gt in Hlt. now rewrite Hlt.
Qed.

(** ** Start of the game *)

Lemma find_absent (l : list (Player * Role)) (i : string) :
  ~ In i (map (fun pr => pid (fst pr)) l) ->
  find (fun pr : Player * Role => pid (fst pr) =? i) l = None.
Proof.
  induction l as [|pr l IH]; simpl; intros Hin; [reflexivity|].
  destruct (pid (fst pr) =? i) eqn:E.
  - apply String.eqb_eq in E. tauto.
  - apply IH. tauto.
Qed.

Lemma applyWrites_start (l : list (Player * Role)) (s : Store) :
  NoDup (map (fun pr => pid (fst pr)) l) ->
  (forall pr, In pr l -> hasPlayer (pid (fst pr)) (players s) = true) ->
  applyWrites
    (map (fun pr => PlayerUpdate (pid (fst pr)) (RoomService.startPlayer (snd pr))) l) s
  = Some (mkStore (room s) (map (assigned l) (players s))).
Proof.
  revert s. induction l as [|[q r] l IH]; intros s Hnd Hin; simpl.
  - unfold assigned; simpl. rewrite map_id. now rewrite store_eta.
  - inversion Hnd as [|? ? Hnotin Hnd']; subst.
    pose proof (Hin (q, r) (or_introl eq_refl)) as Hq. simpl in Hq. rewrite Hq.
    rewrite IH; simpl; auto.
    + f_equal. f_equal. unfold updatePlayers. rewrite map_map.
      apply map_ext. intros p. unfold assigned. simpl.
      rewrite (eqb_neq_sym (pid q) (pid p)).
      destruct (pid p =? pid q) eqn:E; [|reflexivity].
      apply String.eqb_eq in E. simpl. rewrite E.
      now rewrite find_absent.
    + intros pr Hpr. rewrite hasPlayer_updatePlayers by reflexivity.
      apply Hin. now right.
Qed.

Lemma map_fst_combine {A B : Type} (l1 : list A) (l2 : list B) :
  length l1 = length l2 -> map fst (combine l1 l2) = l1.
Proof.
  revert l2; induction l1 as [|a l1 IH]; intros [|b l2] H; simpl in *;
    try discriminate; auto.
  f_equal. apply IH. lia.
Qed.

Lemma assigned_roles (sh : list Player) (roles : list Role) :
  NoDup (map pid sh) -> length sh = length roles ->
  map (fun p => role (assigned (combine sh roles) p)) sh = roles.
Proof.
  revert roles. induction sh as [|p sh IH]; intros [|r roles] Hnd Hlen;
    simpl in *; try discriminate; auto.
  inversion Hnd as [|? ? Hnotin Hnd']; subst.
  unfold assigned at 1. simpl. rewrite String.eqb_refl. simpl. f_equal.
  transitivity (map (fun p => role (assigned (combine sh roles) p)) sh);
    [|apply IH; auto; lia].
  apply map_ext_in. intros p' Hp'. unfold assigned. simpl.
  destruct (pid p =? pid p') eqn:E; [|reflexivity].
  apply String.eqb_eq in E. exfalso. apply Hnotin. rewrite E.
  now apply in_map.
Qed.

(** With at least four player documents of distinct ids and the room
    document in place, [startGame] commits; every player keeps its
    document and the roles handed out are those of [buildRoles]. *)
Lemma startGame_roles (clk : Clock) (rr rp : Rand) (d : option Z) (s : Store) (r : Room) :
  room s = Some r -> NoDup (map pid (players s)) -> 4 <= length (players s) ->
  exists s',
    RoomService.startGame clk rr rp d s = Ok s'
    /\ map pid (players s') = map pid (players s)
    /\ Permutation (map role (players s'))
                   (RoomService.buildRoles rr (length (players s))).
Proof.
  intros Hroom Hnd Hlen. unfold RoomService.startGame.
  destruct (length (players s) <? 4)%nat eqn:E; [apply Nat.ltb_lt in E; lia|].
  set (roles := RoomService.buildRoles rr (length (players s))).
  set (sh := RoomService.shuffle rp (players s)).
  assert (Hperm : Permutation sh (players s)) by apply shuffle_Permutation.
  assert (Hl : length sh = length roles).
  { unfold roles. rewrite buildRoles_length by lia. apply shuffle_length. }
  assert (Hndsh : NoDup (map pid sh)).
  { eapply Permutation_NoDup; [|exact Hnd].
    apply Permutation_map. now symmetry. }
  unfold commit. rewrite applyWrites_app, applyWrites_start.
  - simpl. rewrite Hroom. eexists. split; [reflexivity|]. simpl. split.
    + rewrite map_map. apply map_ext. intros p. unfold assigned.
      now destruct (find _ _).
    + eapply Permutation_trans;
        [apply Permutation_map, Permutation_map; symmetry; exact Hperm|].
      rewrite map_map, (@assigned_roles sh roles Hndsh Hl). reflexivity.
  - rewrite <- map_map, map_fst_combine by exact Hl. exact Hndsh.
  - intros pr Hpr. destruct pr as [q x]. apply in_combine_l in Hpr. simpl.
    apply hasPlayer_self. eapply Permutation_in; eauto.
Qed.

(** C5, as stated, fails: with nine players the game starts with three
    mafia and three citizens, not two and four. *)
Lemma nine_players_counterexample :
  length (players Sample.lobby9) = 9
  /\ ~ (Spec.rosterCount mafia (players Sample.started9) = 2
        /\ Spec.rosterCount don (players Sample.started9) = 1
        /\ Spec.rosterCount komissar (players Sample.started9) = 1
        /\ Spec.rosterCount doctor (players Sample.started9) = 1
        /\ Spec.rosterCount citizen (players Sample.started9) = 4).
Proof.
  split; [reflexivity|].
  vm_compute. intros (H & _). discriminate H.
Qed.

(** C5, amended.  When a game starts with exactly nine players, the roster
    holds three mafia, one don, one komissar, one doctor and three
    citizens. *)
Theorem nine_players_roles (clk : Clock) (rr rp : Rand) (d : option Z)
        (s : Store) (r : Room) :
  room s = Some r -> NoDup (map pid (players s)) -> length (players s) = 9 ->
  exists s',
    RoomService.startGame clk rr rp d s = Ok s'
    /\ length (players s') = 9
    /\ Spec.rosterCount mafia (players s') = 3
    /\ Spec.rosterCount don (players s') = 1
    /\ Spec.rosterCount komissar (players s') = 1
    /\ Spec.rosterCount doctor (players s') = 1
    /\ Spec.rosterCount citizen (players s') = 3.
Proof.
  intros Hroom Hnd Hlen.
  destruct (@startGame_roles clk rr rp d s r Hroom Hnd) as (s' & Hok & Hpid & Hperm);
    [lia|].
  exists s'. split; [exact Hok|]. split.
  - rewrite <- (length_map pid), Hpid, length_map. exact Hlen.
  - assert (Hc : forall x, Spec.rosterCount x (players s')
                           = Spec.countRole x (RoomService.rolesFor 9)).
    { intros x. unfold Spec.rosterCount. unfold Spec.countRole at 1.
      rewrite (proj1 (Permutation_count_occ Role_eq_dec _ _) Hperm).
      rewrite Hlen. apply countRole_buildRoles. }
    repeat rewrite Hc. repeat split; reflexivity.
Qed.

Lemma nine_players_roles_witness :
  exists s',
    RoomService.startGame (Sample.clk 1000) Sample.rnd0 Sample.rnd0 None Sample.lobby9
    = Ok s'
    /\ length (players s') = 9
    /\ Spec.rosterCount mafia (players s') = 3
    /\ Spec.rosterCount don (players s') = 1
    /\ Spec.rosterCount komissar (players s') = 1
    /\ Spec.rosterCount doctor (players s') = 1
    /\ Spec.rosterCount citizen (players s') = 3.
Proof.
  eapply nine_players_roles.
  - reflexivity.
  - distinct_ids.
  - reflexivity.
Defined.

(** ** Submissions *)

Lemma find_pid (i : string) (ps : list Player) (p : Player) :
  find (fun q => pid q =? i) ps = Some p -> In p ps /\ pid p = i.
Proof.
  intros H. apply find_some in H. destruct H as (Hin & E).
  apply String.eqb_eq in E. now split.
Qed.

Lemma hasPlayer_find (i : string) (ps : list Player) (p : Player) :
  find (fun q => pid q =? i) ps = Some p -> hasPlayer i ps = true.
Proof.
  intros H. apply find_pid in H. apply hasPlayer_In. now exists p.
Qed.

Lemma aliveHas_aliveId (ps : list Player) (i : string) :
  RoomService.aliveHas ps i = Spec.aliveId ps i.
Proof.
  unfold RoomService.aliveHas, Spec.aliveId.
  induction ps as [|p ps IH]; simpl; [reflexivity|].
  destruct (isAlive p); simpl.
  - rewrite IH. now rewrite andb_true_r.
  - rewrite IH. now rewrite andb_false_r.
Qed.

Lemma getEntry_setEntry_same {V : Type} (k : string) (v : V) (m : list (string * V)) :
  RoomService.getEntry k (RoomService.setEntry k v m) = Some v.
Proof.
  induction m as [|[k' v'] m IH]; simpl.
  - now rewrite String.eqb_refl.
  - destruct (k' =? k) eqn:E; simpl.
    + now rewrite String.eqb_refl.
    + now rewrite E.
Qed.

Lemma getEntry_setEntry_other {V : Type} (k k0 : string) (v : V) (m : list (string * V)) :
  k0 <> k ->
  RoomService.getEntry k0 (RoomService.setEntry k v m) = RoomService.getEntry k0 m.
Proof.
  intros Hne. induction m as [|[k' v'] m IH]; simpl.
  - destruct (k =? k0) eqn:E; [apply String.eqb_eq in E; congruence|reflexivity].
  - destruct (k' =? k) eqn:E; simpl.
    + apply String.eqb_eq in E. subst k'.
      destruct (k =? k0) eqn:E'; [apply String.eqb_eq in E'; congruence|reflexivity].
    + destruct (k' =? k0); auto.
Qed.

(** A second night action of the same player is rejected by the current
    service, and the store stays as it is. *)
Lemma submitNightAction_once (clk : Clock) (r : Role) (actor target : string)
      (s : Store) (a : Player) :
  find (fun p => pid p =? actor) (players s) = Some a ->
  nightSubmitted a = true ->
  RoomService.submitNightAction clk r actor target s = Throw ActionAlreadySubmitted s.
Proof.
  intros Hfind Hsub. unfold RoomService.submitNightAction.
  now rewrite Hfind, Hsub.
Qed.

(** A second vote of the same player is rejected by the current service,
    and the store stays as it is. *)
Lemma submitVote_once (clk : Clock) (voter target : string) (s : Store) (v : Player) :
  find (fun p => pid p =? voter) (players s) = Some v ->
  voteSubmitted v = true ->
  RoomService.submitVote clk voter target s = Throw ActionAlreadySubmitted s.
Proof.
  intros Hfind Hsub. unfold RoomService.submitVote.
  now rewrite Hfind, Hsub.
Qed.

(** C10.  [submitVote] checks nothing about who is alive: for an existing
    player whose [voteSubmitted] is false it succeeds, records the vote in
    [vote.votes] and locks the voter, whether or not voter and target are
    alive; a vote with a dead voter or a dead target is dropped only by the
    tally loop of the vote resolution. *)
Theorem submitVote_no_alive_check (clk : Clock) (voter target : string)
        (s : Store) (r : Room) (v : Player) :
  room s = Some r ->
  find (fun p => pid p =? voter) (players s) = Some v ->
  voteSubmitted v = false ->
  exists s' r',
    RoomService.submitVote clk voter target s = Ok s'
    /\ room s' = Some r'
    /\ RoomService.getEntry voter (votes (vote r')) = Some target
    /\ players s' = updatePlayers voter (setVoteSubmitted true) (players s)
    /\ (Spec.aliveId (players s') voter && Spec.aliveId (players s') target = false ->
        forall tally,
          RoomService.tallyStep (players s') tally (voter, target) = tally).
Proof.
  intros Hroom Hfind Hsub. unfold RoomService.submitVote.
  rewrite Hfind, Hsub. unfold updateRoomDoc. rewrite Hroom. simpl.
  unfold updatePlayerDoc. simpl. rewrite (hasPlayer_find _ _ _ Hfind).
  eexists. eexists. split; [reflexivity|]. simpl.
  split; [reflexivity|]. split; [apply getEntry_setEntry_same|].
  split; [reflexivity|].
  intros Hdead tally. unfold RoomService.tallyStep. simpl.
  repeat rewrite aliveHas_aliveId.
  apply andb_false_iff in Hdead. destruct Hdead as [-> | ->]; simpl; auto.
  now destruct (Spec.aliveId _ voter).
Qed.

(** A dead player votes for a dead player: the submission is accepted. *)
Lemma submitVote_no_alive_check_witness :
  Spec.aliveId (players Sample.voteAfterKill) "p4" = false
  /\ exists s' r',
    RoomService.submitVote (Sample.clk 122000) "p4" "p4" Sample.voteAfterKill = Ok s'
    /\ room s' = Some r'
    /\ RoomService.getEntry "p4" (votes (vote r')) = Some "p4"
    /\ players s' = updatePlayers "p4" (setVoteSubmitted true)
                                  (players Sample.voteAfterKill)
    /\ (Spec.aliveId (players s') "p4" && Spec.aliveId (players s') "p4" = false ->
        forall tally,
          RoomService.tallyStep (players s') tally ("p4", "p4") = tally).
Proof.
  split; [vm_compute; reflexivity|].
  eapply submitVote_no_alive_check; vm_compute; reflexivity.
Defined.

(** ** Committing a resolution *)

Lemma setNightSubmitted_pid (b : bool) (p : Player) : pid (setNightSubmitted b p) = pid p.
Proof. reflexivity. Qed.

Lemma setVoteSubmitted_pid (b : bool) (p : Player) : pid (setVoteSubmitted b p) = pid p.
Proof. reflexivity. Qed.

(** The batch of both resolutions: an optional kill, one reset [f] per
    player of the roster [ps0] read at the start, one room update [u]. *)
Lemma commit_resolution (x : option string) (f : Player -> Player) (u : Room -> Room)
      (ps0 : list Player) (s : Store) (r : Room) :
  room s = Some r ->
  map pid (players s) = map pid ps0 ->
  (forall p, pid (f p) = pid p) ->
  (forall p, f (f p) = f p) ->
  victimExists x ps0 = true ->
  commit (match x with
          | Some k => [PlayerUpdate k (setAlive false)]
          | None => []
          end
          ++ map (fun p => PlayerUpdate (pid p) f) ps0
          ++ [RoomUpdate u]) s
  = Ok (mkStore (Some (u r)) (map (afterResolution x f) (players s))).
Proof.
  intros Hroom Hids Hpid Hidem Hvic. unfold commit.
  rewrite applyWrites_app.
  assert (Hkill : applyWrites
                    match x with
                    | Some k => [PlayerUpdate k (setAlive false)]
                    | None => []
                    end s
                  = Some (mkStore (room s)
                            (map (fun p => if RoomService.isId x p
                                           then setAlive false p else p) (players s)))).
  { destruct x as [k|]; simpl.
    - simpl in Hvic. rewrite (hasPlayer_map_pid k _ _ Hids), Hvic. reflexivity.
    - rewrite map_id. now rewrite store_eta. }
  rewrite Hkill. rewrite applyWrites_app.
  rewrite applyWrites_each; auto.
  - simpl. rewrite Hroom. f_equal. f_equal. rewrite map_map.
    apply map_ext_in. intros p Hp. unfold afterResolution.
    assert (Hin : hasPlayer (pid p) ps0 = true).
    { rewrite <- (hasPlayer_map_pid (pid p) _ _ Hids). now apply hasPlayer_self. }
    destruct (RoomService.isId x p); simpl; now rewrite Hin.
  - intros q Hq. simpl.
    erewrite hasPlayer_map_pid; [apply (hasPlayer_self q _ Hq)|].
    rewrite map_map. rewrite <- Hids. apply map_ext. intros p.
    now destruct (RoomService.isId x p).
Qed.

(** Without the victim's document the batch is rejected as a whole. *)
Lemma commit_resolution_throws (x : option string) (ws : list BatchWrite)
      (ps0 : list Player) (s : Store) :
  map pid (players s) = map pid ps0 ->
  victimExists x ps0 = false ->
  commit (match x with
          | Some k => [PlayerUpdate k (setAlive false)]
          | None => []
          end ++ ws) s
  = Throw DocNotFound s.
Proof.
  intros Hids Hvic. destruct x as [k|]; simpl in Hvic; [|discriminate].
  unfold commit. simpl. now rewrite (hasPlayer_map_pid k _ _ Hids), Hvic.
Qed.

(** ** Night resolution *)

Lemma killedOf_spec (n : Night) :
  RoomService.killedOf n = Spec.nightKilled (killTargetId n) (saveTargetId n).
Proof.
  unfold RoomService.killedOf, Spec.nightKilled.
  destruct (killTargetId n) as [k|]; simpl; [|reflexivity].
  destruct (k =? ""); simpl; [reflexivity|].
  destruct (saveTargetId n) as [sv|]; simpl; [|reflexivity].
  rewrite (eqb_neq_sym k sv). now destruct (sv =? k).
Qed.

Lemma checkEffect_pid (clk : Clock) (n : Night) (ps : list Player) (p : Player) :
  pid (checkEffect clk n ps p) = pid p.
Proof.
  unfold checkEffect.
  destruct (truthy (checkTargetId n) && truthy (checkBy n)); [|reflexivity].
  destruct (checkTargetId n); [|reflexivity].
  destruct (checkBy n); [|reflexivity].
  destruct (find _ ps); [|reflexivity].
  now destruct (pid p =? _).
Qed.

Lemma checkEffect_isAlive (clk : Clock) (n : Night) (ps : list Player) (p : Player) :
  isAlive (checkEffect clk n ps p) = isAlive p.
Proof.
  unfold checkEffect.
  destruct (truthy (checkTargetId n) && truthy (checkBy n)); [|reflexivity].
  destruct (checkTargetId n); [|reflexivity].
  destruct (checkBy n); [|reflexivity].
  destruct (find _ ps); [|reflexivity].
  now destruct (pid p =? _).
Qed.

(** The komissar's step, in closed form. *)
Lemma writeCheckResult_eq (clk : Clock) (n : Night) (s : Store) :
  RoomService.writeCheckResult clk n s
  = if checkCommits n (players s)
    then Ok (mkStore (room s) (map (checkEffect clk n (players s)) (players s)))
    else Throw DocNotFound s.
Proof.
  unfold RoomService.writeCheckResult, checkCommits, checkEffect.
  destruct (truthy (checkTargetId n) && truthy (checkBy n));
    [|now rewrite map_id, store_eta].
  destruct (checkTargetId n) as [ct|]; [|now rewrite map_id, store_eta].
  destruct (checkBy n) as [cb|]; [|now rewrite map_id, store_eta].
  destruct (find _ (players s)) as [target|]; [|now rewrite map_id, store_eta].
  unfold updatePlayerDoc. now destruct (hasPlayer cb (players s)).
Qed.

(** [resolveNight], in closed form: it throws without the room, without
    the komissar's document when a check result is due, and without the
    victim's document; otherwise it commits. *)
Lemma resolveNight_eq (clk : Clock) (d : option Z) (s : Store) (r : Room) :
  room s = Some r ->
  let n := night r in
  let ps := players s in
  let killed := RoomService.killedOf n in
  let checked := mkStore (room s) (map (checkEffect clk n ps) ps) in
  RoomService.resolveNight clk d s
  = if checkCommits n ps then
      if victimExists killed ps then
        Ok (mkStore
              (Some (RoomService.nightRoomUpdate clk
                       (RoomService.calcWinner (RoomService.playersAfter killed ps))
                       (orElse d (orElse (daySec (settings r)) 60))
                       killed (saveTargetId n) r))
              (map (fun p => afterResolution killed (setNightSubmitted false)
                                             (checkEffect clk n ps p)) ps))
      else Throw DocNotFound checked
    else Throw DocNotFound s.
Proof.
  intros Hroom n ps killed checked.
  unfold RoomService.resolveNight. rewrite Hroom.
  fold n ps killed. rewrite writeCheckResult_eq. fold ps.
  destruct (checkCommits n ps); [|reflexivity].
  simpl. fold checked.
  assert (Hids : map pid (players checked) = map pid ps).
  { simpl. rewrite map_map. apply map_ext. intros p. apply checkEffect_pid. }
  destruct (victimExists killed ps) eqn:Hvic.
  - rewrite (commit_resolution killed (setNightSubmitted false) _ ps checked r);
      auto.
    simpl. now rewrite map_map.
  - now apply commit_resolution_throws with (ps0 := ps).
Qed.

Lemma afterResolution_isAlive (x : option string) (f : Player -> Player) (p q : Player) :
  (forall p, isAlive (f p) = isAlive p) ->
  pid q = pid p -> isAlive q = isAlive p ->
  isAlive (afterResolution x f q) = Spec.dies x p.
Proof.
  intros Hf Hpid Halive. unfold afterResolution, Spec.dies, RoomService.isId.
  rewrite Hf. destruct x as [i|]; [|exact Halive].
  rewrite Hpid. now destruct (pid p =? i).
Qed.

Lemma nightKilled_other_save (kill : option string) (sv : string) :
  kill <> Some sv ->
  Spec.nightKilled kill (Some sv) = Spec.nightKilled kill None.
Proof.
  intros Hne. unfold Spec.nightKilled.
  destruct kill as [k|]; [|reflexivity].
  destruct (k =? ""); [reflexivity|].
  destruct (sv =? k) eqn:E; [|reflexivity].
  apply String.eqb_eq in E. congruence.
Qed.

(** The outcome of a night does not depend on a save target that is not
    the kill target. *)
Lemma resolveNight_other_save (clk : Clock) (d : option Z) (s : Store) (sv : string) :
  option_map (fun r => killTargetId (night r)) (room s) <> Some (Some sv) ->
  isOk (RoomService.resolveNight clk d (Spec.withSave (Some sv) s))
  = isOk (RoomService.resolveNight clk d (Spec.withSave None s))
  /\ Spec.outcome (storeOf (RoomService.resolveNight clk d (Spec.withSave (Some sv) s)))
     = Spec.outcome (storeOf (RoomService.resolveNight clk d (Spec.withSave None s))).
Proof.
  intros Hne. destruct (room s) as [r|] eqn:Hroom.
  - assert (Hk : killTargetId (night r) <> Some sv) by (simpl in Hne; congruence).
    rewrite (resolveNight_eq clk d (Spec.withSave (Some sv) s)
               (RoomService.withNight _ r))
      by (unfold Spec.withSave; rewrite Hroom; reflexivity).
    rewrite (resolveNight_eq clk d (Spec.withSave None s)
               (RoomService.withNight _ r))
      by (unfold Spec.withSave; rewrite Hroom; reflexivity).
    cbv zeta. repeat rewrite killedOf_spec. simpl.
    rewrite (nightKilled_other_save _ _ Hk).
    set (killed := Spec.nightKilled (killTargetId (night r)) None).
    change (checkCommits _ (players s)) with (checkCommits (night r) (players s)).
    destruct (checkCommits (night r) (players s));
      [|split; [reflexivity|];
        unfold Spec.outcome, Spec.withSave; simpl; rewrite Hroom; reflexivity].
    destruct (victimExists killed (players s));
      [|split; [reflexivity|];
        unfold Spec.outcome, Spec.withSave; simpl; rewrite Hroom; reflexivity].
    split; [reflexivity|].
    unfold Spec.outcome. simpl.
    destruct (RoomService.calcWinner _); reflexivity.
  - unfold RoomService.resolveNight, Spec.withSave. rewrite Hroom. simpl.
    split; reflexivity.
Qed.

(** [resolveNight] commits whenever the room document exists and the kill
    target and the checking player named by the night actions are player
    documents. *)
Lemma resolveNight_commits (clk : Clock) (d : option Z) (s : Store) (r : Room) :
  room s = Some r ->
  (forall k, killTargetId (night r) = Some k -> hasPlayer k (players s) = true) ->
  (forall cb, checkBy (night r) = Some cb -> hasPlayer cb (players s) = true) ->
  isOk (RoomService.resolveNight clk d s) = true.
Proof.
  intros Hroom Hkill Hcheck.
  rewrite (resolveNight_eq clk d s r Hroom). cbv zeta.
  assert (Hc : checkCommits (night r) (players s) = true).
  { unfold checkCommits.
    destruct (truthy (checkTargetId (night r)) && truthy (checkBy (night r)));
      [|reflexivity].
    destruct (checkTargetId (night r)); [|reflexivity].
    destruct (checkBy (night r)) as [cb|] eqn:E; [|reflexivity].
    destruct (find _ (players s)); [|reflexivity]. now apply Hcheck. }
  assert (Hv : victimExists (RoomService.killedOf (night r)) (players s) = true).
  { unfold RoomService.killedOf.
    destruct (truthy (killTargetId (night r)) && _); [|reflexivity].
    destruct (killTargetId (night r)) as [k|] eqn:E; [|reflexivity].
    simpl. now apply Hkill. }
  now rewrite Hc, Hv.
Qed.

(** C2.  Night resolution kills the kill target when one is present (a
    non-empty id) and differs from the save target, and nobody otherwise.
    It commits when the players named by the night actions exist; once
    committed, exactly the documents with the killed id have
    [isAlive = false] (a dead player stays dead) and every other player
    keeps [isAlive]; and a save of any player but the kill target leaves the
    outcome as it is without the save. *)
Theorem night_kill_rule (clk : Clock) (d : option Z) (s : Store) (r : Room) :
  room s = Some r ->
  let killed := Spec.nightKilled (killTargetId (night r)) (saveTargetId (night r)) in
  ((forall k, killTargetId (night r) = Some k -> hasPlayer k (players s) = true) ->
   (forall cb, checkBy (night r) = Some cb -> hasPlayer cb (players s) = true) ->
   isOk (RoomService.resolveNight clk d s) = true)
  /\ (forall s',
        RoomService.resolveNight clk d s = Ok s' ->
        option_map (fun r' => lastKilledPlayerId (night r')) (room s') = Some killed
        /\ map pid (players s') = map pid (players s)
        /\ map isAlive (players s') = map (Spec.dies killed) (players s))
  /\ (forall sv,
        killTargetId (night r) <> Some sv ->
        isOk (RoomService.resolveNight clk d (Spec.withSave (Some sv) s))
        = isOk (RoomService.resolveNight clk d (Spec.withSave None s))
        /\ Spec.outcome (storeOf (RoomService.resolveNight clk d (Spec.withSave (Some sv) s)))
           = Spec.outcome (storeOf (RoomService.resolveNight clk d (Spec.withSave None s)))).
Proof.
  intros Hroom killed.
  split; [now apply resolveNight_commits|].
  split.
  - intros s' Hok.
    rewrite (resolveNight_eq clk d s r Hroom) in Hok. cbv zeta in Hok.
    destruct (checkCommits (night r) (players s)); [|discriminate].
    destruct (victimExists _ (players s)); [|discriminate].
    injection Hok as <-. rewrite killedOf_spec. fold killed. simpl.
    repeat split.
    + now destruct (RoomService.calcWinner _).
    + rewrite map_map. apply map_ext. intros p.
      unfold afterResolution. rewrite setNightSubmitted_pid.
      destruct (RoomService.isId killed _); apply checkEffect_pid.
    + rewrite map_map. apply map_ext. intros p.
      apply afterResolution_isAlive; auto using checkEffect_pid, checkEffect_isAlive.
  - intros sv Hsv. apply resolveNight_other_save. rewrite Hroom. simpl. congruence.
Qed.

(** The mafia's target [p4] dies although the doctor saved [p3]. *)
Lemma night_kill_rule_witness :
  exists s',
    RoomService.resolveNight (Sample.clk 61000) None Sample.savedNight = Ok s'
    /\ option_map (fun r' => lastKilledPlayerId (night r')) (room s') = Some (Some "p4")
    /\ map isAlive (players s') = [true; true; true; false].
Proof.
  destruct (room Sample.savedNight) as [r|] eqn:Hroom;
    [|vm_compute in Hroom; discriminate Hroom].
  destruct (RoomService.resolveNight (Sample.clk 61000) None Sample.savedNight)
    as [s'|e s'] eqn:Hok; [|vm_compute in Hok; discriminate Hok].
  exists s'. split; [reflexivity|].
  destruct (night_kill_rule (Sample.clk 61000) None Sample.savedNight r Hroom)
    as (_ & Hkill & _).
  destruct (Hkill s' Hok) as (Hk & _ & Ha).
  vm_compute in Hroom. injection Hroom as <-.
  vm_compute in Hok. injection Hok as <-.
  split; [exact Hk | exact Ha].
Defined.

(** ** The komissar's result *)

(** In the current service a committed night resolution leaves the room
    document without any check result and touches the private state of no
    player but [checkBy]; when a check was submitted and its target exists,
    [checkBy] finds the target's id and alignment in its private state. *)
Lemma resolveNight_check_private (clk : Clock) (d : option Z) (s s' : Store) (r : Room) :
  room s = Some r ->
  RoomService.resolveNight clk d s = Ok s' ->
  option_map day (room s') = Some emptyDay
  /\ exists g,
      players s' = map g (players s)
      /\ (forall p, checkBy (night r) <> Some (pid p) ->
                    private_lastCheckResult (g p) = private_lastCheckResult p)
      /\ (forall ct cb target p,
             checkTargetId (night r) = Some ct -> checkBy (night r) = Some cb ->
             ct <> "" -> cb <> "" ->
             find (fun q => pid q =? ct) (players s) = Some target ->
             pid p = cb ->
             private_lastCheckResult (g p)
             = Some (mkCheckResult ct (Spec.mafiaAligned (role target))
                                   (Some (nowMs clk)))).
Proof.
  intros Hroom Hok.
  rewrite (resolveNight_eq clk d s r Hroom) in Hok. cbv zeta in Hok.
  destruct (checkCommits (night r) (players s)); [|discriminate].
  destruct (victimExists _ (players s)); [|discriminate].
  injection Hok as <-. simpl. split.
  - now destruct (RoomService.calcWinner _).
  - eexists. split; [reflexivity|]. split.
    + intros p Hne. unfold afterResolution.
      assert (Hc : private_lastCheckResult (checkEffect clk (night r) (players s) p)
                   = private_lastCheckResult p).
      { unfold checkEffect.
        destruct (truthy (checkTargetId (night r)) && truthy (checkBy (night r)));
          [|reflexivity].
        destruct (checkTargetId (night r)); [|reflexivity].
        destruct (checkBy (night r)) as [cb|]; [|reflexivity].
        destruct (find _ (players s)); [|reflexivity].
        destruct (pid p =? cb) eqn:E; [|reflexivity].
        apply String.eqb_eq in E. congruence. }
      now destruct (RoomService.isId _ _).
    + intros ct cb target p Hct Hcb Hne1 Hne2 Hfind Hp.
      unfold afterResolution.
      assert (Hc : private_lastCheckResult (checkEffect clk (night r) (players s) p)
                   = Some (mkCheckResult ct (Spec.mafiaAligned (role target))
                                         (Some (nowMs clk)))).
      { unfold checkEffect. rewrite Hct, Hcb. simpl.
        apply String.eqb_neq in Hne1, Hne2. rewrite Hne1, Hne2. simpl.
        rewrite Hfind. rewrite Hp, String.eqb_refl. simpl.
        now rewrite mafiaAligned_isMafiaRole. }
      now destruct (RoomService.isId _ _).
Qed.

(** C7 fails on the earlier service: its night resolution puts the
    komissar's result ([p1] is mafia) into [day.lastCheckResult] of the room
    document, which every player's listener receives, and into no player's
    private state. *)
Theorem legacy_resolveNight_publishes_check :
  option_map (fun r => (checkTargetId (night r), checkBy (night r)))
             (room Sample.legacyChecked)
  = Some (Some "p1", Some "p2")
  /\ exists s',
      LegacyRoomService.resolveNight (Sample.clk 61000) None Sample.legacyChecked = Ok s'
      /\ option_map (fun r => day_lastCheckResult (day r)) (room s')
         = Some (Some (mkCheckResult "p1" true None))
      /\ map private_lastCheckResult (players s') = [None; None; None; None].
Proof.
  split; [vm_compute; reflexivity|].
  eexists. split; [vm_compute; reflexivity|].
  split; vm_compute; reflexivity.
Qed.

(** ** The tally *)

Section Entries.
Context {V : Type}.

Lemma setEntry_keys (k : string) (v : V) (m : list (string * V)) (x : string) :
  In x (map fst (RoomService.setEntry k v m)) -> x = k \/ In x (map fst m).
Proof.
  induction m as [|[k' v'] m IH]; simpl.
  - intros [H|[]]; auto.
  - destruct (k' =? k) eqn:E; simpl.
    + apply String.eqb_eq in E. subst. tauto.
    + intros [H|H]; auto. apply IH in H. tauto.
Qed.

Lemma setEntry_NoDup (k : string) (v : V) (m : list (string * V)) :
  NoDup (map fst m) -> NoDup (map fst (RoomService.setEntry k v m)).
Proof.
  induction m as [|[k' v'] m IH]; simpl; intros Hnd.
  - constructor; [tauto|constructor].
  - inversion Hnd as [|? ? Hnotin Hnd']; subst.
    destruct (k' =? k) eqn:E; simpl.
    + apply String.eqb_eq in E. subst. now constructor.
    + constructor; [|now apply IH].
      intros Hin. apply setEntry_keys in Hin. destruct Hin as [->|Hin]; auto.
      now rewrite String.eqb_refl in E.
Qed.

Lemma setEntry_In (k : string) (v : V) (m : list (string * V)) (x : string) (w : V) :
  In (x, w) (RoomService.setEntry k v m) -> (x = k /\ w = v) \/ In (x, w) m.
Proof.
  induction m as [|[k' v'] m IH]; simpl.
  - intros [H|[]]. injection H as <- <-. auto.
  - destruct (k' =? k) eqn:E; simpl.
    + intros [H|H]; auto. injection H as <- <-. auto.
    + intros [H|H]; auto. apply IH in H. tauto.
Qed.

Lemma getEntry_In (k : string) (v : V) (m : list (string * V)) :
  RoomService.getEntry k m = Some v -> In (k, v) m.
Proof.
  induction m as [|[k' v'] m IH]; simpl; [discriminate|].
  destruct (k' =? k) eqn:E.
  - apply String.eqb_eq in E. intros H. injection H as <-. subst. auto.
  - auto.
Qed.

Lemma In_getEntry (k : string) (v : V) (m : list (string * V)) :
  NoDup (map fst m) -> In (k, v) m -> RoomService.getEntry k m = Some v.
Proof.
  induction m as [|[k' v'] m IH]; simpl; intros Hnd Hin; [tauto|].
  inversion Hnd as [|? ? Hnotin Hnd']; subst.
  destruct Hin as [H|H].
  - injection H as -> ->. now rewrite String.eqb_refl.
  - destruct (k' =? k) eqn:E; [|auto].
    apply String.eqb_eq in E. subst. exfalso. apply Hnotin.
    change k with (fst (k, v)). now apply in_map.
Qed.
End Entries.

Lemma entryCount_bump (t t' : string) (tally : list (string * nat)) :
  entryCount t' (Counts.bump t tally)
  = entryCount t' tally + (if t =? t' then 1 else 0).
Proof.
  unfold entryCount, Counts.bump.
  destruct (t =? t') eqn:E.
  - apply String.eqb_eq in E. subst t'.
    destruct (RoomService.getEntry t tally) as [c|];
      rewrite getEntry_setEntry_same; [|reflexivity].
    destruct (c =? 0)%nat eqn:E0; [apply Nat.eqb_eq in E0; lia|reflexivity].
  - apply String.eqb_neq in E.
    destruct (RoomService.getEntry t tally) as [c|];
      rewrite getEntry_setEntry_other by congruence; lia.
Qed.

Lemma bump_NoDup (t : string) (tally : list (string * nat)) :
  NoDup (map fst tally) -> NoDup (map fst (Counts.bump t tally)).
Proof.
  unfold Counts.bump.
  destruct (RoomService.getEntry t tally); apply setEntry_NoDup.
Qed.

Lemma bump_positive (t : string) (tally : list (string * nat)) :
  (forall k c, In (k, c) tally -> 0 < c) ->
  forall k c, In (k, c) (Counts.bump t tally) -> 0 < c.
Proof.
  intros Hpos k c. unfold Counts.bump.
  destruct (RoomService.getEntry t tally) as [c0|]; intros Hin;
    apply setEntry_In in Hin; destruct Hin as [[_ ->]|Hin]; eauto; try lia.
  destruct (c0 =? 0)%nat; lia.
Qed.

Lemma tallyStep_count (ps : list Player) (tally : list (string * nat))
      (e : string * string) (t : string) :
  entryCount t (Counts.tallyStep ps tally e)
  = entryCount t tally + (if Spec.validVote ps e && (snd e =? t) then 1 else 0).
Proof.
  unfold Counts.tallyStep, Spec.validVote.
  repeat rewrite aliveHas_aliveId.
  destruct (Spec.aliveId ps (fst e)); simpl; [|lia].
  destruct (Spec.aliveId ps (snd e)); simpl; [|lia].
  apply entryCount_bump.
Qed.

(** The first loop: the tally has distinct keys and positive counts, and
    holds for every target the number of valid votes it received. *)
Lemma tally_fold (ps : list Player) (vs : list (string * string))
      (tally : list (string * nat)) :
  NoDup (map fst tally) ->
  (forall k c, In (k, c) tally -> 0 < c) ->
  let tally' := fold_left (Counts.tallyStep ps) vs tally in
  NoDup (map fst tally')
  /\ (forall k c, In (k, c) tally' -> 0 < c)
  /\ forall t, entryCount t tally' = entryCount t tally + Spec.votesFor ps vs t.
Proof.
  revert tally. induction vs as [|e vs IH]; intros tally Hnd Hpos; simpl.
  - repeat split; auto.
  - assert (Hnd' : NoDup (map fst (Counts.tallyStep ps tally e))).
    { unfold Counts.tallyStep.
      destruct (negb _); auto. destruct (negb _); auto. now apply bump_NoDup. }
    assert (Hpos' : forall k c, In (k, c) (Counts.tallyStep ps tally e) -> 0 < c).
    { unfold Counts.tallyStep.
      destruct (negb _); auto. destruct (negb _); auto. now apply bump_positive. }
    destruct (IH _ Hnd' Hpos') as (H1 & H2 & H3).
    repeat split; auto.
    intros t. rewrite H3, tallyStep_count. lia.
Qed.

Lemma tallyVotes_spec (ps : list Player) (vs : list (string * string)) :
  NoDup (map fst (Counts.tallyVotes ps vs))
  /\ forall k c, In (k, c) (Counts.tallyVotes ps vs)
                 <-> (c = Spec.votesFor ps vs k /\ 0 < c).
Proof.
  destruct (tally_fold ps vs [] (NoDup_nil _) (fun k c (H : In (k, c) []) => match H with end))
    as (Hnd & Hpos & Hcnt).
  fold (Counts.tallyVotes ps vs) in Hnd, Hpos, Hcnt.
  split; [exact Hnd|].
  intros k c. split.
  - intros Hin. split; [|eauto].
    rewrite <- (Nat.add_0_l (Spec.votesFor ps vs k)).
    change 0 with (entryCount k []) at 1. rewrite <- Hcnt.
    unfold entryCount. now rewrite (In_getEntry _ _ _ Hnd Hin).
  - intros (-> & Hc).
    specialize (Hcnt k). unfold entryCount in Hcnt. simpl in Hcnt.
    destruct (RoomService.getEntry k (Counts.tallyVotes ps vs)) as [c|] eqn:E.
    + apply getEntry_In in E. now rewrite <- Hcnt.
    + lia.
Qed.

(** ** The leader of the tally *)

Lemma leaderInv_init : leaderInv [] (RoomService.mkLeader None 0 false).
Proof. unfold leaderInv; simpl. auto. Qed.

(** One more entry with a new key and a positive count keeps the
    invariant of the second loop. *)
Lemma leaderInv_step (l : list (string * nat)) (ld : RoomService.Leader)
      (k : string) (c : nat) :
  leaderInv l ld -> ~ In k (map fst l) -> 0 < c ->
  leaderInv (l ++ [(k, c)]) (Counts.leaderStep ld (k, c)).
Proof.
  intros Hinv Hnew Hc. unfold Counts.leaderStep.
  destruct (RoomService.l_max ld <? c)%nat eqn:Hlt.
  - (* a new maximum *)
    apply Nat.ltb_lt in Hlt. unfold leaderInv; simpl.
    split; [apply in_or_app; right; now left|].
    split; [exact Hc|].
    assert (Hle : forall k' c', In (k', c') l -> c' <= RoomService.l_max ld).
    { unfold leaderInv in Hinv.
      destruct (RoomService.l_eliminatedId ld).
      - apply Hinv.
      - destruct Hinv as (-> & _). intros ? ? []. }
    split.
    + intros k' c' Hin. apply in_app_or in Hin. destruct Hin as [Hin|[Hin|[]]].
      * apply Hle in Hin. lia.
      * injection Hin as <- <-. lia.
    + split; [discriminate|].
      intros (k' & Hne & Hin). apply in_app_or in Hin.
      destruct Hin as [Hin|[Hin|[]]].
      * apply Hle in Hin. lia.
      * injection Hin as <-. congruence.
  - apply Nat.ltb_ge in Hlt.
    unfold leaderInv in Hinv.
    destruct (RoomService.l_eliminatedId ld) as [t|] eqn:He.
    + destruct Hinv as (Hin & Hpos & Hle & Htie).
      assert (Hkt : k <> t).
      { intros ->. apply Hnew. change t with (fst (t, RoomService.l_max ld)).
        now apply in_map. }
      destruct ((c =? RoomService.l_max ld)%nat && negb (c =? 0)%nat) eqn:Heq.
      * (* a tie at the maximum *)
        apply andb_true_iff in Heq. destruct Heq as (Heq & _).
        apply Nat.eqb_eq in Heq. subst c.
        unfold leaderInv; simpl. rewrite ?He.
        split; [apply in_or_app; now left|].
        split; [exact Hpos|].
        split.
        -- intros k' c' Hin'. apply in_app_or in Hin'.
           destruct Hin' as [Hin'|[Hin'|[]]]; [now apply Hle in Hin'|].
           injection Hin' as <- <-. lia.
        -- split; [|reflexivity].
           intros _. exists k. split; [exact Hkt|].
           apply in_or_app. right. now left.
      * (* below the maximum *)
        assert (Hne : c <> RoomService.l_max ld).
        { intros ->. rewrite Nat.eqb_refl in Heq. simpl in Heq.
          destruct (RoomService.l_max ld =? 0)%nat eqn:E0; [|discriminate].
          apply Nat.eqb_eq in E0. lia. }
        unfold leaderInv. rewrite ?He.
        split; [apply in_or_app; now left|].
        split; [exact Hpos|].
        split.
        -- intros k' c' Hin'. apply in_app_or in Hin'.
           destruct Hin' as [Hin'|[Hin'|[]]]; [now apply Hle in Hin'|].
           injection Hin' as <- <-. lia.
        -- rewrite Htie. split; intros (k' & Hne' & Hin').
           ++ exists k'. split; [exact Hne'|]. apply in_or_app. now left.
           ++ exists k'. split; [exact Hne'|]. apply in_app_or in Hin'.
              destruct Hin' as [Hin'|[Hin'|[]]]; [exact Hin'|].
              injection Hin' as E1 E2. congruence.
    + destruct Hinv as (_ & Hmax & _). lia.
Qed.

Lemma leaderInv_fold (l : list (string * nat)) :
  NoDup (map fst l) -> (forall k c, In (k, c) l -> 0 < c) ->
  leaderInv l (fold_left Counts.leaderStep l (RoomService.mkLeader None 0 false)).
Proof.
  induction l as [|[k c] l IH] using rev_ind; intros Hnd Hpos.
  - apply leaderInv_init.
  - rewrite fold_left_app. simpl.
    rewrite map_app in Hnd. simpl in Hnd.
    apply NoDup_remove in Hnd. rewrite app_nil_r in Hnd.
    destruct Hnd as (Hnd & Hnew).
    apply leaderInv_step.
    + apply IH; auto. intros k' c' Hin. apply (Hpos k'). apply in_or_app. now left.
    + exact Hnew.
    + apply (Hpos k). apply in_or_app. right. now left.
Qed.

(** The second loop and the tie test: the result is the key whose count
    lies strictly above every other count. *)
Lemma leaderOf_spec (l : list (string * nat)) (t : string) :
  NoDup (map fst l) -> (forall k c, In (k, c) l -> 0 < c) ->
  Counts.leaderOf l = Some t
  <-> exists c, In (t, c) l /\ forall k c', In (k, c') l -> k <> t -> c' < c.
Proof.
  intros Hnd Hpos.
  pose proof (leaderInv_fold l Hnd Hpos) as Hinv.
  unfold Counts.leaderOf.
  set (ld := fold_left Counts.leaderStep l (RoomService.mkLeader None 0 false)) in *.
  unfold leaderInv in Hinv.
  destruct (RoomService.l_eliminatedId ld) as [t0|] eqn:He.
  - destruct Hinv as (Hin0 & Hmax & Hle & Htie).
    split.
    + destruct (RoomService.l_tie ld) eqn:Ht; [discriminate|].
      intros H. injection H as ->.
      exists (RoomService.l_max ld). split; [exact Hin0|].
      intros k c' Hin' Hne.
      pose proof (Hle _ _ Hin') as Hle'.
      destruct (Nat.eq_dec c' (RoomService.l_max ld)) as [E|E]; [|lia].
      assert (Htrue : false = true).
      { apply Htie. exists k. split; [exact Hne|]. now rewrite <- E. }
      discriminate Htrue.
    + intros (c & Hin_t & Huniq).
      pose proof (Hle _ _ Hin_t) as Hle_t.
      assert (Heq : t0 = t).
      { destruct (string_dec t0 t) as [E|E]; [exact E|].
        specialize (Huniq _ _ Hin0 E). lia. }
      subst t0.
      assert (Hc : c = RoomService.l_max ld).
      { pose proof (In_getEntry _ _ _ Hnd Hin_t) as E1.
        pose proof (In_getEntry _ _ _ Hnd Hin0) as E2. congruence. }
      destruct (RoomService.l_tie ld) eqn:Ht; [|reflexivity].
      destruct (proj1 Htie eq_refl) as (k & Hk & Hink).
      specialize (Huniq _ _ Hink Hk). lia.
  - destruct Hinv as (Hnil & _ & Htie). rewrite Htie.
    split; [discriminate|].
    intros (c & Hin_t & _). rewrite Hnil in Hin_t. destruct Hin_t.
Qed.

Lemma option_ext (o1 o2 : option string) (P : string -> Prop) :
  (forall t, o1 = Some t <-> P t) -> (forall t, o2 = Some t <-> P t) -> o1 = o2.
Proof.
  intros H1 H2. destruct o1 as [t1|], o2 as [t2|]; auto.
  - symmetry. apply H2, H1. reflexivity.
  - exfalso. assert (H : @None string = Some t1) by (apply H2, H1; reflexivity).
    discriminate H.
  - exfalso. assert (H : @None string = Some t2) by (apply H1, H2; reflexivity).
    discriminate H.
Qed.

(** The order in which the entries of the tally are visited is
    irrelevant. *)
Lemma leaderOf_Permutation (l l' : list (string * nat)) :
  Permutation l l' ->
  NoDup (map fst l) -> (forall k c, In (k, c) l -> 0 < c) ->
  Counts.leaderOf l = Counts.leaderOf l'.
Proof.
  intros Hperm Hnd Hpos.
  assert (Hnd' : NoDup (map fst l'))
    by (eapply Permutation_NoDup; [apply Permutation_map; exact Hperm|exact Hnd]).
  assert (Hpos' : forall k c, In (k, c) l' -> 0 < c).
  { intros k c Hin. apply (Hpos k). eapply Permutation_in; [symmetry; exact Hperm|exact Hin]. }
  apply option_ext
    with (P := fun t => exists c, In (t, c) l
                                  /\ forall k c', In (k, c') l -> k <> t -> c' < c).
  - intros t. now apply leaderOf_spec.
  - intros t. rewrite (leaderOf_spec l' t Hnd' Hpos').
    split; intros (c & Hin & Huniq); exists c; split.
    + eapply Permutation_in; [symmetry; exact Hperm|exact Hin].
    + intros k c' Hin'. apply Huniq. eapply Permutation_in; [exact Hperm|exact Hin'].
    + eapply Permutation_in; [exact Hperm|exact Hin].
    + intros k c' Hin'. apply Huniq. eapply Permutation_in; [symmetry; exact Hperm|exact Hin'].
Qed.

(** The two loops together, in terms of the votes: the result is the
    target holding the unique, positive maximum of the valid votes. *)
Lemma counts_eliminatedOf_spec (ps : list Player) (vs : list (string * string)) (t : string) :
  Counts.eliminatedOf ps vs = Some t
  <-> Spec.uniqueMax (Spec.votesFor ps vs) t.
Proof.
  destruct (tallyVotes_spec ps vs) as (Hnd & Hin).
  assert (Hpos : forall k c, In (k, c) (Counts.tallyVotes ps vs) -> 0 < c)
    by (intros k c H; now apply Hin in H).
  unfold Counts.eliminatedOf. rewrite (leaderOf_spec _ t Hnd Hpos).
  unfold Spec.uniqueMax. split.
  - intros (c & Hin_t & Huniq).
    apply Hin in Hin_t. destruct Hin_t as (-> & Hc).
    split; [exact Hc|].
    intros t' Hne.
    destruct (Nat.eq_dec (Spec.votesFor ps vs t') 0) as [E0|E0]; [lia|].
    apply (Huniq t'); [|exact Hne].
    apply Hin. split; [reflexivity|lia].
  - intros (Hc & Huniq).
    exists (Spec.votesFor ps vs t). split; [apply Hin; now split|].
    intros k c' Hin' Hne. apply Hin in Hin'. destruct Hin' as (-> & _).
    now apply Huniq.
Qed.

Lemma votesFor_Permutation (ps : list Player) (vs vs' : list (string * string)) (t : string) :
  Permutation vs vs' -> Spec.votesFor ps vs t = Spec.votesFor ps vs' t.
Proof.
  induction 1; simpl; lia.
Qed.

(** The order in which the entries of [vote.votes] are visited is
    irrelevant. *)
Lemma counts_eliminatedOf_Permutation (ps : list Player) (vs vs' : list (string * string)) :
  Permutation vs vs' ->
  Counts.eliminatedOf ps vs = Counts.eliminatedOf ps vs'.
Proof.
  intros Hperm.
  apply option_ext with (P := Spec.uniqueMax (Spec.votesFor ps vs)).
  - intros t. apply counts_eliminatedOf_spec.
  - intros t. rewrite counts_eliminatedOf_spec. unfold Spec.uniqueMax.
    rewrite (votesFor_Permutation ps vs vs' t Hperm).
    split; intros (Hc & Huniq); (split; [exact Hc|]); intros t' Hne.
    + rewrite (votesFor_Permutation ps vs vs' t' Hperm). now apply Huniq.
    + rewrite <- (votesFor_Permutation ps vs vs' t' Hperm). now apply Huniq.
Qed.

(** ** The tally as a plain object *)

Lemma tallyInv_tail (x : string * RoomService.TallyValue)
      (tally : list (string * RoomService.TallyValue)) :
  tallyInv (x :: tally) -> tallyInv tally.
Proof. intros H k v Hin. apply H. now right. Qed.

Lemma numbers_getEntry (t : string) (tally : list (string * RoomService.TallyValue)) :
  tallyInv tally -> RoomService.inherited t = false ->
  RoomService.getEntry t tally
  = option_map RoomService.t_num (RoomService.getEntry t (numbers tally)).
Proof.
  intros Hinv Ht. induction tally as [|[k v] tally IH]; simpl; [reflexivity|].
  pose proof (tallyInv_tail _ _ Hinv) as Htl.
  destruct (k =? t) eqn:E.
  - apply String.eqb_eq in E. subst k.
    destruct v as [c|].
    + simpl. now rewrite String.eqb_refl.
    + assert (RoomService.inherited t = true)
        by (apply (Hinv t RoomService.t_str); [now left|reflexivity]).
      congruence.
  - destruct v as [c|]; simpl; [rewrite E|]; now apply IH.
Qed.

Lemma numbers_setEntry_num (t : string) (c : nat)
      (tally : list (string * RoomService.TallyValue)) :
  tallyInv tally -> RoomService.inherited t = false ->
  numbers (RoomService.setEntry t (RoomService.t_num c) tally)
  = RoomService.setEntry t c (numbers tally).
Proof.
  intros Hinv Ht. induction tally as [|[k v] tally IH]; simpl; [reflexivity|].
  pose proof (tallyInv_tail _ _ Hinv) as Htl.
  destruct (k =? t) eqn:E.
  - apply String.eqb_eq in E. subst k.
    destruct v as [c'|].
    + simpl. now rewrite String.eqb_refl.
    + assert (RoomService.inherited t = true)
        by (apply (Hinv t RoomService.t_str); [now left|reflexivity]).
      congruence.
  - destruct v as [c'|]; simpl; [rewrite E|]; now rewrite IH.
Qed.

Lemma numbers_setEntry_str (t : string) (tally : list (string * RoomService.TallyValue)) :
  tallyInv tally -> RoomService.inherited t = true ->
  numbers (RoomService.setEntry t RoomService.t_str tally) = numbers tally.
Proof.
  intros Hinv Ht. induction tally as [|[k v] tally IH]; simpl; [reflexivity|].
  pose proof (tallyInv_tail _ _ Hinv) as Htl.
  destruct (k =? t) eqn:E.
  - apply String.eqb_eq in E. subst k.
    destruct v as [c'|]; [|reflexivity].
    assert (RoomService.t_num c' = RoomService.t_str)
      by (apply (Hinv t (RoomService.t_num c')); [now left|exact Ht]).
    discriminate.
  - destruct v as [c'|]; simpl; now rewrite IH.
Qed.

Lemma tallyInv_setEntry (t : string) (v : RoomService.TallyValue)
      (tally : list (string * RoomService.TallyValue)) :
  tallyInv tally ->
  (RoomService.inherited t = true <-> v = RoomService.t_str) ->
  tallyInv (RoomService.setEntry t v tally).
Proof.
  intros Hinv Hv k w Hin. apply setEntry_In in Hin.
  destruct Hin as [(-> & ->)|Hin]; [exact Hv|now apply Hinv].
Qed.

(** One vote: an inherited key gets a string and no number changes; any
    other key is counted. *)
Lemma bump_numbers (t : string) (tally : list (string * RoomService.TallyValue)) :
  tallyInv tally ->
  tallyInv (RoomService.bump t tally)
  /\ numbers (RoomService.bump t tally)
     = if RoomService.inherited t then numbers tally
       else Counts.bump t (numbers tally).
Proof.
  intros Hinv. unfold RoomService.bump, Counts.bump.
  destruct (RoomService.getEntry t tally) as [[c|]|] eqn:E.
  - assert (Ht : RoomService.inherited t = false).
    { apply getEntry_In in E. destruct (RoomService.inherited t) eqn:Hi; [|reflexivity].
      assert (RoomService.t_num c = RoomService.t_str) by (now apply (Hinv t)).
      discriminate. }
    rewrite Ht. rewrite (numbers_getEntry t tally Hinv Ht) in E.
    destruct (RoomService.getEntry t (numbers tally)) as [c'|]; [|discriminate].
    injection E as ->. split.
    + apply tallyInv_setEntry; [exact Hinv|]. rewrite Ht. split; discriminate.
    + now apply numbers_setEntry_num.
  - assert (Ht : RoomService.inherited t = true).
    { apply getEntry_In in E. now apply (Hinv t RoomService.t_str). }
    rewrite Ht. split.
    + apply tallyInv_setEntry; [exact Hinv|]. tauto.
    + now apply numbers_setEntry_str.
  - destruct (RoomService.inherited t) eqn:Ht.
    + destruct (t =? "__proto__"); [auto|]. split.
      * apply tallyInv_setEntry; [exact Hinv|]. tauto.
      * now apply numbers_setEntry_str.
    + rewrite (numbers_getEntry t tally Hinv Ht) in E.
      destruct (RoomService.getEntry t (numbers tally)) as [c'|]; [discriminate|].
      split.
      * apply tallyInv_setEntry; [exact Hinv|]. rewrite Ht. split; discriminate.
      * now apply numbers_setEntry_num.
Qed.

Lemma tallyStep_numbers (ps : list Player) (tally : list (string * RoomService.TallyValue))
      (e : string * string) :
  tallyInv tally ->
  tallyInv (RoomService.tallyStep ps tally e)
  /\ numbers (RoomService.tallyStep ps tally e)
     = if RoomService.inherited (snd e) then numbers tally
       else Counts.tallyStep ps (numbers tally) e.
Proof.
  intros Hinv. unfold RoomService.tallyStep, Counts.tallyStep.
  destruct (negb (RoomService.aliveHas ps (fst e)));
    [split; [exact Hinv|now destruct (RoomService.inherited (snd e))]|].
  destruct (negb (RoomService.aliveHas ps (snd e)));
    [split; [exact Hinv|now destruct (RoomService.inherited (snd e))]|].
  now apply bump_numbers.
Qed.

Lemma tallyFold_numbers (ps : list Player) (vs : list (string * string))
      (tally : list (string * RoomService.TallyValue)) :
  tallyInv tally ->
  numbers (fold_left (RoomService.tallyStep ps) vs tally)
  = fold_left (Counts.tallyStep ps) (ordinaryVotes vs) (numbers tally).
Proof.
  revert tally. induction vs as [|e vs IH]; intros tally Hinv; simpl; [reflexivity|].
  destruct (tallyStep_numbers ps tally e Hinv) as (Hinv' & Hn).
  rewrite (IH _ Hinv'), Hn.
  destruct (RoomService.inherited (snd e)); reflexivity.
Qed.

Lemma leaderFold_numbers (tally : list (string * RoomService.TallyValue))
      (l : RoomService.Leader) :
  fold_left RoomService.leaderStep tally l
  = fold_left Counts.leaderStep (numbers tally) l.
Proof.
  revert l. induction tally as [|[k v] tally IH]; intros l; simpl; [reflexivity|].
  destruct v as [c|]; simpl; apply IH.
Qed.

(** The two loops on the plain object give what the counts of the ballots
    for keys that are not inherited give: a ballot for an inherited key is
    never counted. *)
Lemma eliminatedOf_counts (ps : list Player) (vs : list (string * string)) :
  RoomService.eliminatedOf ps vs = Counts.eliminatedOf ps (ordinaryVotes vs).
Proof.
  unfold RoomService.eliminatedOf, Counts.eliminatedOf,
    RoomService.leaderOf, Counts.leaderOf, RoomService.tallyVotes, Counts.tallyVotes.
  rewrite leaderFold_numbers, tallyFold_numbers; [reflexivity|].
  intros k v [].
Qed.

Lemma eliminatedOf_spec (ps : list Player) (vs : list (string * string)) (t : string) :
  RoomService.eliminatedOf ps vs = Some t
  <-> Spec.uniqueMax (Spec.votesFor ps (ordinaryVotes vs)) t.
Proof. rewrite eliminatedOf_counts. apply counts_eliminatedOf_spec. Qed.

Lemma Permutation_filter {A : Type} (f : A -> bool) (l l' : list A) :
  Permutation l l' -> Permutation (filter f l) (filter f l').
Proof.
  induction 1 as [|x l l' _ IH|x y l|l1 l2 l3 _ IH1 _ IH2]; simpl.
  - constructor.
  - destruct (f x); [now constructor|exact IH].
  - destruct (f x), (f y); try reflexivity. apply perm_swap.
  - now transitivity (filter f l2).
Qed.

(** The order in which the entries of [vote.votes] are visited is
    irrelevant. *)
Lemma eliminatedOf_Permutation (ps : list Player) (vs vs' : list (string * string)) :
  Permutation vs vs' ->
  RoomService.eliminatedOf ps vs = RoomService.eliminatedOf ps vs'.
Proof.
  intros H. rewrite !eliminatedOf_counts.
  apply counts_eliminatedOf_Permutation. now apply Permutation_filter.
Qed.

Lemma numbers_Permutation (tally tally' : list (string * RoomService.TallyValue)) :
  Permutation tally tally' -> Permutation (numbers tally) (numbers tally').
Proof.
  induction 1 as [|[k v] l l' _ IH|[k v] [k' v'] l|l1 l2 l3 _ IH1 _ IH2]; simpl.
  - constructor.
  - destruct v; [now constructor|exact IH].
  - destruct v, v'; try reflexivity. apply perm_swap.
  - now transitivity (numbers l2).
Qed.

(** [Object.entries] lists the keys that are array indices first and the
    others in the order of their insertion; the order in which the entries
    of the tally are visited is irrelevant. *)
Lemma leaderOf_entries_order (ps : list Player) (vs : list (string * string))
      (tally' : list (string * RoomService.TallyValue)) :
  Permutation (RoomService.tallyVotes ps vs) tally' ->
  RoomService.leaderOf tally' = RoomService.eliminatedOf ps vs.
Proof.
  intros Hperm. apply numbers_Permutation in Hperm.
  unfold RoomService.eliminatedOf, RoomService.leaderOf.
  rewrite !leaderFold_numbers.
  change (Counts.leaderOf (numbers tally')
          = Counts.leaderOf (numbers (RoomService.tallyVotes ps vs))).
  symmetry. apply leaderOf_Permutation; [exact Hperm| |];
    unfold RoomService.tallyVotes;
    (rewrite tallyFold_numbers; [|intros k v []]);
    destruct (tallyVotes_spec ps (ordinaryVotes vs)) as (Hnd & Hin).
  - exact Hnd.
  - intros k c Hc. now apply Hin in Hc.
Qed.

(** The ballots for a key that is not inherited are all counted. *)
Lemma votesFor_ordinary_target (ps : list Player) (vs : list (string * string)) (t : string) :
  RoomService.inherited t = false ->
  Spec.votesFor ps (ordinaryVotes vs) t = Spec.votesFor ps vs t.
Proof.
  intros Ht. unfold ordinaryVotes.
  induction vs as [|e vs IH]; simpl; [reflexivity|].
  destruct (RoomService.inherited (snd e)) eqn:Hi; simpl; rewrite IH; [|reflexivity].
  destruct (snd e =? t) eqn:E; [|now rewrite andb_false_r].
  apply String.eqb_eq in E. congruence.
Qed.

Lemma votesFor_ordinary_le (ps : list Player) (vs : list (string * string)) (t : string) :
  Spec.votesFor ps (ordinaryVotes vs) t <= Spec.votesFor ps vs t.
Proof.
  unfold ordinaryVotes. induction vs as [|e vs IH]; simpl; [lia|].
  destruct (RoomService.inherited (snd e)); simpl; lia.
Qed.

(** Where no player's id is an inherited key, every valid ballot is
    counted. *)
Lemma votesFor_ordinary (ps : list Player) (vs : list (string * string)) (t : string) :
  (forall p, In p ps -> RoomService.inherited (pid p) = false) ->
  Spec.votesFor ps (ordinaryVotes vs) t = Spec.votesFor ps vs t.
Proof.
  intros Hord. unfold ordinaryVotes.
  induction vs as [|e vs IH]; simpl; [reflexivity|].
  destruct (RoomService.inherited (snd e)) eqn:Hi; simpl; rewrite IH; [|reflexivity].
  destruct (Spec.validVote ps e) eqn:Hv; [|reflexivity].
  unfold Spec.validVote in Hv. apply andb_prop in Hv. destruct Hv as (_ & Ha).
  unfold Spec.aliveId in Ha. apply existsb_exists in Ha.
  destruct Ha as (p & Hp & Hc). apply andb_prop in Hc. destruct Hc as (Hpid & _).
  apply String.eqb_eq in Hpid. rewrite <- Hpid, (Hord p Hp) in Hi. discriminate.
Qed.

(** The two loops together, in terms of the votes, where no player's id is
    an inherited key: the result is the target holding the unique, positive
    maximum of the valid votes. *)
Lemma eliminatedOf_ordinary (ps : list Player) (vs : list (string * string)) (t : string) :
  (forall p, In p ps -> RoomService.inherited (pid p) = false) ->
  RoomService.eliminatedOf ps vs = Some t
  <-> Spec.uniqueMax (Spec.votesFor ps vs) t.
Proof.
  intros Hord. rewrite eliminatedOf_spec. unfold Spec.uniqueMax.
  rewrite (votesFor_ordinary ps vs t Hord).
  split; intros (Hc & Huniq); (split; [exact Hc|]); intros t' Hne.
  - rewrite <- (votesFor_ordinary ps vs t' Hord). now apply Huniq.
  - rewrite (votesFor_ordinary ps vs t' Hord). now apply Huniq.
Qed.

(** ** Vote resolution *)

Lemma aliveId_hasPlayer (ps : list Player) (i : string) :
  Spec.aliveId ps i = true -> hasPlayer i ps = true.
Proof.
  unfold Spec.aliveId, hasPlayer. intros H.
  apply existsb_exists in H. destruct H as (p & Hin & Hp).
  apply andb_true_iff in Hp. apply existsb_exists. exists p. tauto.
Qed.

Lemma votesFor_pos_alive (ps : list Player) (vs : list (string * string)) (t : string) :
  0 < Spec.votesFor ps vs t -> Spec.aliveId ps t = true.
Proof.
  induction vs as [|e vs IH]; simpl; [lia|].
  destruct (Spec.validVote ps e && (snd e =? t)) eqn:E; [|exact IH].
  intros _. apply andb_true_iff in E. destruct E as (Hv & Ht).
  apply String.eqb_eq in Ht. subst t.
  unfold Spec.validVote in Hv. now apply andb_true_iff in Hv.
Qed.

Lemma eliminatedOf_alive (ps : list Player) (vs : list (string * string)) (t : string) :
  RoomService.eliminatedOf ps vs = Some t -> Spec.aliveId ps t = true.
Proof.
  intros H. apply eliminatedOf_spec in H. destruct H as (Hpos & _).
  now apply votesFor_pos_alive in Hpos.
Qed.

(** [resolveVote], in closed form, for rosters without an empty document
    id: with the room in place it always commits. *)
Lemma resolveVote_eq (clk : Clock) (d : option Z) (s : Store) (r : Room) :
  room s = Some r ->
  (forall p, In p (players s) -> pid p <> "") ->
  let ps := players s in
  let e := RoomService.eliminatedOf ps (votes (vote r)) in
  RoomService.resolveVote clk d s
  = Ok (mkStore
          (Some (RoomService.voteResolveUpdate clk
                   (RoomService.calcWinner (RoomService.playersAfter e ps))
                   (orElse d (orElse (nightSec (settings r)) 60)) e r))
          (map (afterResolution e (setVoteSubmitted false)) ps)).
Proof.
  intros Hroom Hids ps e.
  unfold RoomService.resolveVote. rewrite Hroom. fold ps e.
  assert (Hvic : victimExists e ps = true).
  { destruct e as [t|] eqn:He; simpl; [|reflexivity].
    now apply aliveId_hasPlayer, eliminatedOf_alive with (vs := votes (vote r)). }
  assert (Htruthy : (if truthy e
                     then match e with
                          | Some x => [PlayerUpdate x (setAlive false)]
                          | None => []
                          end
                     else [])
                    = match e with
                      | Some x => [PlayerUpdate x (setAlive false)]
                      | None => []
                      end).
  { destruct e as [t|] eqn:He; [|reflexivity].
    simpl in Hvic. apply hasPlayer_In in Hvic. destruct Hvic as (p & Hp & Hpid).
    apply Hids in Hp. rewrite Hpid in Hp.
    apply String.eqb_neq in Hp. simpl. now rewrite Hp. }
  rewrite Htruthy.
  now apply commit_resolution with (ps0 := ps).
Qed.

(** Where no player's id is an inherited key of the tally object, vote
    resolution counts, per target, the votes whose voter and target are both
    alive; the target holding the unique maximum above 0 is eliminated, and
    exactly its documents get [isAlive = false]; on a tie at the maximum, and
    without any valid vote, nobody is eliminated. *)
Lemma vote_rule (clk : Clock) (d : option Z) (s : Store) (r : Room) :
  room s = Some r ->
  (forall p, In p (players s) -> pid p <> "") ->
  (forall p, In p (players s) -> RoomService.inherited (pid p) = false) ->
  let cnt := Spec.votesFor (players s) (votes (vote r)) in
  exists e s',
    RoomService.resolveVote clk d s = Ok s'
    /\ (forall t, e = Some t <-> Spec.uniqueMax cnt t)
    /\ ((forall t, ~ Spec.uniqueMax cnt t) -> e = None)
    /\ option_map (fun r' => eliminatedPlayerId (vote r')) (room s') = Some e
    /\ map pid (players s') = map pid (players s)
    /\ map isAlive (players s') = map (Spec.dies e) (players s).
Proof.
  intros Hroom Hids Hord cnt.
  exists (RoomService.eliminatedOf (players s) (votes (vote r))).
  eexists. split; [exact (resolveVote_eq clk d s r Hroom Hids)|].
  split; [intros t; now apply eliminatedOf_ordinary|].
  split.
  { intros Hnone.
    destruct (RoomService.eliminatedOf (players s) (votes (vote r))) as [t|] eqn:E;
      [|reflexivity].
    apply (eliminatedOf_ordinary _ _ _ Hord) in E. now apply Hnone in E. }
  simpl. split.
  - now destruct (RoomService.calcWinner _).
  - split.
    + rewrite map_map. apply map_ext. intros p. unfold afterResolution.
      now destruct (RoomService.isId _ p).
    + rewrite map_map. apply map_ext. intros p.
      now apply afterResolution_isAlive.
Qed.

(** Two valid votes for [p1] against one for [p2]: [p1] is eliminated. *)
Lemma vote_rule_example :
  exists s',
    RoomService.resolveVote (Sample.clk 166000) None Sample.vote4 = Ok s'
    /\ option_map (fun r' => eliminatedPlayerId (vote r')) (room s') = Some (Some "p1")
    /\ map isAlive (players s') = [false; true; true; true].
Proof.
  destruct (room Sample.vote4) as [r|] eqn:Hroom;
    [|vm_compute in Hroom; discriminate Hroom].
  assert (Hids : forall p, In p (players Sample.vote4) -> pid p <> "")
    by nonempty_ids.
  assert (Hord : forall p, In p (players Sample.vote4) ->
                           RoomService.inherited (pid p) = false).
  { intros p Hin. vm_compute in Hin.
    repeat (destruct Hin as [<-|Hin]; [reflexivity|]). contradiction. }
  destruct (vote_rule (Sample.clk 166000) None Sample.vote4 r Hroom Hids Hord)
    as (e & s' & Hok & _ & _ & He & _ & Ha).
  exists s'. split; [exact Hok|].
  vm_compute in Hok. injection Hok as <-.
  vm_compute in He. injection He as <-.
  split; [reflexivity|exact Ha].
Qed.

(** ** What every operation preserves *)

Lemma applyWrites_pids (ws : list BatchWrite) (s s' : Store) :
  Forall keepsId ws -> applyWrites ws s = Some s' ->
  map pid (players s') = map pid (players s).
Proof.
  intros Hws. revert s. induction Hws as [|w ws Hw _ IH]; intros s; simpl.
  - now intros [= <-].
  - destruct (applyWrite w s) as [s1|] eqn:E; [|discriminate].
    intros H. rewrite (IH _ H).
    destruct w as [i f|f]; simpl in *.
    + destruct (hasPlayer i (players s)); [|discriminate].
      injection E as <-. simpl. now apply updatePlayers_pid.
    + destruct (room s); [|discriminate]. now injection E as <-.
Qed.

Lemma applyWrites_roomInv (P : Room -> Prop) (ws : list BatchWrite) (s s' : Store) :
  Forall (keepsRoom P) ws -> applyWrites ws s = Some s' ->
  roomInv P s -> roomInv P s'.
Proof.
  intros Hws. revert s. induction Hws as [|w ws Hw _ IH]; intros s; simpl.
  - now intros [= <-].
  - destruct (applyWrite w s) as [s1|] eqn:E; [|discriminate].
    intros H Hinv. apply (IH _ H).
    destruct w as [i f|f]; simpl in *.
    + destruct (hasPlayer i (players s)); [|discriminate].
      injection E as <-. exact Hinv.
    + destruct (room s) as [r|] eqn:Hr; [|discriminate]. injection E as <-.
      intros r' [= <-]. apply Hw. now apply Hinv.
Qed.

Lemma commit_pids (ws : list BatchWrite) (s : Store) :
  Forall keepsId ws ->
  map pid (players (storeOf (commit ws s))) = map pid (players s).
Proof.
  intros Hws. unfold commit.
  destruct (applyWrites ws s) as [s'|] eqn:E; simpl; [|reflexivity].
  now apply applyWrites_pids with (ws := ws).
Qed.

Lemma commit_roomInv (P : Room -> Prop) (ws : list BatchWrite) (s : Store) :
  Forall (keepsRoom P) ws -> roomInv P s -> roomInv P (storeOf (commit ws s)).
Proof.
  intros Hws Hinv. unfold commit.
  destruct (applyWrites ws s) as [s'|] eqn:E; simpl; [|exact Hinv].
  now apply applyWrites_roomInv with (ws := ws) (s := s).
Qed.

Lemma updatePlayerDoc_pids (i : string) (f : Player -> Player) (s : Store) :
  (forall p, pid (f p) = pid p) ->
  map pid (players (storeOf (updatePlayerDoc i f s))) = map pid (players s).
Proof.
  intros Hf. unfold updatePlayerDoc.
  destruct (hasPlayer i (players s)); simpl; [|reflexivity].
  now apply updatePlayers_pid.
Qed.

Lemma updatePlayerDoc_room (i : string) (f : Player -> Player) (s : Store) :
  room (storeOf (updatePlayerDoc i f s)) = room s.
Proof. unfold updatePlayerDoc. now destruct (hasPlayer i (players s)). Qed.

Lemma updateRoomDoc_players (f : Room -> Room) (s : Store) :
  players (storeOf (updateRoomDoc f s)) = players s.
Proof. unfold updateRoomDoc. now destruct (room s). Qed.

Lemma updateRoomDoc_roomInv (P : Room -> Prop) (f : Room -> Room) (s : Store) :
  (forall r, P r -> P (f r)) -> roomInv P s ->
  roomInv P (storeOf (updateRoomDoc f s)).
Proof.
  intros Hf Hinv. unfold updateRoomDoc.
  destruct (room s) as [r|] eqn:Hr; simpl; [|exact Hinv].
  intros r' [= <-]. apply Hf. now apply Hinv.
Qed.

Lemma writeNightAction_players (clk : Clock) (x : Role) (a t : string) (s : Store) :
  players (storeOf (RoomService.writeNightAction clk x a t s)) = players s.
Proof.
  unfold RoomService.writeNightAction.
  destruct x; try reflexivity; apply updateRoomDoc_players.
Qed.

Lemma writeNightAction_roomInv (P : Room -> Prop) (clk : Clock) (x : Role)
      (a t : string) (s : Store) :
  (forall r f, P r -> P (RoomService.withNight f r)) -> roomInv P s ->
  roomInv P (storeOf (RoomService.writeNightAction clk x a t s)).
Proof.
  intros HP Hinv. unfold RoomService.writeNightAction.
  destruct x; try exact Hinv; apply updateRoomDoc_roomInv; auto.
Qed.

Lemma storeOf_bind (r : Res) (k : Store -> Res) :
  storeOf (r >>= k) = match r with
                      | Ok s => storeOf (k s)
                      | Throw _ s => s
                      end.
Proof. now destruct r. Qed.

(** No operation adds, removes or renames a player document. *)
Lemma run_pids (clk : Clock) (o : Game.Op) (s : Store) :
  map pid (players (storeOf (Game.run clk o s))) = map pid (players s).
Proof.
  destruct o as [rr rp d|x a t|d|d|v t|d]; simpl.
  - unfold RoomService.startGame.
    destruct (length (players s) <? 4)%nat; [reflexivity|].
    apply commit_pids. apply Forall_app. split.
    + apply Forall_forall. intros w Hw. apply in_map_iff in Hw.
      destruct Hw as (pr & <- & _). simpl. reflexivity.
    + repeat constructor.
  - unfold RoomService.submitNightAction.
    destruct (find _ (players s)) as [actor|]; [|reflexivity].
    destruct (nightSubmitted actor); [reflexivity|].
    rewrite storeOf_bind.
    pose proof (writeNightAction_players clk x a t s) as Hw.
    destruct (RoomService.writeNightAction clk x a t s) as [s1|e s1]; simpl in Hw.
    + rewrite updatePlayerDoc_pids by reflexivity. now rewrite Hw.
    + now rewrite Hw.
  - unfold RoomService.resolveNight.
    destruct (room s) as [r|]; [|reflexivity].
    rewrite storeOf_bind, writeCheckResult_eq.
    destruct (checkCommits (night r) (players s)); [|reflexivity].
    rewrite commit_pids.
    + simpl. rewrite map_map. apply map_ext. intros p. apply checkEffect_pid.
    + apply Forall_app. split.
      * destruct (RoomService.killedOf (night r)); repeat constructor.
      * apply Forall_app. split; [|repeat constructor].
        apply Forall_forall. intros w Hw. apply in_map_iff in Hw.
        destruct Hw as (p & <- & _). simpl. reflexivity.
  - unfold RoomService.startVote. apply commit_pids.
    apply Forall_app. split; [|repeat constructor].
    apply Forall_forall. intros w Hw. apply in_map_iff in Hw.
    destruct Hw as (p & <- & _). simpl. reflexivity.
  - unfold RoomService.submitVote.
    destruct (find _ (players s)) as [voter|]; [|reflexivity].
    destruct (voteSubmitted voter); [reflexivity|].
    rewrite storeOf_bind.
    pose proof (updateRoomDoc_players
                  (RoomService.withVote (RoomService.setVoteOf v t (serverTs clk))) s) as Hw.
    destruct (updateRoomDoc _ s) as [s1|e s1]; simpl in Hw.
    + rewrite updatePlayerDoc_pids by reflexivity. now rewrite Hw.
    + now rewrite Hw.
  - unfold RoomService.resolveVote.
    destruct (room s) as [r|]; [|reflexivity].
    apply commit_pids. apply Forall_app. split.
    + destruct (truthy _); [|constructor].
      destruct (RoomService.eliminatedOf _ _); repeat constructor.
    + apply Forall_app. split; [|repeat constructor].
      apply Forall_forall. intros w Hw. apply in_map_iff in Hw.
      destruct Hw as (p & <- & _). simpl. reflexivity.
Qed.

Lemma keepsRoom_players (P : Room -> Prop) (A : Type) (g : A -> BatchWrite) (l : list A) :
  (forall a, exists i f, g a = PlayerUpdate i f) ->
  Forall (keepsRoom P) (map g l).
Proof.
  intros Hg. apply Forall_forall. intros w Hw. apply in_map_iff in Hw.
  destruct Hw as (a & <- & _). destruct (Hg a) as (i & f & ->). exact I.
Qed.

(** Every operation keeps "a room with a winner has status ended". *)
Lemma run_endedWhenWon (clk : Clock) (o : Game.Op) (s : Store) :
  roomInv endedWhenWon s -> roomInv endedWhenWon (storeOf (Game.run clk o s)).
Proof.
  intros Hinv. destruct o as [rr rp d|x a t|d|d|v t|d]; simpl.
  - unfold RoomService.startGame.
    destruct (length (players s) <? 4)%nat; [exact Hinv|].
    apply commit_roomInv; [|exact Hinv]. apply Forall_app. split.
    + apply keepsRoom_players. intros pr. eauto.
    + repeat constructor. intros r _ Hw. now simpl in Hw.
  - unfold RoomService.submitNightAction.
    destruct (find _ (players s)) as [actor|]; [|exact Hinv].
    destruct (nightSubmitted actor); [exact Hinv|].
    rewrite storeOf_bind.
    pose proof (writeNightAction_roomInv endedWhenWon clk x a t s
                  (fun r f H => H) Hinv) as Hw.
    destruct (RoomService.writeNightAction clk x a t s) as [s1|e s1]; simpl in Hw;
      [|exact Hw].
    unfold roomInv. now rewrite updatePlayerDoc_room.
  - unfold RoomService.resolveNight.
    destruct (room s) as [r|] eqn:Hr; [|exact Hinv].
    rewrite storeOf_bind, writeCheckResult_eq.
    destruct (checkCommits (night r) (players s)); [|exact Hinv].
    apply commit_roomInv.
    + apply Forall_app. split.
      * destruct (RoomService.killedOf (night r)); repeat constructor.
      * apply Forall_app. split; [apply keepsRoom_players; intros p; eauto|].
        repeat constructor. intros r0 H0. unfold RoomService.nightRoomUpdate.
        destruct (RoomService.calcWinner _); unfold endedWhenWon; simpl; auto.
    + unfold roomInv. simpl. exact Hinv.
  - unfold RoomService.startVote. apply commit_roomInv; [|exact Hinv].
    apply Forall_app. split; [apply keepsRoom_players; intros p; eauto|].
    repeat constructor. intros r H. exact H.
  - unfold RoomService.submitVote.
    destruct (find _ (players s)) as [voter|]; [|exact Hinv].
    destruct (voteSubmitted voter); [exact Hinv|].
    rewrite storeOf_bind.
    pose proof (updateRoomDoc_roomInv endedWhenWon
                  (RoomService.withVote (RoomService.setVoteOf v t (serverTs clk))) s
                  (fun r H => H) Hinv) as Hw.
    destruct (updateRoomDoc _ s) as [s1|e s1]; simpl in Hw; [|exact Hw].
    unfold roomInv. now rewrite updatePlayerDoc_room.
  - unfold RoomService.resolveVote.
    destruct (room s) as [r|] eqn:Hr; [|exact Hinv].
    apply commit_roomInv; [|exact Hinv].
    apply Forall_app. split.
    + destruct (truthy _); [|constructor].
      destruct (RoomService.eliminatedOf _ _); repeat constructor.
    + apply Forall_app. split; [apply keepsRoom_players; intros p; eauto|].
      repeat constructor. intros r0 H0. unfold RoomService.voteResolveUpdate.
      destruct (RoomService.calcWinner _); unfold endedWhenWon; simpl; auto.
Qed.

(** In every reachable store the player documents have distinct, non-empty
    ids, and a room with a winner has status "ended". *)
Lemma reachable_inv (s : Store) :
  Game.reachable s ->
  NoDup (map pid (players s))
  /\ (forall p, In p (players s) -> pid p <> "")
  /\ roomInv endedWhenWon s.
Proof.
  induction 1 as [c i nick Hi|i nick s Hs IH Hi Hfresh|clk o s Hs IH].
  - simpl. split; [repeat constructor; simpl; tauto|].
    split.
    + intros p [<-|[]]. exact Hi.
    + intros r [= <-]. unfold endedWhenWon. simpl. congruence.
  - destruct IH as (Hnd & Hne & Hinv). simpl. split; [|split].
    + rewrite map_app. simpl.
      apply (Permutation_NoDup (Permutation_cons_append _ _)). constructor.
      * intros Hin. apply in_map_iff in Hin.
        destruct Hin as (p & Hp & Hin).
        assert (Hhas : hasPlayer i (players s) = true)
          by (apply hasPlayer_In; now exists p).
        congruence.
      * exact Hnd.
    + intros p Hin. apply in_app_or in Hin. destruct Hin as [Hin|[<-|[]]]; auto.
    + exact Hinv.
  - destruct IH as (Hnd & Hne & Hinv). split; [|split].
    + now rewrite run_pids.
    + intros p Hin.
      assert (Hp : In (pid p) (map pid (players (storeOf (Game.run clk o s)))))
        by now apply in_map.
      rewrite run_pids in Hp. apply in_map_iff in Hp.
      destruct Hp as (q & Hq & Hin'). rewrite <- Hq. now apply Hne.
    + now apply run_endedWhenWon.
Qed.

Lemma reachable_runAll (script : list (Clock * Game.Op)) (s : Store) :
  Game.reachable s -> Game.reachable (Game.runAll script s).
Proof.
  revert s. induction script as [|[clk o] script IH]; intros s Hs; simpl; auto.
  apply IH. now constructor.
Qed.

Lemma reachable_lobby4 : Game.reachable Sample.lobby4.
Proof.
  unfold Sample.lobby4.
  repeat (apply Game.reach_join; [|discriminate|reflexivity]).
  apply Game.reach_create. discriminate.
Qed.

Lemma reachable_night4 : Game.reachable Sample.night4.
Proof. apply (Game.reach_run _ (Game.OpStartGame _ _ _)), reachable_lobby4. Qed.

Lemma reachable_vote4 : Game.reachable Sample.vote4.
Proof. apply reachable_runAll, reachable_night4. Qed.

Lemma reachable_ended4 : Game.reachable Sample.ended4.
Proof. apply reachable_runAll, reachable_vote4. Qed.

(** ** Exactly-once submission *)

Lemma find_updatePlayers_same (i : string) (f : Player -> Player) (ps : list Player) :
  (forall p, pid (f p) = pid p) ->
  find (fun q => pid q =? i) (updatePlayers i f ps)
  = option_map f (find (fun q => pid q =? i) ps).
Proof.
  intros Hf. unfold updatePlayers.
  induction ps as [|p ps IH]; simpl; [reflexivity|].
  destruct (pid p =? i) eqn:E.
  - now rewrite Hf, E.
  - now rewrite E.
Qed.

(** C8.  Exactly-once submission.  A player whose [nightSubmitted] is
    already true and who submits a night action, with whatever role and
    target, receives [ActionAlreadySubmitted], and the store, the scratch
    fields of the night with it, stays as it is; the same holds for
    [voteSubmitted] and a ballot.  A submission that goes through sets the
    flag, so each player has one action per night and one ballot per vote. *)
Theorem resubmission_is_rejected (clk : Clock) (x : Role) (actor target : string)
        (s : Store) (a : Player) :
  find (fun p => pid p =? actor) (players s) = Some a ->
  (nightSubmitted a = true ->
   RoomService.submitNightAction clk x actor target s = Throw ActionAlreadySubmitted s)
  /\ (voteSubmitted a = true ->
      RoomService.submitVote clk actor target s = Throw ActionAlreadySubmitted s)
  /\ (forall s',
         RoomService.submitNightAction clk x actor target s = Ok s' ->
         exists a', find (fun p => pid p =? actor) (players s') = Some a'
                    /\ nightSubmitted a' = true)
  /\ (forall s',
         RoomService.submitVote clk actor target s = Ok s' ->
         exists a', find (fun p => pid p =? actor) (players s') = Some a'
                    /\ voteSubmitted a' = true).
Proof.
  intros Hfind. split; [|split; [|split]].
  - intros Hns. now apply submitNightAction_once with (a := a).
  - intros Hvs. now apply submitVote_once with (v := a).
  - intros s' Hok. unfold RoomService.submitNightAction in Hok. rewrite Hfind in Hok.
    destruct (nightSubmitted a); [discriminate|].
    pose proof (writeNightAction_players clk x actor target s) as Hw.
    destruct (RoomService.writeNightAction clk x actor target s) as [s1|e s1];
      simpl in Hok, Hw; [|discriminate].
    unfold updatePlayerDoc in Hok.
    destruct (hasPlayer actor (players s1)); [|discriminate].
    injection Hok as <-. simpl.
    rewrite Hw, find_updatePlayers_same by reflexivity. rewrite Hfind.
    eexists. split; reflexivity.
  - intros s' Hok. unfold RoomService.submitVote in Hok. rewrite Hfind in Hok.
    destruct (voteSubmitted a); [discriminate|].
    pose proof (updateRoomDoc_players
                  (RoomService.withVote
                     (RoomService.setVoteOf actor target (serverTs clk))) s) as Hw.
    destruct (updateRoomDoc _ s) as [s1|e s1]; simpl in Hok, Hw; [|discriminate].
    unfold updatePlayerDoc in Hok.
    destruct (hasPlayer actor (players s1)); [|discriminate].
    injection Hok as <-. simpl.
    rewrite Hw, find_updatePlayers_same by reflexivity. rewrite Hfind.
    eexists. split; reflexivity.
Qed.

(** [p1] has sent its kill in the night of [night4Acted]; a second kill is
    rejected. *)
Lemma resubmission_is_rejected_witness :
  RoomService.submitNightAction (Sample.clk 4000) mafia "p1" "p3" Sample.night4Acted
  = Throw ActionAlreadySubmitted Sample.night4Acted.
Proof.
  destruct (find (fun p => pid p =? "p1") (players Sample.night4Acted)) as [a|] eqn:Ha;
    [|vm_compute in Ha; discriminate Ha].
  apply (proj1 (resubmission_is_rejected (Sample.clk 4000) mafia "p1" "p3"
                                         Sample.night4Acted a Ha)).
  vm_compute in Ha. injection Ha as <-. reflexivity.
Defined.

(** The earlier service, [src/firebase/roomService.ts], has no submission
    flags: its two submissions write the room document and leave every
    player document as it is. *)
Lemma legacy_submissions_keep_players (clk : Clock) (x : Role) (actor target : string)
      (s : Store) :
  players (storeOf (LegacyRoomService.submitNightAction clk x actor target s)) = players s
  /\ players (storeOf (LegacyRoomService.submitVote clk actor target s)) = players s.
Proof.
  split.
  - apply writeNightAction_players.
  - apply updateRoomDoc_players.
Qed.

(** ** A vote for an inherited key *)

Lemma votesFor_none (ps : list Player) (vs : list (string * string)) (t : string) :
  (forall e, In e vs -> snd e <> t) -> Spec.votesFor ps vs t = 0.
Proof.
  induction vs as [|e vs IH]; intros H; simpl; [reflexivity|].
  rewrite IH by (intros e' He'; apply H; now right).
  destruct (snd e =? t) eqn:E; [|now rewrite andb_false_r].
  apply String.eqb_eq in E. exfalso. apply (H e); [now left|exact E].
Qed.

(** C3.  The rule of the vote fails for a player whose document id is a
    property name of [Object.prototype].  In the room of
    [Scenes.voteOnInherited], which is reachable, all four players are alive
    and the three ballots, from living voters, all name the living player
    [propertyIsEnumerable]: that player holds the unique maximum of the valid
    votes, three against none.  Yet the tally, a plain object, answers the
    first lookup of that key with the inherited function, so the entry
    becomes a string, the second loop passes it over, and [resolveVote]
    eliminates nobody. *)
Theorem inherited_id_is_never_voted_out :
  Game.reachable Scenes.voteOnInherited
  /\ option_map (fun r => votes (vote r)) (room Scenes.voteOnInherited)
     = Some Scenes.ballotsOnInherited
  /\ map (fun p => (pid p, isAlive p)) (players Scenes.voteOnInherited)
     = [("p1", true); ("p2", true); ("p3", true); ("propertyIsEnumerable", true)]
  /\ Spec.uniqueMax
       (Spec.votesFor (players Scenes.voteOnInherited) Scenes.ballotsOnInherited)
       "propertyIsEnumerable"
  /\ RoomService.tallyVotes (players Scenes.voteOnInherited) Scenes.ballotsOnInherited
     = [("propertyIsEnumerable", RoomService.t_str)]
  /\ exists s',
      RoomService.resolveVote (Sample.clk 166000) None Scenes.voteOnInherited = Ok s'
      /\ option_map (fun r' => eliminatedPlayerId (vote r')) (room s') = Some None
      /\ map isAlive (players s') = [true; true; true; true].
Proof.
  split.
  { unfold Scenes.voteOnInherited. apply reachable_runAll.
    unfold Scenes.lobbyInherited.
    repeat (apply Game.reach_join; [|discriminate|reflexivity]).
    apply Game.reach_create. discriminate. }
  split; [vm_compute; reflexivity|].
  split; [vm_compute; reflexivity|].
  split.
  { split.
    - vm_compute. lia.
    - intros t' Hne. rewrite votesFor_none.
      + vm_compute. lia.
      + intros e He. unfold Scenes.ballotsOnInherited in He. simpl in He.
        destruct He as [<-|[<-|[<-|[]]]]; simpl; congruence. }
  split; [vm_compute; reflexivity|].
  eexists. split; [vm_compute; reflexivity|].
  split; vm_compute; reflexivity.
Qed.

(** ** The ended room *)

(** The service itself holds no guard: the room of [ended4] is reachable
    and has a winner, yet [startVote], called directly, moves its phase from
    "ended" to "vote". *)
Lemma ended_room_counterexample :
  Game.reachable Sample.ended4
  /\ option_map (fun r => (status r, phase r, winner r)) (room Sample.ended4)
     = Some (st_ended, ph_ended, Some w_town)
  /\ option_map (fun r => (status r, phase r, winner r))
                (room (storeOf (Game.run (Sample.clk 200000) (Game.OpStartVote None)
                                         Sample.ended4)))
     = Some (st_ended, ph_vote, Some w_town).
Proof.
  split; [apply reachable_ended4|].
  split; vm_compute; reflexivity.
Qed.

(** C9.  The winner is written twice by the page itself.  The vote of
    [voteAfterKillCast] has expired; a tab of the owner resolves it, [p2] is
    eliminated and the room ends with the mafia as winner.  A second tab of
    the owner that still holds the snapshot of the vote, with status
    "playing" and a lock of its own, passes the guards of [tick] and
    resolves the same vote again from the store the first one left: [p1] is
    eliminated on the one ballot still valid, and the winner of the ended
    room becomes the town. *)
Theorem winner_is_written_twice :
  Game.reachable Sample.voteAfterKillCast
  /\ Host.isHost Scenes.voteTab = true
  /\ option_map (fun r => (status r, phase r, phaseEndsAtMs r, winner r))
                (room Sample.voteAfterKillCast)
     = Some (st_playing, ph_vote, Some 166000%Z, None)
  /\ option_map (fun r => (status r, phase r, winner r)) (room Scenes.voteTickedOnce)
     = Some (st_ended, ph_ended, Some w_mafia)
  /\ map isAlive (players Scenes.voteTickedOnce) = [true; false; true; false]
  /\ option_map (fun r => (status r, phase r, winner r)) (room Scenes.voteTickedTwice)
     = Some (st_ended, ph_ended, Some w_town)
  /\ map isAlive (players Scenes.voteTickedTwice) = [false; false; true; false].
Proof.
  split; [do 3 apply reachable_runAll; apply reachable_night4|].
  repeat split; vm_compute; reflexivity.
Qed.

(** What the guard of [tick] achieves: in every reachable store a room
    with a winner has status "ended", and the host's tick on a snapshot of
    such a room changes neither the store nor the client. *)
Lemma ended_stops_host (s : Store) (r : Room) :
  Game.reachable s -> room s = Some r -> winner r <> None ->
  status r = st_ended
  /\ forall clk dur c, Host.snapshot c = Some r -> Host.tick clk dur c s = (c, s).
Proof.
  intros Hreach Hroom Hwin.
  destruct (reachable_inv s Hreach) as (_ & _ & Hinv).
  assert (Hst : status r = st_ended) by (apply (Hinv r Hroom), Hwin).
  split; [exact Hst|].
  intros clk dur c Hsnap. unfold Host.tick.
  destruct (negb (Host.isHost c)); [reflexivity|].
  rewrite Hsnap, Hst. reflexivity.
Qed.

Lemma ended_stops_host_example :
  Host.tick (Sample.clk 300000) Host.fixedDurations
            (Host.freshClient "p1" Sample.ended4) Sample.ended4
  = (Host.freshClient "p1" Sample.ended4, Sample.ended4).
Proof.
  destruct (room Sample.ended4) as [r|] eqn:Hroom;
    [|vm_compute in Hroom; discriminate Hroom].
  assert (Hwin : winner r <> None).
  { vm_compute in Hroom. injection Hroom as <-. discriminate. }
  destruct (ended_stops_host Sample.ended4 r reachable_ended4 Hroom Hwin) as (_ & Htick).
  apply Htick. exact Hroom.
Defined.

(** ** The host's tick *)

Lemma Phase_eqb_refl (ph : Phase) : Phase_eqb ph ph = true.
Proof. now destruct ph. Qed.

(** C1.  Advancing twice resolves twice.  The night of [night4] has
    expired; a tab of the owner resolves it, and a second tab of the owner
    that still holds the snapshot of that night, with a lock of its own,
    passes the guards of [tick] and resolves it again from the store the
    first one left: the day number is incremented twice and the phase
    deadline is moved a second time. *)
Theorem night_is_resolved_twice :
  Game.reachable Sample.night4
  /\ Host.isHost Sample.ownerTab = true
  /\ option_map (fun r => (status r, phase r, dayNumber r, phaseEndsAtMs r))
                (room Sample.night4)
     = Some (st_playing, ph_night, 0, Some 61000%Z)
  /\ option_map (fun r => (status r, phase r, dayNumber r, phaseEndsAtMs r))
                (room Sample.nightTickedOnce)
     = Some (st_playing, ph_day, 1, Some 121000%Z)
  /\ option_map (fun r => (status r, phase r, dayNumber r, phaseEndsAtMs r))
                (room Sample.nightTickedTwice)
     = Some (st_playing, ph_day, 2, Some 121500%Z)
  /\ Sample.nightTickedTwice <> Sample.nightTickedOnce.
Proof.
  split; [apply reachable_night4|].
  repeat split; try (vm_compute; reflexivity).
  intros H. apply (f_equal (fun s => option_map dayNumber (room s))) in H.
  vm_compute in H. discriminate H.
Qed.

(** The same with a vote: resolved twice, it eliminates [p1] and then, the
    votes for [p1] no longer being valid, [p2]. *)
Lemma double_vote_resolution_example :
  let tab := Host.freshClient "p1" Sample.vote4 in
  let first := Host.tick (Sample.clk 166000) Host.fixedDurations tab Sample.vote4 in
  let second := Host.tick (Sample.clk 166500) Host.fixedDurations tab (snd first) in
  map isAlive (players Sample.vote4) = [true; true; true; true]
  /\ map isAlive (players (snd first)) = [false; true; true; true]
  /\ map isAlive (players (snd second)) = [false; false; true; true].
Proof. repeat split; vm_compute; reflexivity. Qed.

(** What the lock of [tick] achieves: on one host client a resolution that
    did not throw is not repeated.  For a snapshot whose deadline has
    expired, the first tick performs the one resolution of that (phase,
    deadline) instance, and a second tick of the same client on the same
    snapshot, started from what the first one left, changes nothing. *)
Lemma tick_once_per_client (clk1 clk2 : Clock) (dur1 dur2 : Host.Durations)
        (c : Host.Client) (s : Store) (r : Room) (d : Z) :
  Host.snapshot c = Some r ->
  phaseEndsAtMs r = Some d ->
  (d <= nowMs clk1)%Z ->
  isOk (Host.advance clk1 dur1 r s) = true ->
  Host.tick clk2 dur2 (fst (Host.tick clk1 dur1 c s)) (snd (Host.tick clk1 dur1 c s))
  = Host.tick clk1 dur1 c s
  /\ (Host.isHost c = true -> status r = st_playing -> d <> 0%Z ->
      Host.lockEqb (Host.autoLock c) (phase r, d) = false ->
      Host.tick clk1 dur1 c s
      = (Host.mkClient (Host.playerId c) (Host.snapshot c) (Some (phase r, d)),
         storeOf (Host.advance clk1 dur1 r s))).
Proof.
  intros Hsnap Hd Hexp Hok.
  apply Z.leb_le in Hexp.
  assert (Hfire : Host.isHost c = true -> status r = st_playing -> d <> 0%Z ->
                  Host.lockEqb (Host.autoLock c) (phase r, d) = false ->
                  Host.tick clk1 dur1 c s
                  = (Host.mkClient (Host.playerId c) (Host.snapshot c) (Some (phase r, d)),
                     storeOf (Host.advance clk1 dur1 r s))).
  { intros Hhost Hst Hd0 Hlock. unfold Host.tick.
    rewrite Hhost, Hsnap, Hst, Hd. simpl.
    apply Z.eqb_neq in Hd0. rewrite Hd0, Hlock, Hexp. simpl.
    destruct (Host.advance clk1 dur1 r s); [reflexivity|discriminate]. }
  split; [|exact Hfire].
  destruct (Host.isHost c) eqn:Hhost.
  2:{ unfold Host.tick at 2 3. rewrite Hhost. simpl.
      unfold Host.tick. now rewrite Hhost. }
  destruct (Status_eqb (status r) st_playing) eqn:Hst.
  2:{ unfold Host.tick at 2 3. rewrite Hhost, Hsnap, Hst. simpl.
      unfold Host.tick. now rewrite Hhost, Hsnap, Hst. }
  destruct (d =? 0)%Z eqn:Hd0.
  2:{ destruct (Host.lockEqb (Host.autoLock c) (phase r, d)) eqn:Hlock.
      - unfold Host.tick at 2 3. rewrite Hhost, Hsnap, Hst, Hd, Hd0, Hlock. simpl.
        unfold Host.tick. now rewrite Hhost, Hsnap, Hst, Hd, Hd0, Hlock.
      - assert (Hplay : status r = st_playing) by (now destruct (status r)).
        apply Z.eqb_neq in Hd0.
        rewrite (Hfire eq_refl Hplay Hd0 eq_refl). simpl.
        unfold Host.tick, Host.isHost. simpl.
        unfold Host.isHost in Hhost. rewrite Hsnap in *. rewrite Hhost. simpl.
        rewrite Hplay. simpl. rewrite Hd.
        apply Z.eqb_neq in Hd0. rewrite Hd0.
        now rewrite Phase_eqb_refl, Z.eqb_refl. }
  unfold Host.tick at 2 3. rewrite Hhost, Hsnap, Hst, Hd, Hd0. simpl.
  unfold Host.tick. now rewrite Hhost, Hsnap, Hst, Hd, Hd0.
Qed.

(** The owner's tab resolves the expired night of [night4] once; its next
    tick on the same snapshot leaves everything as it is. *)
Lemma tick_once_per_client_example :
  Host.tick (Sample.clk 61500) Host.fixedDurations
            (fst (Host.tick (Sample.clk 61000) Host.fixedDurations
                            Sample.ownerTab Sample.night4))
            (snd (Host.tick (Sample.clk 61000) Host.fixedDurations
                            Sample.ownerTab Sample.night4))
  = Host.tick (Sample.clk 61000) Host.fixedDurations Sample.ownerTab Sample.night4.
Proof.
  destruct (room Sample.night4) as [r|] eqn:Hroom;
    [|vm_compute in Hroom; discriminate Hroom].
  pose proof Hroom as Hr. vm_compute in Hr. injection Hr as Hr.
  destruct (tick_once_per_client (Sample.clk 61000) (Sample.clk 61500)
                                 Host.fixedDurations Host.fixedDurations
                                 Sample.ownerTab Sample.night4 r 61000%Z Hroom)
    as (H & _).
  - subst r. reflexivity.
  - simpl. lia.
  - subst r. vm_compute. reflexivity.
  - exact H.
Defined.

(* ================================================================== *)
(** * Part III: further properties of the code                         *)
(* ================================================================== *)

(** ** [shuffle] and [buildRoles] *)

(** X1.  Whatever [Math.random] returns, [shuffle] returns a rearrangement
    of its argument: the same elements with the same multiplicities, hence
    the same length. *)
Theorem shuffle_rearranges (T : Type) (rnd : Rand) (arr : list T) :
  Permutation (RoomService.shuffle rnd arr) arr
  /\ length (RoomService.shuffle rnd arr) = length arr.
Proof.
  assert (H : Permutation (RoomService.shuffle rnd arr) arr)
    by apply shuffleFrom_Permutation.
  split; [exact H|]. now apply Permutation_length.
Qed.

Lemma filter_repeat_length {A : Type} (f : A -> bool) (x : A) (n : nat) :
  length (filter f (repeat x n)) = if f x then n else 0.
Proof.
  induction n as [|n IH]; simpl; [now destruct (f x)|].
  destruct (f x) eqn:E; simpl; [now rewrite IH|exact IH].
Qed.

(** X2.  For every count, below 4 too, [buildRoles] returns one komissar,
    one doctor and the mafia and don of the policy; it never returns fewer
    than three roles, so for a count below 3 it returns more roles than the
    count asks for. *)
Theorem buildRoles_any_count (rnd : Rand) (n : nat) :
  length (RoomService.buildRoles rnd n) = Nat.max n 3
  /\ Spec.countRole komissar (RoomService.buildRoles rnd n) = 1
  /\ Spec.countRole doctor (RoomService.buildRoles rnd n) = 1
  /\ Spec.countRole mafia (RoomService.buildRoles rnd n) = Spec.mafiaCount n
  /\ Spec.countRole don (RoomService.buildRoles rnd n) = Spec.donCount n
  /\ Spec.countRole unknown (RoomService.buildRoles rnd n) = 0.
Proof.
  split.
  - unfold RoomService.buildRoles. rewrite shuffle_length, rolesFor_closed.
    repeat rewrite length_app. repeat rewrite repeat_length. simpl.
    unfold Spec.mafiaCount, Spec.donCount.
    destruct (n <? 6)%nat eqn:L6, (n <? 9)%nat eqn:L9, (9 <=? n)%nat eqn:H9;
      repeat match goal with
             | H : (_ <=? _)%nat = true |- _ => apply Nat.leb_le in H
             | H : (_ <=? _)%nat = false |- _ => apply Nat.leb_gt in H
             | H : (_ <? _)%nat = true |- _ => apply Nat.ltb_lt in H
             | H : (_ <? _)%nat = false |- _ => apply Nat.ltb_ge in H
             end; lia.
  - repeat rewrite countRole_buildRoles.
    rewrite rolesFor_closed.
    repeat rewrite countRole_app. repeat rewrite countRole_repeat.
    unfold Spec.countRole. simpl.
    repeat split; lia.
Qed.

(** ** [startGame] *)

Lemma applyWrites_player_room (ws : list BatchWrite) (s s' : Store) :
  Forall playerWrite ws -> applyWrites ws s = Some s' -> room s' = room s.
Proof.
  intros Hws. revert s. induction Hws as [|w ws Hw _ IH]; intros s; simpl.
  - now intros [= <-].
  - destruct (applyWrite w s) as [s1|] eqn:E; [|discriminate].
    intros H. rewrite (IH _ H).
    destruct w as [i f|f]; simpl in *; [|contradiction].
    destruct (hasPlayer i (players s)); [|discriminate].
    now injection E as <-.
Qed.

Lemma playerWrite_map (A : Type) (g : A -> string) (h : A -> Player -> Player)
      (l : list A) :
  Forall playerWrite (map (fun a => PlayerUpdate (g a) (h a)) l).
Proof.
  apply Forall_forall. intros w Hw. apply in_map_iff in Hw.
  destruct Hw as (a & <- & _). exact I.
Qed.

(** A batch that ends with a room update cannot commit without the room
    document. *)
Lemma commit_without_room (ws : list BatchWrite) (f : Room -> Room) (s : Store) :
  Forall playerWrite ws -> room s = None ->
  commit (ws ++ [RoomUpdate f]) s = Throw DocNotFound s.
Proof.
  intros Hws Hroom. unfold commit. rewrite applyWrites_app.
  destruct (applyWrites ws s) as [s'|] eqn:E; [|reflexivity].
  simpl. now rewrite (applyWrites_player_room ws s s' Hws E), Hroom.
Qed.

(** X3.  With fewer than four player documents, or without the room
    document, [startGame] throws and leaves the store as it was: no role is
    handed out and no flag is reset. *)
Theorem startGame_rejects (clk : Clock) (rr rp : Rand) (d : option Z) (s : Store) :
  length (players s) < 4 \/ room s = None ->
  exists e,
    RoomService.startGame clk rr rp d s = Throw e s
    /\ (length (players s) < 4 -> e = InvalidPlayerCount)
    /\ (4 <= length (players s) -> e = DocNotFound).
Proof.
  intros H. unfold RoomService.startGame.
  destruct (length (players s) <? 4)%nat eqn:E.
  - apply Nat.ltb_lt in E. exists InvalidPlayerCount.
    split; [reflexivity|]. split; [reflexivity|lia].
  - apply Nat.ltb_ge in E. destruct H as [H|H]; [lia|].
    exists DocNotFound. split.
    + apply commit_without_room; [|exact H].
      apply (playerWrite_map _ (fun pr => pid (fst pr))
                             (fun pr => RoomService.startPlayer (snd pr))).
    + split; [lia|reflexivity].
Qed.

Lemma startGame_rejects_witness :
  RoomService.startGame (Sample.clk 1000) Sample.rnd0 Sample.rnd0 None Scenes.lobby3
  = Throw InvalidPlayerCount Scenes.lobby3.
Proof.
  destruct (startGame_rejects (Sample.clk 1000) Sample.rnd0 Sample.rnd0 None
                              Scenes.lobby3) as (e & He & Hlt & _).
  - left. vm_compute. lia.
  - rewrite He. f_equal. apply Hlt. vm_compute. lia.
Defined.

Lemma assigned_found (l : list (Player * Role)) (p : Player) :
  In (pid p) (map (fun pr => pid (fst pr)) l) ->
  exists x, In x (map snd l) /\ assigned l p = RoomService.startPlayer x p.
Proof.
  intros Hin. unfold assigned.
  destruct (find (fun pr => pid (fst pr) =? pid p) l) as [pr|] eqn:E.
  - exists (snd pr). split; [|reflexivity].
    apply find_some in E. apply in_map. tauto.
  - exfalso. apply in_map_iff in Hin. destruct Hin as (pr & Hpid & Hpr).
    apply (find_none _ _ E) in Hpr. simpl in Hpr.
    rewrite Hpid, String.eqb_refl in Hpr. discriminate.
Qed.

Lemma map_snd_combine {A B : Type} (l1 : list A) (l2 : list B) :
  length l1 = length l2 -> map snd (combine l1 l2) = l2.
Proof.
  revert l2; induction l1 as [|a l1 IH]; intros [|b l2] H; simpl in *;
    try discriminate; auto.
  f_equal. apply IH. lia.
Qed.

(** [startGame], in closed form, when it commits. *)
Lemma startGame_eq (clk : Clock) (rr rp : Rand) (d : option Z) (s : Store) (r : Room) :
  room s = Some r -> NoDup (map pid (players s)) -> 4 <= length (players s) ->
  RoomService.startGame clk rr rp d s
  = Ok (mkStore
          (Some (RoomService.startRoom
                   (RoomService.computeEndsAtMs clk
                      (orElse d (orElse (nightSec (settings r)) 60))) r))
          (map (assigned (combine (RoomService.shuffle rp (players s))
                                  (RoomService.buildRoles rr (length (players s)))))
               (players s))).
Proof.
  intros Hroom Hnd Hlen. unfold RoomService.startGame, RoomService.settingsOf.
  rewrite Hroom.
  destruct (length (players s) <? 4)%nat eqn:E; [apply Nat.ltb_lt in E; lia|].
  set (roles := RoomService.buildRoles rr (length (players s))).
  set (sh := RoomService.shuffle rp (players s)).
  assert (Hperm : Permutation sh (players s)) by apply shuffle_Permutation.
  assert (Hl : length sh = length roles).
  { unfold roles. rewrite buildRoles_length by lia. apply shuffle_length. }
  assert (Hndsh : NoDup (map pid sh)).
  { eapply Permutation_NoDup; [|exact Hnd].
    apply Permutation_map. now symmetry. }
  unfold commit. rewrite applyWrites_app, applyWrites_start.
  - simpl. now rewrite Hroom.
  - rewrite <- map_map, map_fst_combine by exact Hl. exact Hndsh.
  - intros pr Hpr. destruct pr as [q x]. apply in_combine_l in Hpr. simpl.
    apply hasPlayer_self. eapply Permutation_in; eauto.
Qed.

Lemma rolesFor_known (n : nat) (x : Role) :
  In x (RoomService.rolesFor n) -> x <> unknown.
Proof.
  rewrite rolesFor_closed. intros Hin.
  apply in_app_or in Hin. destruct Hin as [Hin|Hin];
    [apply repeat_spec in Hin; subst; discriminate|].
  apply in_app_or in Hin. destruct Hin as [Hin|Hin];
    [apply repeat_spec in Hin; subst; discriminate|].
  simpl in Hin. destruct Hin as [<-|[<-|Hin]]; try discriminate.
  apply repeat_spec in Hin. subst. discriminate.
Qed.

(** X4.  When [startGame] commits (room document in place, at least four
    player documents of distinct ids) it starts from scratch whatever the
    room was before: status playing, phase night, day number 0, no winner,
    empty night, day and vote scratch, the deadline at now plus the night
    duration; every player is alive, not ready, not kicked, with both
    submission flags and the private state cleared, and holds a role other
    than unknown.  Code, owner and settings of the room stay. *)
Theorem startGame_starts_afresh (clk : Clock) (rr rp : Rand) (d : option Z)
        (s : Store) (r : Room) :
  room s = Some r -> NoDup (map pid (players s)) -> 4 <= length (players s) ->
  exists s' r',
    RoomService.startGame clk rr rp d s = Ok s'
    /\ room s' = Some r'
    /\ (status r', phase r', dayNumber r', winner r') = (st_playing, ph_night, 0, None)
    /\ phaseEndsAtMs r'
       = Some (nowMs clk + orElse d (orElse (nightSec (settings r)) 60) * 1000)%Z
    /\ (night r', day r', vote r') = (emptyNight, emptyDay, emptyVote)
    /\ (code r', ownerPlayerId r', settings r') = (code r, ownerPlayerId r, settings r)
    /\ map pid (players s') = map pid (players s)
    /\ forall p, In p (players s') ->
                 role p <> unknown
                 /\ (isAlive p, isReady p, isKicked p) = (true, false, false)
                 /\ (nightSubmitted p, voteSubmitted p) = (false, false)
                 /\ private_lastCheckResult p = None.
Proof.
  intros Hroom Hnd Hlen.
  eexists. eexists.
  split; [exact (startGame_eq clk rr rp d s r Hroom Hnd Hlen)|].
  simpl. split; [reflexivity|].
  repeat (split; [reflexivity|]).
  assert (Hl : length (RoomService.shuffle rp (players s))
               = length (RoomService.buildRoles rr (length (players s)))).
  { rewrite buildRoles_length by lia. apply shuffle_length. }
  split.
  - rewrite map_map. apply map_ext. intros p. unfold assigned.
    now destruct (find _ _).
  - intros p Hp. apply in_map_iff in Hp. destruct Hp as (q & <- & Hq).
    destruct (assigned_found
                (combine (RoomService.shuffle rp (players s))
                         (RoomService.buildRoles rr (length (players s)))) q)
      as (x & Hx & ->).
    + rewrite <- map_map, map_fst_combine by exact Hl.
      apply in_map. eapply Permutation_in; [|exact Hq].
      symmetry. apply shuffle_Permutation.
    + rewrite map_snd_combine in Hx by exact Hl.
      simpl. repeat split.
      apply rolesFor_known with (n := length (players s)).
      eapply Permutation_in; [apply shuffle_Permutation|exact Hx].
Qed.

Lemma startGame_starts_afresh_witness :
  exists s' r',
    RoomService.startGame (Sample.clk 200000) Sample.rnd0 Sample.rnd0 None Sample.ended4
    = Ok s'
    /\ room s' = Some r'
    /\ (status r', phase r', dayNumber r', winner r') = (st_playing, ph_night, 0, None)
    /\ map isAlive (players s') = [true; true; true; true].
Proof.
  destruct (room Sample.ended4) as [r|] eqn:Hroom;
    [|vm_compute in Hroom; discriminate Hroom].
  destruct (startGame_starts_afresh (Sample.clk 200000) Sample.rnd0 Sample.rnd0 None
                                    Sample.ended4 r Hroom)
    as (s' & r' & Hok & Hr' & Hst & _).
  - distinct_ids.
  - vm_compute. lia.
  - exists s', r'. split; [exact Hok|]. split; [exact Hr'|]. split; [exact Hst|].
    vm_compute in Hok. injection Hok as <-. vm_compute. reflexivity.
Defined.

Lemma filter_all {A : Type} (f : A -> bool) (l : list A) :
  (forall x, In x l -> f x = true) -> filter f l = l.
Proof.
  induction l as [|a l IH]; simpl; intros H; [reflexivity|].
  rewrite (H a (or_introl eq_refl)). f_equal. apply IH. intros x Hx. apply H. now right.
Qed.

Lemma filter_map_length {A B : Type} (f : B -> bool) (g : A -> B) (l : list A) :
  length (filter (fun a => f (g a)) l) = length (filter f (map g l)).
Proof.
  induction l as [|a l IH]; simpl; [reflexivity|].
  destruct (f (g a)); simpl; now rewrite IH.
Qed.

Lemma Permutation_filter_length {A : Type} (f : A -> bool) (l l' : list A) :
  Permutation l l' -> length (filter f l) = length (filter f l').
Proof.
  induction 1 as [|x l l' _ IH|x y l|l l' l'' _ IH1 _ IH2]; simpl.
  - reflexivity.
  - destruct (f x); simpl; now rewrite IH.
  - destruct (f x), (f y); reflexivity.
  - now rewrite IH1.
Qed.

Lemma rolesFor_mafia_side (n : nat) :
  length (filter RoomService.isMafiaRole (RoomService.rolesFor n))
  = Spec.mafiaCount n + Spec.donCount n.
Proof.
  rewrite rolesFor_closed.
  repeat rewrite filter_app. repeat rewrite length_app.
  repeat rewrite filter_repeat_length. simpl. lia.
Qed.

(** Every document written by a committed [startGame] is a started player. *)
Lemma startGame_players (clk : Clock) (rr rp : Rand) (d : option Z)
      (s s' : Store) (r : Room) :
  room s = Some r -> NoDup (map pid (players s)) -> 4 <= length (players s) ->
  RoomService.startGame clk rr rp d s = Ok s' ->
  forall p, In p (players s') ->
            exists q x, In q (players s) /\ p = RoomService.startPlayer x q.
Proof.
  intros Hroom Hnd Hlen Hok p Hp.
  rewrite (startGame_eq clk rr rp d s r Hroom Hnd Hlen) in Hok.
  injection Hok as <-. simpl in Hp.
  apply in_map_iff in Hp. destruct Hp as (q & <- & Hq).
  assert (Hl : length (RoomService.shuffle rp (players s))
               = length (RoomService.buildRoles rr (length (players s)))).
  { rewrite buildRoles_length by lia. apply shuffle_length. }
  destruct (assigned_found
              (combine (RoomService.shuffle rp (players s))
                       (RoomService.buildRoles rr (length (players s)))) q)
    as (x & _ & ->).
  - rewrite <- map_map, map_fst_combine by exact Hl.
    apply in_map. eapply Permutation_in; [|exact Hq].
    symmetry. apply shuffle_Permutation.
  - now exists q, x.
Qed.

(** X5.  A game that has just started has no winner: with [n >= 4] players
    the mafia side (mafia and don) holds [mafiaCount n + donCount n] of the
    [n] alive players, which is fewer than the town holds, so [calcWinner]
    on the roster written by [startGame] returns [null]. *)
Theorem started_game_has_no_winner (clk : Clock) (rr rp : Rand) (d : option Z)
        (s : Store) (r : Room) :
  room s = Some r -> NoDup (map pid (players s)) -> 4 <= length (players s) ->
  exists s',
    RoomService.startGame clk rr rp d s = Ok s'
    /\ Spec.aliveMafia (players s')
       = Spec.mafiaCount (length (players s)) + Spec.donCount (length (players s))
    /\ Spec.aliveMafia (players s') < Spec.aliveTown (players s')
    /\ RoomService.calcWinner (players s') = None.
Proof.
  intros Hroom Hnd Hlen.
  destruct (startGame_roles clk rr rp d s r Hroom Hnd Hlen)
    as (s' & Hok & Hpid & Hperm).
  exists s'. split; [exact Hok|].
  set (n := length (players s)) in *.
  assert (Halive : forall p, In p (players s') -> isAlive p = true).
  { intros p Hp.
    destruct (startGame_players clk rr rp d s s' r Hroom Hnd Hlen Hok p Hp)
      as (q & x & _ & ->). reflexivity. }
  assert (Hn : length (players s') = n).
  { rewrite <- (length_map pid), Hpid, length_map. reflexivity. }
  assert (Hm : Spec.aliveMafia (players s') = Spec.mafiaCount n + Spec.donCount n).
  { rewrite <- aliveMafia_filter, (filter_all _ _ Halive).
    rewrite (filter_map_length RoomService.isMafiaRole role).
    rewrite (Permutation_filter_length _ _ _ Hperm).
    unfold RoomService.buildRoles.
    rewrite (Permutation_filter_length _ _ _ (shuffle_Permutation rr _)).
    apply rolesFor_mafia_side. }
  assert (Ht : Spec.aliveTown (players s')
               = n - (Spec.mafiaCount n + Spec.donCount n)).
  { unfold Spec.aliveTown. rewrite Hm, <- countPlayers_filter.
    now rewrite (filter_all _ _ Halive), Hn. }
  assert (Hlt : Spec.mafiaCount n + Spec.donCount n
                < n - (Spec.mafiaCount n + Spec.donCount n)
                /\ 0 < Spec.mafiaCount n + Spec.donCount n).
  { unfold Spec.mafiaCount, Spec.donCount.
    destruct (n <? 6)%nat eqn:L6, (n <? 9)%nat eqn:L9, (9 <=? n)%nat eqn:H9;
      repeat match goal with
             | H : (_ <=? _)%nat = true |- _ => apply Nat.leb_le in H
             | H : (_ <=? _)%nat = false |- _ => apply Nat.leb_gt in H
             | H : (_ <? _)%nat = true |- _ => apply Nat.ltb_lt in H
             | H : (_ <? _)%nat = false |- _ => apply Nat.ltb_ge in H
             end; lia. }
  split; [exact Hm|]. split; [rewrite Hm, Ht; tauto|].
  unfold RoomService.calcWinner.
  rewrite aliveMafia_filter, countPlayers_filter.
  fold (Spec.aliveTown (players s')). rewrite Hm, Ht.
  destruct Hlt as (Hlt & Hpos).
  destruct (Spec.mafiaCount n + Spec.donCount n =? 0)%nat eqn:E0;
    [apply Nat.eqb_eq in E0; lia|].
  apply Nat.leb_gt in Hlt. now rewrite Hlt.
Qed.

Lemma started_game_has_no_winner_witness :
  exists s',
    RoomService.startGame (Sample.clk 1000) Sample.rnd0 Sample.rnd0 None Sample.lobby9
    = Ok s'
    /\ Spec.aliveMafia (players s') = 4
    /\ RoomService.calcWinner (players s') = None.
Proof.
  destruct (room Sample.lobby9) as [r|] eqn:Hroom;
    [|vm_compute in Hroom; discriminate Hroom].
  destruct (started_game_has_no_winner (Sample.clk 1000) Sample.rnd0 Sample.rnd0 None
                                       Sample.lobby9 r Hroom)
    as (s' & Hok & Hm & _ & Hw).
  - distinct_ids.
  - vm_compute. lia.
  - exists s'. split; [exact Hok|]. split; [exact Hm|exact Hw].
Defined.

(** ** [calcWinner] and deaths *)

Lemma calcWinner_town_iff (ps : list Player) :
  RoomService.calcWinner ps = Some w_town <-> Spec.aliveMafia ps = 0.
Proof.
  unfold RoomService.calcWinner. rewrite aliveMafia_filter.
  destruct (Spec.aliveMafia ps =? 0)%nat eqn:E.
  - apply Nat.eqb_eq in E. tauto.
  - apply Nat.eqb_neq in E. split; [|tauto].
    destruct (_ <=? _)%nat; discriminate.
Qed.

Lemma calcWinner_mafia_iff (ps : list Player) :
  RoomService.calcWinner ps = Some w_mafia
  <-> 0 < Spec.aliveMafia ps /\ Spec.aliveTown ps <= Spec.aliveMafia ps.
Proof.
  unfold RoomService.calcWinner. rewrite aliveMafia_filter, countPlayers_filter.
  fold (Spec.aliveTown ps).
  destruct (Spec.aliveMafia ps =? 0)%nat eqn:E.
  - apply Nat.eqb_eq in E. split; [discriminate|lia].
  - apply Nat.eqb_neq in E.
    destruct (Spec.aliveTown ps <=? Spec.aliveMafia ps)%nat eqn:L.
    + apply Nat.leb_le in L. split; [lia|reflexivity].
    + apply Nat.leb_gt in L. split; [discriminate|lia].
Qed.

Lemma calcWinner_none_iff (ps : list Player) :
  RoomService.calcWinner ps = None
  <-> 0 < Spec.aliveMafia ps /\ Spec.aliveMafia ps < Spec.aliveTown ps.
Proof.
  unfold RoomService.calcWinner. rewrite aliveMafia_filter, countPlayers_filter.
  fold (Spec.aliveTown ps).
  destruct (Spec.aliveMafia ps =? 0)%nat eqn:E.
  - apply Nat.eqb_eq in E. split; [discriminate|lia].
  - apply Nat.eqb_neq in E.
    destruct (Spec.aliveTown ps <=? Spec.aliveMafia ps)%nat eqn:L.
    + apply Nat.leb_le in L. split; [discriminate|lia].
    + apply Nat.leb_gt in L. split; [lia|reflexivity].
Qed.

Lemma aliveMafia_le_alive (ps : list Player) :
  Spec.aliveMafia ps <= Spec.countPlayers isAlive ps.
Proof.
  unfold Spec.aliveMafia.
  induction ps as [|p ps IH]; simpl; [lia|].
  destruct (isAlive p), (Spec.mafiaAligned (role p)); simpl; lia.
Qed.

(** A death never adds to a count of alive players. *)
Lemma countAlive_after_le (g : Player -> bool) (x : option string) (ps : list Player) :
  Spec.countPlayers (fun p => isAlive p && g p) (RoomService.playersAfter x ps)
  <= Spec.countPlayers (fun p => isAlive p && g p) ps.
Proof.
  induction ps as [|p ps IH]; simpl; [lia|].
  destruct (RoomService.isId x p); simpl;
    destruct (isAlive p && g p); lia.
Qed.

Lemma alive_after_le (x : option string) (ps : list Player) :
  Spec.countPlayers isAlive (RoomService.playersAfter x ps)
  <= Spec.countPlayers isAlive ps.
Proof.
  induction ps as [|p ps IH]; simpl; [lia|].
  destruct (RoomService.isId x p); simpl; destruct (isAlive p); lia.
Qed.

(** The death of town players leaves the mafia side as it is. *)
Lemma aliveMafia_after_town (x : option string) (ps : list Player) :
  (forall p, In p ps -> RoomService.isId x p = true ->
             RoomService.isMafiaRole (role p) = false) ->
  Spec.aliveMafia (RoomService.playersAfter x ps) = Spec.aliveMafia ps.
Proof.
  unfold Spec.aliveMafia.
  induction ps as [|p ps IH]; intros H; simpl; [reflexivity|].
  rewrite IH by (intros q Hq; apply H; now right).
  destruct (RoomService.isId x p) eqn:E; [|reflexivity].
  simpl. rewrite mafiaAligned_isMafiaRole, (H p (or_introl eq_refl) E).
  now rewrite andb_false_r.
Qed.

(** X6.  A town win is final and a mafia win survives the death of town
    players: [calcWinner] on the roster after one more death ([playersAfter])
    still returns "town" when it returned "town" before, and still returns
    "mafia" when it returned "mafia" before and no victim is mafia or don. *)
Theorem calcWinner_after_death (ps : list Player) (x : option string) :
  (RoomService.calcWinner ps = Some w_town ->
   RoomService.calcWinner (RoomService.playersAfter x ps) = Some w_town)
  /\ (RoomService.calcWinner ps = Some w_mafia ->
      (forall p, In p ps -> RoomService.isId x p = true ->
                 RoomService.isMafiaRole (role p) = false) ->
      RoomService.calcWinner (RoomService.playersAfter x ps) = Some w_mafia).
Proof.
  split.
  - intros H. apply calcWinner_town_iff in H. apply calcWinner_town_iff.
    pose proof (countAlive_after_le (fun p => Spec.mafiaAligned (role p)) x ps) as L.
    unfold Spec.aliveMafia in *. lia.
  - intros H Htown. apply calcWinner_mafia_iff in H. apply calcWinner_mafia_iff.
    rewrite (aliveMafia_after_town x ps Htown).
    pose proof (alive_after_le x ps) as L.
    unfold Spec.aliveTown in *. rewrite (aliveMafia_after_town x ps Htown). lia.
Qed.

Lemma calcWinner_after_death_witness :
  RoomService.calcWinner
    (RoomService.playersAfter (Some "p3") (players Scenes.mafiaWon4))
  = Some w_mafia.
Proof.
  apply (proj2 (calcWinner_after_death (players Scenes.mafiaWon4) (Some "p3"))).
  - vm_compute. reflexivity.
  - intros p Hp. vm_compute in Hp.
    repeat (destruct Hp as [<-|Hp]; [vm_compute; intros; congruence|]).
    contradiction.
Defined.

(** ** Joining a running game *)

Lemma countPlayers_app (f : Player -> bool) (l1 l2 : list Player) :
  Spec.countPlayers f (l1 ++ l2) = Spec.countPlayers f l1 + Spec.countPlayers f l2.
Proof.
  induction l1 as [|p l1 IH]; simpl; [reflexivity|]. rewrite IH. lia.
Qed.

(** X7.  [joinRoom] looks at neither status nor phase: the document it adds
    is alive and holds the role unknown, so [calcWinner] counts a late
    joiner as town.  A roster on which the mafia had just drawn level with
    the town has no winner once somebody joins. *)
Theorem late_joiner_counts_as_town (i nick : string) (s : Store) :
  Spec.aliveMafia (players (RoomService.joinRoom i nick s)) = Spec.aliveMafia (players s)
  /\ Spec.aliveTown (players (RoomService.joinRoom i nick s))
     = Spec.aliveTown (players s) + 1
  /\ (0 < Spec.aliveMafia (players s) ->
      Spec.aliveTown (players s) = Spec.aliveMafia (players s) ->
      RoomService.calcWinner (players s) = Some w_mafia
      /\ RoomService.calcWinner (players (RoomService.joinRoom i nick s)) = None).
Proof.
  assert (Hm : Spec.aliveMafia (players (RoomService.joinRoom i nick s))
               = Spec.aliveMafia (players s)).
  { unfold RoomService.joinRoom, Spec.aliveMafia. simpl.
    rewrite countPlayers_app. simpl. lia. }
  assert (Ha : Spec.countPlayers isAlive (players (RoomService.joinRoom i nick s))
               = Spec.countPlayers isAlive (players s) + 1).
  { unfold RoomService.joinRoom. simpl. rewrite countPlayers_app. reflexivity. }
  assert (Ht : Spec.aliveTown (players (RoomService.joinRoom i nick s))
               = Spec.aliveTown (players s) + 1).
  { unfold Spec.aliveTown. rewrite Hm, Ha.
    pose proof (aliveMafia_le_alive (players s)). lia. }
  split; [exact Hm|]. split; [exact Ht|].
  intros Hpos Heq. split.
  - apply calcWinner_mafia_iff. lia.
  - apply calcWinner_none_iff. lia.
Qed.

Lemma late_joiner_counts_as_town_witness :
  RoomService.calcWinner (players Scenes.mafiaWon4) = Some w_mafia
  /\ RoomService.calcWinner
       (players (RoomService.joinRoom "p5" "Eli" Scenes.mafiaWon4)) = None.
Proof.
  apply (proj2 (proj2 (late_joiner_counts_as_town "p5" "Eli" Scenes.mafiaWon4))).
  - vm_compute. lia.
  - vm_compute. reflexivity.
Defined.

(** ** Night submissions *)

Lemma find_updatePlayers_other (i j : string) (f : Player -> Player) (ps : list Player) :
  i <> j -> (forall p, pid (f p) = pid p) ->
  find (fun q => pid q =? i) (updatePlayers j f ps) = find (fun q => pid q =? i) ps.
Proof.
  intros Hij Hf. unfold updatePlayers.
  induction ps as [|p ps IH]; simpl; [reflexivity|].
  destruct (pid p =? j) eqn:E.
  - rewrite Hf. apply String.eqb_eq in E.
    destruct (pid p =? i) eqn:E'; [apply String.eqb_eq in E'; congruence|].
    exact IH.
  - destruct (pid p =? i); [reflexivity|exact IH].
Qed.

(** [submitNightAction], in closed form, when it goes through. *)
Lemma submitNightAction_eq (clk : Clock) (x : Role) (actor target : string)
      (s : Store) (r : Room) (a : Player) :
  room s = Some r ->
  find (fun p => pid p =? actor) (players s) = Some a ->
  nightSubmitted a = false ->
  RoomService.submitNightAction clk x actor target s
  = Ok (mkStore (Some (nightWrite clk x actor target r))
                (updatePlayers actor (setNightSubmitted true) (players s))).
Proof.
  intros Hroom Hfind Hns. unfold RoomService.submitNightAction.
  rewrite Hfind, Hns.
  pose proof (hasPlayer_find _ _ _ Hfind) as Hhas.
  unfold RoomService.writeNightAction, updateRoomDoc, updatePlayerDoc.
  destruct x; rewrite ?Hroom; simpl; rewrite Hhas, ?Hroom; reflexivity.
Qed.

(** X8.  Mafia and don share one kill slot and the service keeps no record
    of who may write it: when two actors submit with a mafia-side role, both
    calls succeed, the slot holds the second target, and the room document
    is the one the second call alone would have left.  Both actors are
    marked as having submitted. *)
Theorem kill_slot_last_writer_wins (clk1 clk2 : Clock) (x1 x2 : Role)
        (a1 a2 t1 t2 : string) (s : Store) (r : Room) (p1 p2 : Player) :
  room s = Some r ->
  RoomService.isMafiaRole x1 = true -> RoomService.isMafiaRole x2 = true ->
  find (fun p => pid p =? a1) (players s) = Some p1 -> nightSubmitted p1 = false ->
  find (fun p => pid p =? a2) (players s) = Some p2 -> nightSubmitted p2 = false ->
  a1 <> a2 ->
  exists s1 s2 r2,
    RoomService.submitNightAction clk1 x1 a1 t1 s = Ok s1
    /\ RoomService.submitNightAction clk2 x2 a2 t2 s1 = Ok s2
    /\ room s2 = Some r2
    /\ (killTargetId (night r2), killBy (night r2)) = (Some t2, Some a2)
    /\ room s2 = room (storeOf (RoomService.submitNightAction clk2 x2 a2 t2 s))
    /\ (forall p, In p (players s2) -> pid p = a1 \/ pid p = a2 ->
                  nightSubmitted p = true).
Proof.
  intros Hroom Hx1 Hx2 Hf1 Hn1 Hf2 Hn2 Hne.
  pose proof (submitNightAction_eq clk1 x1 a1 t1 s r p1 Hroom Hf1 Hn1) as E1.
  set (r1 := nightWrite clk1 x1 a1 t1 r) in *.
  set (ps1 := updatePlayers a1 (setNightSubmitted true) (players s)) in *.
  exists (mkStore (Some r1) ps1),
         (mkStore (Some (nightWrite clk2 x2 a2 t2 r1))
                  (updatePlayers a2 (setNightSubmitted true) ps1)),
         (nightWrite clk2 x2 a2 t2 r1).
  split; [exact E1|].
  assert (Hf2' : find (fun p => pid p =? a2) ps1 = Some p2).
  { unfold ps1. rewrite find_updatePlayers_other; auto. }
  split.
  { exact (submitNightAction_eq clk2 x2 a2 t2 (mkStore (Some r1) ps1) r1 p2
                                eq_refl Hf2' Hn2). }
  split; [reflexivity|].
  rewrite (submitNightAction_eq clk2 x2 a2 t2 s r p2 Hroom Hf2 Hn2).
  split; [|split].
  - destruct x2; try discriminate; reflexivity.
  - destruct x1, x2; try discriminate; reflexivity.
  - intros p Hp Hpid. simpl in Hp.
    unfold ps1, updatePlayers in Hp.
    apply in_map_iff in Hp. destruct Hp as (q & <- & Hq).
    apply in_map_iff in Hq. destruct Hq as (q0 & <- & _).
    destruct (pid q0 =? a1) eqn:E; simpl.
    + destruct (pid q0 =? a2); reflexivity.
    + destruct (pid q0 =? a2) eqn:E'; [reflexivity|].
      simpl in Hpid.
      apply String.eqb_neq in E. apply String.eqb_neq in E'. tauto.
Qed.

Lemma kill_slot_last_writer_wins_witness :
  exists s1 s2 r2,
    RoomService.submitNightAction (Sample.clk 2000) mafia "q1" "q9" Sample.started9 = Ok s1
    /\ RoomService.submitNightAction (Sample.clk 3000) don "q4" "q8" s1 = Ok s2
    /\ room s2 = Some r2
    /\ (killTargetId (night r2), killBy (night r2)) = (Some "q8", Some "q4").
Proof.
  destruct (room Sample.started9) as [r|] eqn:Hroom;
    [|vm_compute in Hroom; discriminate Hroom].
  destruct (find (fun p => pid p =? "q1") (players Sample.started9)) as [p1|] eqn:H1;
    [|vm_compute in H1; discriminate H1].
  destruct (find (fun p => pid p =? "q4") (players Sample.started9)) as [p2|] eqn:H2;
    [|vm_compute in H2; discriminate H2].
  destruct (kill_slot_last_writer_wins (Sample.clk 2000) (Sample.clk 3000) mafia don
              "q1" "q4" "q9" "q8" Sample.started9 r p1 p2 Hroom eq_refl eq_refl H1)
    as (s1 & s2 & r2 & E1 & E2 & Hr & Hk & _).
  - vm_compute in H1. injection H1 as <-. reflexivity.
  - exact H2.
  - vm_compute in H2. injection H2 as <-. reflexivity.
  - discriminate.
  - exists s1, s2, r2. tauto.
Defined.

(** ** A kill without a victim *)

Lemma checkEffect_standing (clk : Clock) (n : Night) (ps : list Player) (p : Player) :
  standing (checkEffect clk n ps p) = standing p.
Proof.
  unfold checkEffect.
  destruct (truthy (checkTargetId n) && truthy (checkBy n)); [|reflexivity].
  destruct (checkTargetId n); [|reflexivity].
  destruct (checkBy n); [|reflexivity].
  destruct (find _ ps); [|reflexivity].
  now destruct (pid p =? s0).
Qed.

Lemma standing_pid (ps qs : list Player) :
  map standing ps = map standing qs -> map pid ps = map pid qs.
Proof.
  intros H.
  assert (E : forall l, map pid l = map (fun t => fst (fst t)) (map standing l))
    by (intros l; rewrite map_map; reflexivity).
  now rewrite (E ps), (E qs), H.
Qed.

(** A night whose victim has no document is not resolved: the call throws,
    and what it leaves behind is blocked in the same way. *)
Lemma resolveNight_blocked (clk : Clock) (d : option Z) (s : Store) (r : Room) (k : string) :
  room s = Some r ->
  RoomService.killedOf (night r) = Some k ->
  hasPlayer k (players s) = false ->
  exists s', RoomService.resolveNight clk d s = Throw DocNotFound s'
             /\ room s' = Some r
             /\ map standing (players s') = map standing (players s).
Proof.
  intros Hroom Hk Hno.
  rewrite (resolveNight_eq clk d s r Hroom). rewrite Hk. simpl. rewrite Hno.
  destruct (checkCommits (night r) (players s)).
  - eexists. split; [reflexivity|]. split; [exact Hroom|].
    simpl. rewrite map_map. apply map_ext. intros p. apply checkEffect_standing.
  - exists s. auto.
Qed.

Lemma resolveNight_blocked_again (script : list (Clock * option Z)) (s : Store)
      (r : Room) (k : string) :
  room s = Some r ->
  RoomService.killedOf (night r) = Some k ->
  hasPlayer k (players s) = false ->
  let s' := Game.runAll (map (fun cd => (fst cd, Game.OpResolveNight (snd cd))) script) s in
  room s' = Some r /\ map standing (players s') = map standing (players s).
Proof.
  revert s. induction script as [|[clk d] script IH]; intros s Hroom Hk Hno; simpl.
  - auto.
  - destruct (resolveNight_blocked clk d s r k Hroom Hk Hno) as (s1 & E & Hr1 & Hst).
    rewrite E. simpl.
    assert (Hno1 : hasPlayer k (players s1) = false).
    { rewrite (hasPlayer_map_pid k _ _ (standing_pid _ _ Hst)). exact Hno. }
    destruct (IH s1 Hr1 Hk Hno1) as (Hr & Hs).
    split; [exact Hr|]. now rewrite Hs.
Qed.

(** X9.  [submitNightAction] does not look the target up.  A kill aimed at
    an id that names no player document (and is not the saved id) is
    accepted; after it [resolveNight] throws, because its batch updates the
    missing document, and however often it is retried the room document and
    every player's id, role and life stay as they are: the night is never
    resolved. *)
Theorem ghost_kill_blocks_night (clk : Clock) (x : Role) (actor target : string)
        (s : Store) (r : Room) (a : Player) :
  room s = Some r ->
  find (fun p => pid p =? actor) (players s) = Some a ->
  nightSubmitted a = false ->
  RoomService.isMafiaRole x = true ->
  target <> "" ->
  hasPlayer target (players s) = false ->
  saveTargetId (night r) <> Some target ->
  exists s1,
    RoomService.submitNightAction clk x actor target s = Ok s1
    /\ (forall clk' d, exists s2, RoomService.resolveNight clk' d s1 = Throw DocNotFound s2)
    /\ forall script,
         let s' := Game.runAll
                     (map (fun cd => (fst cd, Game.OpResolveNight (snd cd))) script) s1 in
         room s' = room s1
         /\ map standing (players s') = map standing (players s1).
Proof.
  intros Hroom Hfind Hns Hx Hne Hno Hsave.
  eexists. split; [exact (submitNightAction_eq clk x actor target s r a Hroom Hfind Hns)|].
  set (s1 := mkStore (Some (nightWrite clk x actor target r))
                     (updatePlayers actor (setNightSubmitted true) (players s))).
  assert (Hk : RoomService.killedOf (night (nightWrite clk x actor target r)) = Some target).
  { assert (Hn : killTargetId (night (nightWrite clk x actor target r)) = Some target
                 /\ saveTargetId (night (nightWrite clk x actor target r))
                    = saveTargetId (night r))
      by (destruct x; try discriminate; split; reflexivity).
    destruct Hn as (Hkt & Hsv).
    unfold RoomService.killedOf. rewrite Hkt, Hsv. simpl.
    destruct (target =? "") eqn:E; [apply String.eqb_eq in E; contradiction|].
    simpl. destruct (saveTargetId (night r)) as [sv|]; simpl; [|reflexivity].
    destruct (target =? sv) eqn:E'; [|reflexivity].
    apply String.eqb_eq in E'. congruence. }
  assert (Hno1 : hasPlayer target (players s1) = false).
  { simpl. now rewrite hasPlayer_updatePlayers. }
  split.
  - intros clk' d.
    destruct (resolveNight_blocked clk' d s1 _ target eq_refl Hk Hno1) as (s2 & E & _).
    now exists s2.
  - intros script.
    exact (resolveNight_blocked_again script s1 _ target eq_refl Hk Hno1).
Qed.

Lemma ghost_kill_blocks_night_witness :
  exists s1,
    RoomService.submitNightAction (Sample.clk 2000) mafia "p1" "nobody" Sample.night4 = Ok s1
    /\ exists s2,
        RoomService.resolveNight (Sample.clk 61000) None s1 = Throw DocNotFound s2.
Proof.
  destruct (room Sample.night4) as [r|] eqn:Hroom;
    [|vm_compute in Hroom; discriminate Hroom].
  destruct (find (fun p => pid p =? "p1") (players Sample.night4)) as [a|] eqn:Ha;
    [|vm_compute in Ha; discriminate Ha].
  destruct (ghost_kill_blocks_night (Sample.clk 2000) mafia "p1" "nobody"
              Sample.night4 r a Hroom Ha) as (s1 & E & Hthrow & _).
  - vm_compute in Ha. injection Ha as <-. reflexivity.
  - reflexivity.
  - discriminate.
  - vm_compute. reflexivity.
  - vm_compute in Hroom. injection Hroom as <-. discriminate.
  - exists s1. split; [exact E|]. apply Hthrow.
Defined.

(** ** After a resolution *)

Lemma resolveNight_Ok_room (clk : Clock) (d : option Z) (s s' : Store) :
  RoomService.resolveNight clk d s = Ok s' -> exists r, room s = Some r.
Proof.
  unfold RoomService.resolveNight.
  destruct (room s) as [r|]; [eauto|discriminate].
Qed.

Lemma nightRoomUpdate_night (clk : Clock) (w : option Winner) (d : Z)
      (k sv : option string) (r : Room) :
  night (RoomService.nightRoomUpdate clk w d k sv r)
  = RoomService.resolvedNight (serverTs clk) k sv.
Proof. now destruct w. Qed.

(** X10.  A committed [resolveNight] leaves nothing of the night behind:
    the three pending targets are gone and every player's [nightSubmitted]
    is false again.  So a further [resolveNight] on the result always
    commits and takes no life, whoever calls it and when. *)
Theorem resolved_night_cannot_kill_again (clk : Clock) (d : option Z) (s s' : Store) :
  RoomService.resolveNight clk d s = Ok s' ->
  exists r',
    room s' = Some r'
    /\ (killTargetId (night r'), saveTargetId (night r'), checkTargetId (night r'))
       = (None, None, None)
    /\ (forall p, In p (players s') -> nightSubmitted p = false)
    /\ forall clk' d',
         exists s'',
           RoomService.resolveNight clk' d' s' = Ok s''
           /\ map standing (players s'') = map standing (players s').
Proof.
  intros Hok. destruct (resolveNight_Ok_room clk d s s' Hok) as (r & Hroom).
  rewrite (resolveNight_eq clk d s r Hroom) in Hok.
  destruct (checkCommits (night r) (players s)); [|discriminate].
  destruct (victimExists (RoomService.killedOf (night r)) (players s)); [|discriminate].
  injection Hok as <-.
  match goal with
  | |- exists r', room (mkStore (Some ?r1) ?ps1) = _ /\ _ =>
      set (r' := r1); set (ps' := ps1); exists r'
  end.
  assert (Hn : night r' = RoomService.resolvedNight (serverTs clk)
                            (RoomService.killedOf (night r)) (saveTargetId (night r)))
    by apply nightRoomUpdate_night.
  split; [reflexivity|]. rewrite Hn.
  split; [reflexivity|]. split.
  - intros p Hp. simpl in Hp. apply in_map_iff in Hp.
    destruct Hp as (q & <- & _). reflexivity.
  - intros clk' d'. eexists. split.
    + rewrite (resolveNight_eq clk' d' (mkStore (Some r') ps') r' eq_refl).
      rewrite Hn. reflexivity.
    + simpl. rewrite map_map. apply map_ext. intros p. reflexivity.
Qed.

Lemma resolved_night_cannot_kill_again_witness :
  exists s' s'',
    RoomService.resolveNight (Sample.clk 61000) None Sample.night4Acted = Ok s'
    /\ map isAlive (players s') = [true; true; true; false]
    /\ RoomService.resolveNight (Sample.clk 61500) None s' = Ok s''
    /\ map isAlive (players s'') = [true; true; true; false].
Proof.
  destruct (RoomService.resolveNight (Sample.clk 61000) None Sample.night4Acted)
    as [s'|e s'] eqn:E; [|vm_compute in E; discriminate E].
  destruct (resolved_night_cannot_kill_again _ _ _ _ E) as (r' & _ & _ & _ & Hagain).
  destruct (Hagain (Sample.clk 61500) None) as (s'' & E2 & Hst).
  exists s', s''.
  assert (Hal : map isAlive (players s') = [true; true; true; false]).
  { vm_compute in E. injection E as <-. reflexivity. }
  split; [reflexivity|]. split; [exact Hal|]. split; [exact E2|].
  rewrite <- Hal.
  assert (Hmap : forall l, map isAlive l = map snd (map standing l))
    by (intros l; rewrite map_map; reflexivity).
  now rewrite (Hmap (players s'')), Hst, <- Hmap.
Defined.

(** [startVote], in closed form. *)
Lemma startVote_eq (clk : Clock) (d : option Z) (s : Store) (r : Room) :
  room s = Some r ->
  RoomService.startVote clk d s
  = Ok (mkStore (Some (RoomService.voteRoomUpdate clk
                         (orElse d (orElse (voteSec (settings r)) 45)) r))
                (map (setVoteSubmitted false) (players s))).
Proof.
  intros Hroom. unfold RoomService.startVote, RoomService.settingsOf. rewrite Hroom.
  exact (commit_resolution None (setVoteSubmitted false)
           (RoomService.voteRoomUpdate clk (orElse d (orElse (voteSec (settings r)) 45)))
           (players s) s r Hroom eq_refl (fun _ => eq_refl) (fun _ => eq_refl) eq_refl).
Qed.

(** [resolveVote] on a room without ballots. *)
Lemma resolveVote_no_ballots (clk : Clock) (d : option Z) (s : Store) (r : Room) :
  room s = Some r -> votes (vote r) = [] ->
  RoomService.resolveVote clk d s
  = Ok (mkStore
          (Some (RoomService.voteResolveUpdate clk
                   (RoomService.calcWinner (RoomService.playersAfter None (players s)))
                   (orElse d (orElse (nightSec (settings r)) 60)) None r))
          (map (setVoteSubmitted false) (players s))).
Proof.
  intros Hroom Hv. unfold RoomService.resolveVote. rewrite Hroom, Hv.
  change (RoomService.eliminatedOf (players s) []) with (@None string).
  exact (commit_resolution None (setVoteSubmitted false)
           (RoomService.voteResolveUpdate clk
              (RoomService.calcWinner (RoomService.playersAfter None (players s)))
              (orElse d (orElse (nightSec (settings r)) 60)) None)
           (players s) s r Hroom eq_refl (fun _ => eq_refl) (fun _ => eq_refl) eq_refl).
Qed.

(** X11.  [startVote] wipes the ballots and the [voteSubmitted] flags of an
    earlier vote, whatever they were.  A vote resolved right after it was
    started therefore eliminates nobody and leaves every player's id, role
    and life as they were before the vote started. *)
Theorem fresh_vote_eliminates_nobody (clk clk' : Clock) (d d' : option Z)
        (s : Store) (r : Room) :
  room s = Some r ->
  exists s1 r1 s2 r2,
    RoomService.startVote clk d s = Ok s1
    /\ room s1 = Some r1
    /\ votes (vote r1) = []
    /\ (forall p, In p (players s1) -> voteSubmitted p = false)
    /\ RoomService.resolveVote clk' d' s1 = Ok s2
    /\ room s2 = Some r2
    /\ eliminatedPlayerId (vote r2) = None
    /\ map standing (players s2) = map standing (players s).
Proof.
  intros Hroom.
  eexists. eexists. eexists. eexists.
  split; [exact (startVote_eq clk d s r Hroom)|].
  split; [reflexivity|]. split; [reflexivity|]. split.
  { intros p Hp. simpl in Hp. apply in_map_iff in Hp.
    destruct Hp as (q & <- & _). reflexivity. }
  split.
  { apply resolveVote_no_ballots; reflexivity. }
  split; [reflexivity|]. split.
  - unfold RoomService.voteResolveUpdate.
    destruct (RoomService.calcWinner _); reflexivity.
  - simpl. rewrite !map_map. apply map_ext. intros p. reflexivity.
Qed.

Lemma fresh_vote_eliminates_nobody_witness :
  option_map (fun r => votes (vote r)) (room Sample.vote4)
  = Some [("p2", "p1"); ("p3", "p1"); ("p4", "p2")]
  /\ exists s1 s2 r2,
      RoomService.startVote (Sample.clk 170000) None Sample.vote4 = Ok s1
      /\ RoomService.resolveVote (Sample.clk 215000) None s1 = Ok s2
      /\ room s2 = Some r2
      /\ eliminatedPlayerId (vote r2) = None.
Proof.
  split; [vm_compute; reflexivity|].
  destruct (room Sample.vote4) as [r|] eqn:Hroom;
    [|vm_compute in Hroom; discriminate Hroom].
  destruct (fresh_vote_eliminates_nobody (Sample.clk 170000) (Sample.clk 215000)
              None None Sample.vote4 r Hroom)
    as (s1 & r1 & s2 & r2 & E1 & _ & _ & _ & E2 & Hr2 & He & _).
  exists s1, s2, r2. tauto.
Defined.

(** ** What every operation does to the room document *)

Lemma applyWrites_stepsRoom (R : Room -> Room -> Prop) (ws : list BatchWrite)
      (s s' : Store) (r : Room) :
  (forall a, R a a) -> (forall a b c, R a b -> R b c -> R a c) ->
  Forall (stepsRoom R) ws -> applyWrites ws s = Some s' -> room s = Some r ->
  exists r', room s' = Some r' /\ R r r'.
Proof.
  intros Hrefl Htrans Hws. revert s r.
  induction Hws as [|w ws Hw _ IH]; intros s r; simpl.
  - intros [= <-] Hr. eauto.
  - destruct (applyWrite w s) as [s1|] eqn:E; [|discriminate].
    intros H Hr. destruct w as [i f|f]; simpl in *.
    + destruct (hasPlayer i (players s)); [|discriminate].
      injection E as <-. apply (IH _ r H). exact Hr.
    + rewrite Hr in E. injection E as <-.
      destruct (IH _ (f r) H eq_refl) as (r' & Hr' & HR).
      exists r'. split; [exact Hr'|]. eapply Htrans; eauto.
Qed.

Lemma commit_stepsRoom (R : Room -> Room -> Prop) (ws : list BatchWrite)
      (s : Store) (r : Room) :
  (forall a, R a a) -> (forall a b c, R a b -> R b c -> R a c) ->
  Forall (stepsRoom R) ws -> room s = Some r ->
  exists r', room (storeOf (commit ws s)) = Some r' /\ R r r'.
Proof.
  intros Hrefl Htrans Hws Hr. unfold commit.
  destruct (applyWrites ws s) as [s'|] eqn:E; simpl; [|eauto].
  eapply applyWrites_stepsRoom; eauto.
Qed.

Lemma stepsRoom_players (R : Room -> Room -> Prop) (A : Type) (g : A -> BatchWrite)
      (l : list A) :
  (forall a, exists i f, g a = PlayerUpdate i f) ->
  Forall (stepsRoom R) (map g l).
Proof.
  intros Hg. apply Forall_forall. intros w Hw. apply in_map_iff in Hw.
  destruct Hw as (a & <- & _). destruct (Hg a) as (i & f & ->). exact I.
Qed.

Lemma updateRoomDoc_step (R : Room -> Room -> Prop) (f : Room -> Room) (s : Store) (r : Room) :
  R r (f r) -> room s = Some r ->
  exists r', room (storeOf (updateRoomDoc f s)) = Some r' /\ R r r'.
Proof.
  intros HR Hr. unfold updateRoomDoc. rewrite Hr. simpl. eauto.
Qed.

(** Every operation keeps the room document and moves it along any
    reflexive and transitive relation that each of the service's room
    updates respects. *)
Lemma run_room (R : Room -> Room -> Prop) (clk : Clock) (o : Game.Op) (s : Store) (r : Room) :
  (forall a, R a a) -> (forall a b c, R a b -> R b c -> R a c) ->
  roomSteps R -> room s = Some r ->
  exists r', room (storeOf (Game.run clk o s)) = Some r' /\ R r r'.
Proof.
  intros Hrefl Htrans (Hstart & Hnight & Hvote & HresN & HstartV & HresV) Hr.
  destruct o as [rr rp d|x a t|d|d|v t|d]; simpl.
  - unfold RoomService.startGame.
    destruct (length (players s) <? 4)%nat; [simpl; eauto|].
    apply commit_stepsRoom; auto. apply Forall_app. split.
    + apply stepsRoom_players. intros pr. eauto.
    + repeat constructor. intros r0. apply Hstart.
  - unfold RoomService.submitNightAction.
    destruct (find _ (players s)) as [actor|]; [|simpl; eauto].
    destruct (nightSubmitted actor); [simpl; eauto|].
    rewrite storeOf_bind.
    assert (Hw : exists r', room (storeOf (RoomService.writeNightAction clk x a t s)) = Some r'
                            /\ R r r').
    { unfold RoomService.writeNightAction.
      destruct x; try (simpl; eauto; fail); apply updateRoomDoc_step; auto. }
    destruct (RoomService.writeNightAction clk x a t s) as [s1|e s1]; simpl in Hw;
      [|exact Hw].
    now rewrite updatePlayerDoc_room.
  - unfold RoomService.resolveNight. rewrite Hr.
    rewrite storeOf_bind, writeCheckResult_eq.
    destruct (checkCommits (night r) (players s)); [|simpl; eauto].
    apply commit_stepsRoom; auto.
    apply Forall_app. split.
    + destruct (RoomService.killedOf (night r)); repeat constructor.
    + apply Forall_app. split; [apply stepsRoom_players; intros p; eauto|].
      repeat constructor. intros r0. apply HresN.
  - unfold RoomService.startVote. apply commit_stepsRoom; auto.
    apply Forall_app. split; [apply stepsRoom_players; intros p; eauto|].
    repeat constructor. intros r0. apply HstartV.
  - unfold RoomService.submitVote.
    destruct (find _ (players s)) as [voter|]; [|simpl; eauto].
    destruct (voteSubmitted voter); [simpl; eauto|].
    rewrite storeOf_bind.
    pose proof (updateRoomDoc_step R
                  (RoomService.withVote (RoomService.setVoteOf v t (serverTs clk))) s r
                  (Hvote _ _ _ _) Hr) as Hw.
    destruct (updateRoomDoc _ s) as [s1|e s1]; simpl in Hw; [|exact Hw].
    now rewrite updatePlayerDoc_room.
  - unfold RoomService.resolveVote. rewrite Hr.
    apply commit_stepsRoom; auto.
    apply Forall_app. split.
    + destruct (truthy _); [|constructor].
      destruct (RoomService.eliminatedOf _ _); repeat constructor.
    + apply Forall_app. split; [apply stepsRoom_players; intros p; eauto|].
      repeat constructor. intros r0. apply HresV.
Qed.

(** An invariant of the room document, from its creation on. *)
Lemma reachable_room (P : Room -> Prop) (s : Store) :
  (forall c i nick r, room (RoomService.createRoom c i nick) = Some r -> P r) ->
  roomSteps (fun a b => P a -> P b) ->
  Game.reachable s -> exists r, room s = Some r /\ P r.
Proof.
  intros Hinit Hsteps.
  induction 1 as [c i nick Hi|i nick s Hs IH Hi Hfresh|clk o s Hs IH].
  - eexists. split; [reflexivity|]. apply (Hinit c i nick). reflexivity.
  - exact IH.
  - destruct IH as (r & Hr & HP).
    destruct (run_room (fun a b => P a -> P b) clk o s r) as (r' & Hr' & HR); auto.
    eauto.
Qed.

(** X12.  No operation of the service writes the code, the owner or the
    settings of a room, and none deletes the room document: whatever is
    called, in whatever state and whether it commits or throws, these four
    fields are afterwards what they were.  A restarted game keeps its host. *)
Theorem room_identity_is_fixed (clk : Clock) (o : Game.Op) (s : Store) (r : Room) :
  room s = Some r ->
  exists r', room (storeOf (Game.run clk o s)) = Some r' /\ identity r' = identity r.
Proof.
  intros Hr.
  apply (run_room (fun a b => identity b = identity a) clk o s r); auto.
  - intros a b c H1 H2. congruence.
  - repeat split; intros; try reflexivity.
    + unfold RoomService.nightRoomUpdate. now destruct w.
    + unfold RoomService.voteResolveUpdate. now destruct w.
Qed.

Lemma room_identity_is_fixed_witness :
  exists r',
    room (storeOf (Game.run (Sample.clk 200000)
                            (Game.OpStartGame Sample.rnd0 Sample.rnd0 (Some 30%Z))
                            Sample.ended4)) = Some r'
    /\ identity r'
       = ("123456", "Alex", Some "p1", mkSettings (Some 60%Z) (Some 60%Z) (Some 45%Z)).
Proof.
  destruct (room Sample.ended4) as [r|] eqn:Hroom;
    [|vm_compute in Hroom; discriminate Hroom].
  destruct (room_identity_is_fixed (Sample.clk 200000)
              (Game.OpStartGame Sample.rnd0 Sample.rnd0 (Some 30%Z))
              Sample.ended4 r Hroom) as (r' & Hr' & Hid).
  exists r'. split; [exact Hr'|]. rewrite Hid.
  vm_compute in Hroom. injection Hroom as <-. reflexivity.
Defined.

(** X13.  Every room has a host who is one of its players: in every
    reachable store the room document exists, names an owner with a
    non-empty id, a player document with that id exists, and a tab of that
    player passes [isHost]. *)
Theorem reachable_owner_is_player (s : Store) :
  Game.reachable s ->
  exists r o,
    room s = Some r
    /\ ownerPlayerId r = Some o
    /\ o <> ""
    /\ hasPlayer o (players s) = true
    /\ Host.isHost (Host.freshClient o s) = true.
Proof.
  intros Hs.
  assert (H : exists r o, room s = Some r /\ ownerPlayerId r = Some o /\ o <> ""
                          /\ hasPlayer o (players s) = true).
  { induction Hs as [c i nick Hi|i nick s Hs IH Hi Hfresh|clk o s Hs IH].
    - exists (mkRoom c st_lobby ph_lobby 0 nick (Some i) None None
                     (mkSettings (Some 60%Z) (Some 60%Z) (Some 45%Z))
                     emptyNight emptyDay emptyVote), i.
      repeat split; auto. simpl. now rewrite String.eqb_refl.
    - destruct IH as (r & o & Hr & Ho & Hne & Hhas).
      exists r, o. repeat split; auto. simpl.
      unfold hasPlayer in *. rewrite existsb_app, Hhas. reflexivity.
    - destruct IH as (r & o0 & Hr & Ho & Hne & Hhas).
      destruct (run_room (fun a b => identity b = identity a) clk o s r)
        as (r' & Hr' & Hid); auto.
      + intros a b c H1 H2. congruence.
      + repeat split; intros; try reflexivity.
        * unfold RoomService.nightRoomUpdate. now destruct w.
        * unfold RoomService.voteResolveUpdate. now destruct w.
      + exists r', o0. repeat split; auto.
        * unfold identity in Hid. congruence.
        * rewrite (hasPlayer_map_pid o0 _ _ (run_pids clk o s)). exact Hhas. }
  destruct H as (r & o & Hr & Ho & Hne & Hhas).
  exists r, o. repeat split; auto.
  unfold Host.isHost, Host.freshClient. simpl. rewrite Hr, Ho. simpl.
  rewrite String.eqb_refl.
  destruct (o =? "") eqn:E; [apply String.eqb_eq in E; contradiction|reflexivity].
Qed.

Lemma reachable_owner_is_player_witness :
  exists r o,
    room Sample.ended4 = Some r
    /\ ownerPlayerId r = Some o
    /\ hasPlayer o (players Sample.ended4) = true.
Proof.
  destruct (reachable_owner_is_player Sample.ended4 reachable_ended4)
    as (r & o & Hr & Ho & _ & Hhas & _).
  exists r, o. tauto.
Defined.

(** X14.  A room whose phase is "ended" is ended for good: in every
    reachable store such a room has status "ended", no deadline and a
    winner. *)
Theorem reachable_ended_phase (s : Store) :
  Game.reachable s ->
  exists r, room s = Some r /\ endedForGood r.
Proof.
  apply reachable_room.
  - intros c i nick r [= <-]. intros H. discriminate H.
  - unfold roomSteps, endedForGood.
    split; [|split; [|split; [|split; [|split]]]].
    + intros e r _ H. discriminate H.
    + intros f r H. exact H.
    + intros v t ts r H. exact H.
    + intros c w d k sv r _ H.
      destruct w; simpl in *; [|discriminate].
      repeat split; auto. discriminate.
    + intros c d r _ H. discriminate H.
    + intros c w d e r _ H.
      destruct w; simpl in *; [|discriminate].
      repeat split; auto. discriminate.
Qed.

Lemma reachable_ended_phase_witness :
  exists r, room Sample.ended4 = Some r /\ endedForGood r.
Proof.
  exact (reachable_ended_phase Sample.ended4 reachable_ended4).
Defined.

(** ** Ballots and living players *)

Lemma NoDup_map_fst_filter {A B : Type} (f : A * B -> bool) (l : list (A * B)) :
  NoDup (map fst l) -> NoDup (map fst (filter f l)).
Proof.
  induction l as [|e l IH]; simpl; intros H; [constructor|].
  inversion H as [|? ? Hnin Hnd]; subst.
  destruct (f e); simpl; [|now apply IH].
  constructor; [|now apply IH].
  intros Hin. apply Hnin. apply in_map_iff in Hin.
  destruct Hin as (e' & He' & Hin). apply filter_In in Hin.
  apply in_map_iff. exists e'. tauto.
Qed.

Lemma aliveId_In (ps : list Player) (i : string) :
  Spec.aliveId ps i = true -> In i (map pid (filter isAlive ps)).
Proof.
  unfold Spec.aliveId. intros H. apply existsb_exists in H.
  destruct H as (p & Hp & Hc). apply andb_prop in Hc. destruct Hc as (Hi & Ha).
  apply String.eqb_eq in Hi. apply in_map_iff. exists p. split; [exact Hi|].
  apply filter_In. tauto.
Qed.

Lemma valid_ballots_le_alive (ps : list Player) (vs : list (string * string)) :
  NoDup (map fst vs) ->
  length (filter (Spec.validVote ps) vs) <= Spec.countPlayers isAlive ps.
Proof.
  intros Hnd. rewrite <- countPlayers_filter.
  rewrite <- (length_map fst), <- (length_map pid (filter isAlive ps)).
  apply NoDup_incl_length.
  - now apply NoDup_map_fst_filter.
  - intros i Hi. apply in_map_iff in Hi. destruct Hi as (e & <- & He).
    apply filter_In in He. destruct He as (_ & Hv).
    unfold Spec.validVote in Hv. apply andb_prop in Hv.
    apply aliveId_In. tauto.
Qed.

Lemma reachable_ballots (s : Store) :
  Game.reachable s -> exists r, room s = Some r /\ oneBallotEach r.
Proof.
  apply reachable_room.
  - intros c i nick r [= <-]. constructor.
  - unfold roomSteps, oneBallotEach.
    split; [|split; [|split; [|split; [|split]]]].
    + intros e r _. constructor.
    + intros f r H. exact H.
    + intros v t ts r H. simpl. now apply setEntry_NoDup.
    + intros c w d k sv r _. destruct w; constructor.
    + intros c d r _. constructor.
    + intros c w d e r H. destruct w; exact H.
Qed.

(** X15.  The ballots of a room are keyed by voter, and this is kept by
    every operation: in every reachable store no voter holds two ballots,
    so the ballots that [resolveVote] counts (voter and target both alive)
    are never more than the living players. *)
Theorem reachable_one_ballot_each (s : Store) :
  Game.reachable s ->
  exists r,
    room s = Some r
    /\ oneBallotEach r
    /\ length (filter (Spec.validVote (players s)) (votes (vote r)))
       <= Spec.countPlayers isAlive (players s).
Proof.
  intros Hs. destruct (reachable_ballots s Hs) as (r & Hr & Hnd).
  exists r. split; [exact Hr|]. split; [exact Hnd|].
  now apply valid_ballots_le_alive.
Qed.

Lemma reachable_one_ballot_each_witness :
  exists r,
    room Sample.voteAfterKillCast = Some r
    /\ length (filter (Spec.validVote (players Sample.voteAfterKillCast)) (votes (vote r)))
       <= Spec.countPlayers isAlive (players Sample.voteAfterKillCast).
Proof.
  destruct (reachable_one_ballot_each Sample.voteAfterKillCast) as (r & Hr & _ & Hle).
  - unfold Sample.voteAfterKillCast, Sample.voteAfterKill, Sample.night4Acted.
    repeat apply reachable_runAll. exact reachable_night4.
  - exists r. split; [exact Hr|exact Hle].
Defined.

(** ** What every operation does to the player documents *)

Section PlayerSteps.

Variable R : Player -> Player -> Prop.
Hypothesis R_refl : forall p, R p p.
Hypothesis R_trans : forall a b c, R a b -> R b c -> R a c.

Lemma Forall2_steps_refl (l : list Player) : Forall2 R l l.
Proof. induction l; constructor; auto. Qed.

Lemma Forall2_steps_trans (l1 l2 l3 : list Player) :
  Forall2 R l1 l2 -> Forall2 R l2 l3 -> Forall2 R l1 l3.
Proof.
  intros H. revert l3. induction H as [|p q l1 l2 Hpq _ IH]; intros l3 H3.
  - inversion H3. constructor.
  - inversion H3 as [|? t ? l3' Hqt H3']; subst. constructor.
    + eapply R_trans; eauto.
    + now apply IH.
Qed.

Lemma Forall2_steps_map (g : Player -> Player) (l : list Player) :
  (forall p, R p (g p)) -> Forall2 R l (map g l).
Proof. intros Hg. induction l; simpl; constructor; auto. Qed.

Lemma updatePlayers_steps (i : string) (f : Player -> Player) (ps : list Player) :
  (forall p, R p (f p)) -> Forall2 R ps (updatePlayers i f ps).
Proof.
  intros Hf. apply Forall2_steps_map. intros p.
  destruct (pid p =? i); [apply Hf|apply R_refl].
Qed.

Lemma applyWrites_steps (ws : list BatchWrite) (s s' : Store) :
  Forall (stepsPlayer R) ws -> applyWrites ws s = Some s' ->
  Forall2 R (players s) (players s').
Proof.
  intros Hws. revert s. induction Hws as [|w ws Hw _ IH]; intros s; simpl.
  - intros [= <-]. apply Forall2_steps_refl.
  - destruct (applyWrite w s) as [s1|] eqn:E; [|discriminate].
    intros H. apply Forall2_steps_trans with (l2 := players s1); [|now apply IH].
    destruct w as [i f|f]; simpl in *.
    + destruct (hasPlayer i (players s)); [|discriminate].
      injection E as <-. simpl. now apply updatePlayers_steps.
    + destruct (room s); [|discriminate]. injection E as <-.
      apply Forall2_steps_refl.
Qed.

Lemma commit_steps (ws : list BatchWrite) (s : Store) :
  Forall (stepsPlayer R) ws -> Forall2 R (players s) (players (storeOf (commit ws s))).
Proof.
  intros Hws. unfold commit.
  destruct (applyWrites ws s) as [s'|] eqn:E; simpl.
  - now apply applyWrites_steps with (ws := ws).
  - apply Forall2_steps_refl.
Qed.

Lemma updatePlayerDoc_steps (i : string) (f : Player -> Player) (s : Store) :
  (forall p, R p (f p)) ->
  Forall2 R (players s) (players (storeOf (updatePlayerDoc i f s))).
Proof.
  intros Hf. unfold updatePlayerDoc.
  destruct (hasPlayer i (players s)); simpl.
  - now apply updatePlayers_steps.
  - apply Forall2_steps_refl.
Qed.

Lemma stepsPlayer_resets (f : Player -> Player) (l : list Player) :
  (forall p, R p (f p)) ->
  Forall (stepsPlayer R) (map (fun p => PlayerUpdate (pid p) f) l).
Proof.
  intros Hf. apply Forall_forall. intros w Hw. apply in_map_iff in Hw.
  destruct Hw as (p & <- & _). exact Hf.
Qed.

Lemma stepsPlayer_kill (x : option string) :
  (forall p, R p (setAlive false p)) ->
  Forall (stepsPlayer R) match x with
                         | Some k => [PlayerUpdate k (setAlive false)]
                         | None => []
                         end.
Proof. intros H. destruct x; repeat constructor. exact H. Qed.

Lemma checkEffect_steps (clk : Clock) (n : Night) (ps : list Player) (p : Player) :
  (forall c p, R p (setLastCheckResult c p)) -> R p (checkEffect clk n ps p).
Proof.
  intros H. unfold checkEffect.
  destruct (truthy (checkTargetId n) && truthy (checkBy n)); [|apply R_refl].
  destruct (checkTargetId n); [|apply R_refl].
  destruct (checkBy n); [|apply R_refl].
  destruct (find _ ps); [|apply R_refl].
  destruct (pid p =? s0); [apply H|apply R_refl].
Qed.

(** Every operation but [startGame] moves each player document along any
    reflexive and transitive relation that the service's player updates
    respect. *)
Lemma run_players (clk : Clock) (o : Game.Op) (s : Store) :
  playerSteps R -> startsGame o = false ->
  Forall2 R (players s) (players (storeOf (Game.run clk o s))).
Proof.
  intros (Hkill & Hns & Hvs & Hcr) Ho.
  destruct o as [rr rp d|x a t|d|d|v t|d]; simpl; [discriminate| | | | |].
  - unfold RoomService.submitNightAction.
    destruct (find _ (players s)) as [actor|]; [|apply Forall2_steps_refl].
    destruct (nightSubmitted actor); [apply Forall2_steps_refl|].
    rewrite storeOf_bind.
    pose proof (writeNightAction_players clk x a t s) as Hw.
    destruct (RoomService.writeNightAction clk x a t s) as [s1|e s1]; simpl in Hw.
    + rewrite <- Hw. apply updatePlayerDoc_steps. apply Hns.
    + rewrite Hw. apply Forall2_steps_refl.
  - unfold RoomService.resolveNight.
    destruct (room s) as [r|]; [|apply Forall2_steps_refl].
    rewrite storeOf_bind, writeCheckResult_eq.
    destruct (checkCommits (night r) (players s)); [|apply Forall2_steps_refl].
    eapply Forall2_steps_trans; [|apply commit_steps].
    + simpl. apply Forall2_steps_map. intros p. now apply checkEffect_steps.
    + apply Forall_app. split; [now apply stepsPlayer_kill|].
      apply Forall_app. split; [|repeat constructor].
      apply stepsPlayer_resets. apply Hns.
  - unfold RoomService.startVote. apply commit_steps.
    apply Forall_app. split; [|repeat constructor].
    apply stepsPlayer_resets. apply Hvs.
  - unfold RoomService.submitVote.
    destruct (find _ (players s)) as [voter|]; [|apply Forall2_steps_refl].
    destruct (voteSubmitted voter); [apply Forall2_steps_refl|].
    rewrite storeOf_bind.
    pose proof (updateRoomDoc_players
                  (RoomService.withVote (RoomService.setVoteOf v t (serverTs clk))) s) as Hw.
    destruct (updateRoomDoc _ s) as [s1|e s1]; simpl in Hw.
    + rewrite <- Hw. apply updatePlayerDoc_steps. apply Hvs.
    + rewrite Hw. apply Forall2_steps_refl.
  - unfold RoomService.resolveVote.
    destruct (room s) as [r|]; [|apply Forall2_steps_refl].
    apply commit_steps. apply Forall_app. split.
    + destruct (truthy _); [now apply stepsPlayer_kill|constructor].
    + apply Forall_app. split; [|repeat constructor].
      apply stepsPlayer_resets. apply Hvs.
Qed.

End PlayerSteps.

Lemma survives_refl (p : Player) : survives p p.
Proof. unfold survives. auto. Qed.

Lemma survives_trans (p q t : Player) : survives p q -> survives q t -> survives p t.
Proof.
  unfold survives. intros (H1 & H2 & H3) (H4 & H5 & H6).
  repeat split; try congruence; auto.
Qed.

Lemma survives_steps : playerSteps survives.
Proof. unfold playerSteps, survives. repeat split; simpl; auto; discriminate. Qed.

(** X16.  Only [startGame] deals roles and only [startGame] revives: after
    any other operation, committed or thrown, every player document has the
    id and the role it had, and a player who is alive was alive before. *)
Theorem only_startGame_revives (clk : Clock) (o : Game.Op) (s : Store) :
  startsGame o = false ->
  Forall2 survives (players s) (players (storeOf (Game.run clk o s))).
Proof.
  apply run_players.
  - exact survives_refl.
  - exact survives_trans.
  - exact survives_steps.
Qed.

Lemma only_startGame_revives_witness :
  Forall2 survives
          (players Sample.ended4)
          (players (storeOf (Game.run (Sample.clk 200000) (Game.OpResolveNight None)
                                      Sample.ended4))).
Proof.
  apply (only_startGame_revives (Sample.clk 200000) (Game.OpResolveNight None)
                                Sample.ended4).
  reflexivity.
Defined.

(** ** The two versions of [resolveNight] *)

(** The earlier [resolveNight], in closed form. *)
Lemma legacy_resolveNight_eq (clk : Clock) (d : option Z) (s : Store) (r : Room) :
  room s = Some r ->
  let n := night r in
  let ps := players s in
  let killed := RoomService.killedOf n in
  LegacyRoomService.resolveNight clk d s
  = if victimExists killed ps then
      Ok (mkStore
            (Some (LegacyRoomService.nightRoomUpdate clk
                     (RoomService.calcWinner (RoomService.playersAfter killed ps))
                     (orElse d 60) (LegacyRoomService.checkResultOf n ps)
                     killed (saveTargetId n) r))
            (RoomService.playersAfter killed ps))
    else Throw DocNotFound s.
Proof.
  intros Hroom n ps killed. unfold LegacyRoomService.resolveNight. rewrite Hroom.
  fold n ps killed. unfold commit.
  destruct killed as [k|]; simpl.
  - fold ps. destruct (hasPlayer k ps); simpl; [|reflexivity].
    now rewrite Hroom.
  - rewrite Hroom. unfold RoomService.playersAfter. simpl.
    now rewrite map_id.
Qed.

Lemma afterResolution_standing (x : option string) (f : Player -> Player) (p q : Player) :
  (forall p, standing (f p) = standing p) ->
  standing q = standing p ->
  standing (afterResolution x f q)
  = standing (if RoomService.isId x p then setAlive false p else p).
Proof.
  intros Hf Hq. unfold afterResolution. rewrite Hf.
  unfold standing in Hq. injection Hq as H1 H2 H3.
  unfold RoomService.isId. rewrite H1.
  destruct x as [i|]; [destruct (pid p =? i)|]; unfold standing; simpl; congruence.
Qed.

(** X17.  The rewrite of [resolveNight] kept the outcome of the night.
    Called with the same store, clock and day duration, the earlier version
    commits whenever the current one does, and the two leave every player
    with the same id, role and life and the room with the same status,
    phase, day number, deadline, winner and last killed and saved player. *)
Theorem resolveNight_versions_agree (clk : Clock) (d : Z) (s sc : Store) :
  RoomService.resolveNight clk (Some d) s = Ok sc ->
  exists sl,
    LegacyRoomService.resolveNight clk (Some d) s = Ok sl
    /\ map standing (players sl) = map standing (players sc)
    /\ option_map verdict (room sl) = option_map verdict (room sc).
Proof.
  intros Hok. destruct (resolveNight_Ok_room clk (Some d) s sc Hok) as (r & Hroom).
  rewrite (resolveNight_eq clk (Some d) s r Hroom) in Hok.
  rewrite (legacy_resolveNight_eq clk (Some d) s r Hroom).
  destruct (checkCommits (night r) (players s)); [|discriminate].
  destruct (victimExists (RoomService.killedOf (night r)) (players s)); [|discriminate].
  injection Hok as <-.
  eexists. split; [reflexivity|]. split.
  - simpl. unfold RoomService.playersAfter. rewrite !map_map.
    apply map_ext. intros p. symmetry.
    apply afterResolution_standing; [reflexivity|].
    apply checkEffect_standing.
  - simpl. unfold verdict, RoomService.nightRoomUpdate, LegacyRoomService.nightRoomUpdate.
    destruct (RoomService.calcWinner _); reflexivity.
Qed.

Lemma resolveNight_versions_agree_witness :
  exists sc sl,
    RoomService.resolveNight (Sample.clk 61000) (Some 60%Z) Sample.night4Acted = Ok sc
    /\ LegacyRoomService.resolveNight (Sample.clk 61000) (Some 60%Z) Sample.night4Acted
       = Ok sl
    /\ map standing (players sl) = map standing (players sc).
Proof.
  destruct (RoomService.resolveNight (Sample.clk 61000) (Some 60%Z) Sample.night4Acted)
    as [sc|e sc] eqn:E; [|vm_compute in E; discriminate E].
  destruct (resolveNight_versions_agree _ _ _ _ E) as (sl & El & Hst & _).
  exists sc, sl. split; [reflexivity|]. split; [exact El|exact Hst].
Defined.

(** ** The winner and the roster *)

Lemma counts_standing (ps qs : list Player) :
  map standing ps = map standing qs ->
  Spec.countPlayers isAlive ps = Spec.countPlayers isAlive qs
  /\ Spec.aliveMafia ps = Spec.aliveMafia qs.
Proof.
  unfold Spec.aliveMafia. revert qs.
  induction ps as [|p ps IH]; intros [|q qs] H; simpl in *; try discriminate; auto.
  pose proof (f_equal (@tl _) H) as Hrest. simpl in Hrest.
  assert (Hrole : role p = role q) by (injection H; auto).
  assert (Halive : isAlive p = isAlive q) by (injection H; auto).
  destruct (IH qs Hrest) as (H1 & H2). rewrite H1, H2, Hrole, Halive. auto.
Qed.

Lemma calcWinner_standing (ps qs : list Player) :
  map standing ps = map standing qs ->
  RoomService.calcWinner ps = RoomService.calcWinner qs.
Proof.
  intros H. destruct (counts_standing ps qs H) as (H1 & H2).
  unfold RoomService.calcWinner.
  now rewrite !aliveMafia_filter, !countPlayers_filter, H1, H2.
Qed.

Lemma resolveVote_Ok_room (clk : Clock) (d : option Z) (s s' : Store) :
  RoomService.resolveVote clk d s = Ok s' -> exists r, room s = Some r.
Proof.
  unfold RoomService.resolveVote.
  destruct (room s) as [r|]; [eauto|discriminate].
Qed.

(** X18.  Both resolutions decide the winner on the roster they leave
    behind.  When [resolveNight] or [resolveVote] commits, [calcWinner] of
    the stored players tells what the room holds: with a winner the room
    has status and phase "ended", that winner and no deadline; without one
    the room has moved to the next phase (day, with the day number raised
    by one, or night) and kept status and winner as they were. *)
Theorem resolution_winner_matches_roster (clk : Clock) (d : option Z) (s s' : Store) :
  (RoomService.resolveNight clk d s = Ok s' ->
   exists r r',
     room s = Some r /\ room s' = Some r'
     /\ match RoomService.calcWinner (players s') with
        | Some w => (status r', phase r', winner r', phaseEndsAtMs r')
                    = (st_ended, ph_ended, Some w, None)
        | None => (status r', phase r', winner r', dayNumber r')
                  = (status r, ph_day, winner r, dayNumber r + 1)
        end)
  /\ ((forall p, In p (players s) -> pid p <> "") ->
      RoomService.resolveVote clk d s = Ok s' ->
      exists r r',
        room s = Some r /\ room s' = Some r'
        /\ match RoomService.calcWinner (players s') with
           | Some w => (status r', phase r', winner r', phaseEndsAtMs r')
                       = (st_ended, ph_ended, Some w, None)
           | None => (status r', phase r', winner r', dayNumber r')
                     = (status r, ph_night, winner r, dayNumber r)
           end).
Proof.
  split.
  - intros Hok. destruct (resolveNight_Ok_room clk d s s' Hok) as (r & Hroom).
    rewrite (resolveNight_eq clk d s r Hroom) in Hok.
    destruct (checkCommits (night r) (players s)); [|discriminate].
    destruct (victimExists (RoomService.killedOf (night r)) (players s)); [|discriminate].
    injection Hok as <-.
    exists r. eexists. split; [exact Hroom|]. split; [reflexivity|].
    simpl.
    rewrite (calcWinner_standing _ (RoomService.playersAfter
                                      (RoomService.killedOf (night r)) (players s))).
    + destruct (RoomService.calcWinner _); reflexivity.
    + unfold RoomService.playersAfter. rewrite !map_map.
      apply map_ext. intros p.
      apply afterResolution_standing; [reflexivity|].
      apply checkEffect_standing.
  - intros Hne Hok. destruct (resolveVote_Ok_room clk d s s' Hok) as (r & Hroom).
    rewrite (resolveVote_eq clk d s r Hroom Hne) in Hok.
    injection Hok as <-.
    exists r. eexists. split; [exact Hroom|]. split; [reflexivity|].
    simpl.
    rewrite (calcWinner_standing _ (RoomService.playersAfter
                                      (RoomService.eliminatedOf (players s)
                                                                (votes (vote r)))
                                      (players s))).
    + destruct (RoomService.calcWinner _); reflexivity.
    + unfold RoomService.playersAfter. rewrite !map_map.
      apply map_ext. intros p.
      apply afterResolution_standing; reflexivity.
Qed.

Lemma resolution_winner_matches_roster_witness :
  exists s' r',
    RoomService.resolveVote (Sample.clk 166000) None Sample.vote4 = Ok s'
    /\ room s' = Some r'
    /\ RoomService.calcWinner (players s') = Some w_town
    /\ (status r', phase r', winner r', phaseEndsAtMs r')
       = (st_ended, ph_ended, Some w_town, None).
Proof.
  destruct (RoomService.resolveVote (Sample.clk 166000) None Sample.vote4)
    as [s'|e s'] eqn:E; [|vm_compute in E; discriminate E].
  destruct (proj2 (resolution_winner_matches_roster (Sample.clk 166000) None
                                                    Sample.vote4 s'))
    as (r & r' & _ & Hr' & Hw).
  - nonempty_ids.
  - exact E.
  - assert (Hc : RoomService.calcWinner (players s') = Some w_town).
    { vm_compute in E. injection E as <-. vm_compute. reflexivity. }
    rewrite Hc in Hw. exists s', r'. tauto.
Defined.

(** ** Starting through the page *)

Lemma Forall2_In_r {A : Type} (R : A -> A -> Prop) (l l' : list A) (y : A) :
  Forall2 R l l' -> In y l' -> exists x, In x l /\ R x y.
Proof.
  induction 1 as [|a b l l' Hab _ IH]; simpl; [contradiction|].
  intros [<-|Hin].
  - exists a. auto.
  - destruct (IH Hin) as (x & Hx & HR). exists x. auto.
Qed.

Lemma underWay_clickReady (i : string) (s : Store) :
  underWay s -> storeOf (Page.clickReady (Page.freshTab i s) s) = s.
Proof.
  intros ((r & Hr & Hst) & _ & _). unfold Page.clickReady, Page.readyDisabled.
  destruct (Page.me (Page.freshTab i s)); [|reflexivity].
  unfold Page.statusIs, Page.freshTab, Host.freshClient. simpl. rewrite Hr.
  destruct (status r); simpl; [contradiction|reflexivity|reflexivity].
Qed.

Lemma underWay_clickStart (i : string) (clk : Clock) (rr rp : Rand) (s : Store) :
  underWay s -> snd (Page.clickStart clk rr rp (Page.freshTab i s) s) = s.
Proof.
  intros (_ & Hne & Hready). unfold Page.clickStart, Page.startDisabled.
  assert (Hall : Page.allReady (Page.freshTab i s) = false).
  { unfold Page.allReady, Page.freshTab. simpl.
    destruct (players s) as [|p ps]; [contradiction|]. simpl.
    now rewrite (Hready p (or_introl eq_refl)). }
  rewrite Hall. simpl. now rewrite andb_false_r.
Qed.

Lemma underWay_call (clk : Clock) (o : Game.Op) (s : Store) :
  underWay s -> startsGame o = false -> underWay (storeOf (Game.run clk o s)).
Proof.
  intros ((r & Hr & Hst) & Hne & Hready) Ho. split; [|split].
  - destruct (run_room (fun a b => status a <> st_lobby -> status b <> st_lobby)
                       clk o s r) as (r' & Hr' & HR); auto.
    + unfold roomSteps. split; [|split; [|split; [|split; [|split]]]].
      * intros e r0 _. discriminate.
      * intros f r0 H. exact H.
      * intros v t ts r0 H. exact H.
      * intros c w d k sv r0 H. destruct w; [discriminate|exact H].
      * intros c d r0 H. exact H.
      * intros c w d e r0 H. destruct w; [discriminate|exact H].
    + exists r'. auto.
  - intros Hnil. apply Hne.
    pose proof (run_pids clk o s) as Hp. rewrite Hnil in Hp.
    destruct (players s); [reflexivity|discriminate].
  - intros q Hq.
    pose proof (run_players (fun p p' => isReady p' = isReady p)
                            (fun p => eq_refl)
                            (fun a b c H1 H2 => eq_trans H2 H1) clk o s) as Hrun.
    destruct (Forall2_In_r _ _ _ q (Hrun ltac:(repeat split) Ho) Hq) as (p & Hp & HR).
    rewrite HR. now apply Hready.
Qed.

Lemma underWay_session (es : list Event) (s : Store) :
  underWay s -> Forall throughPage es ->
  Forall2 survives (players s) (players (session es s)).
Proof.
  revert s. induction es as [|e es IH]; intros s Hs Hes; simpl.
  - apply Forall2_steps_refl. exact survives_refl.
  - inversion Hes as [|? ? He Hes']; subst.
    assert (Hstep : underWay (happen s e)
                    /\ Forall2 survives (players s) (players (happen s e))).
    { destruct e as [i|i clk rr rp|clk o]; simpl in *.
      - rewrite underWay_clickReady by exact Hs.
        split; [exact Hs|]. apply Forall2_steps_refl. exact survives_refl.
      - rewrite underWay_clickStart by exact Hs.
        split; [exact Hs|]. apply Forall2_steps_refl. exact survives_refl.
      - split; [now apply underWay_call|].
        apply run_players;
          [exact survives_refl|exact survives_trans|exact survives_steps|exact He]. }
    destruct Hstep as (Hs' & Hsurv).
    eapply Forall2_steps_trans; [exact survives_trans|exact Hsurv|].
    apply IH; assumption.
Qed.

(** X19.  Through the page the roles of a room are dealt once.  After a
    committed [startGame] nobody is ready and the room has left the lobby;
    the Ready button is then disabled and the Start button refuses, and no
    other operation makes a player ready or takes the room back to the
    lobby.  So whatever clicks on Ready and Start (in tabs holding current
    snapshots) and whatever service calls other than a direct [startGame]
    follow, every player keeps the role dealt at the start, and the dead
    stay dead. *)
Theorem page_deals_roles_once (clk : Clock) (rr rp : Rand) (d : option Z)
        (s : Store) (r : Room) (es : list Event) :
  room s = Some r -> NoDup (map pid (players s)) -> 4 <= length (players s) ->
  Forall throughPage es ->
  exists s1,
    RoomService.startGame clk rr rp d s = Ok s1
    /\ underWay s1
    /\ Forall2 survives (players s1) (players (session es s1)).
Proof.
  intros Hroom Hnd Hlen Hes.
  destruct (startGame_roles clk rr rp d s r Hroom Hnd Hlen) as (s1 & Hok & Hpid & _).
  exists s1. split; [exact Hok|].
  assert (Hs1 : underWay s1).
  { split; [|split].
    - pose proof Hok as Hok'.
      rewrite (startGame_eq clk rr rp d s r Hroom Hnd Hlen) in Hok'.
      injection Hok' as <-. eexists. split; [reflexivity|]. discriminate.
    - intros Hnil. rewrite Hnil in Hpid. simpl in Hpid.
      destruct (players s); [simpl in Hlen; lia|discriminate].
    - intros p Hp.
      destruct (startGame_players clk rr rp d s s1 r Hroom Hnd Hlen Hok p Hp)
        as (q & x & _ & ->). reflexivity. }
  split; [exact Hs1|]. now apply underWay_session.
Qed.

Lemma page_deals_roles_once_witness :
  exists s1,
    RoomService.startGame (Sample.clk 1000) Sample.rnd0 Sample.rnd0 None Sample.lobby4
    = Ok s1
    /\ Forall2 survives (players s1) (players (session Scenes.afterStart s1)).
Proof.
  destruct (room Sample.lobby4) as [r|] eqn:Hroom;
    [|vm_compute in Hroom; discriminate Hroom].
  destruct (page_deals_roles_once (Sample.clk 1000) Sample.rnd0 Sample.rnd0 None
                                  Sample.lobby4 r Scenes.afterStart Hroom)
    as (s1 & Hok & _ & Hsurv).
  - distinct_ids.
  - vm_compute. lia.
  - unfold Scenes.afterStart. repeat constructor.
  - exists s1. split; [exact Hok|exact Hsurv].
Defined.

(** ** The host's settings *)

Lemma clampSec_bounds (x dflt : Z) :
  (10 <= Page.clampSec x dflt <= 300)%Z
  /\ ((10 <= x <= 300)%Z -> Page.clampSec x dflt = x)
  /\ (x = 0%Z -> (10 <= dflt <= 300)%Z -> Page.clampSec x dflt = dflt).
Proof.
  unfold Page.clampSec. repeat split.
  - lia.
  - lia.
  - intros H. destruct (x =? 0)%Z eqn:E; [apply Z.eqb_eq in E|]; lia.
  - intros -> H. simpl. lia.
Qed.

(** X20.  Only the host saves settings, and what is saved is bounded.
    [onSaveSettings] in a tab that is not the host's leaves the store as it
    is.  In the host's tab it replaces the three durations, and nothing else
    of the room, by values between 10 and 300: an input in that range is
    kept, and an input of 0 gives the default (60, 60, 45) rather than the
    lower bound.  The durations the host's auto-advance reads from that
    room are these values. *)
Theorem saved_settings_are_bounded (n d v : Z) (t : Page.Tab) (s : Store) (r : Room) :
  room s = Some r ->
  (Host.isHost (Page.client t) = false -> Page.onSaveSettings n d v t s = s)
  /\ (Host.isHost (Page.client t) = true ->
      exists n' d' v',
        Page.onSaveSettings n d v t s
        = mkStore (Some (LobbyService.withSettings
                           (mkSettings (Some n') (Some d') (Some v')) r))
                  (players s)
        /\ Host.settingsDurations
             (LobbyService.withSettings (mkSettings (Some n') (Some d') (Some v')) r)
           = Host.mkDurations n' d' v'
        /\ (10 <= n' <= 300 /\ 10 <= d' <= 300 /\ 10 <= v' <= 300)%Z
        /\ ((10 <= n <= 300)%Z -> n' = n)
        /\ ((10 <= d <= 300)%Z -> d' = d)
        /\ ((10 <= v <= 300)%Z -> v' = v)
        /\ (n = 0%Z -> n' = 60%Z) /\ (d = 0%Z -> d' = 60%Z) /\ (v = 0%Z -> v' = 45%Z)).
Proof.
  intros Hroom. unfold Page.onSaveSettings. split.
  - intros ->. reflexivity.
  - intros ->. simpl.
    exists (Page.clampSec n 60), (Page.clampSec d 60), (Page.clampSec v 45).
    split.
    { unfold LobbyService.updateRoomSettings, updateRoomDoc. rewrite Hroom. reflexivity. }
    split; [reflexivity|].
    pose proof (clampSec_bounds n 60) as (Hn1 & Hn2 & Hn3).
    pose proof (clampSec_bounds d 60) as (Hd1 & Hd2 & Hd3).
    pose proof (clampSec_bounds v 45) as (Hv1 & Hv2 & Hv3).
    repeat split; try tauto; intros H;
      [apply Hn3|apply Hd3|apply Hv3]; auto; lia.
Qed.

Lemma saved_settings_are_bounded_witness :
  exists n' d' v',
    option_map settings
               (room (Page.onSaveSettings 0 120 45 Scenes.ownerPage Sample.night4))
    = Some (mkSettings (Some n') (Some d') (Some v'))
    /\ (n' = 60 /\ d' = 120 /\ v' = 45)%Z.
Proof.
  destruct (room Sample.night4) as [r|] eqn:Hroom;
    [|vm_compute in Hroom; discriminate Hroom].
  destruct (proj2 (saved_settings_are_bounded 0 120 45 Scenes.ownerPage
                                              Sample.night4 r Hroom))
    as (n' & d' & v' & E & _ & _ & _ & Hd & Hv & Hn & _).
  - vm_compute. reflexivity.
  - exists n', d', v'. rewrite E. split; [reflexivity|].
    split; [apply Hn; reflexivity|]. split; [apply Hd; lia|apply Hv; lia].
Defined.

(** ** The countdown *)

Lemma ceilDiv_bounds (a : Z) :
  (1000 * (Page.ceilDiv a 1000 - 1) < a <= 1000 * Page.ceilDiv a 1000)%Z.
Proof.
  unfold Page.ceilDiv.
  pose proof (Z.div_mod (- a) 1000 ltac:(lia)) as H.
  pose proof (Z.mod_pos_bound (- a) 1000 ltac:(lia)) as Hm.
  lia.
Qed.

(** X21.  The countdown and the auto-advance.  The countdown is computed
    from the tab's state [nowMs], which an interval of its own sets to the
    clock once a second; [tick] reads the clock itself.  When [timeLeftSec]
    shows a number [x] for the state [now], the room is playing, [x] is the
    time from [now] to the deadline rounded up to whole seconds, and [x] is
    at most 0 exactly when the deadline is not after [now].  Once the
    countdown shows 0 or less, a [tick] of the host's tab that reads a clock
    not before that state, and whose lock is not set for this phase and
    deadline, runs the resolution of the snapshot's phase. *)
Theorem expired_countdown_lets_tick_advance (t : Page.Tab) (now x : Z) :
  Page.timeLeftSec t now = Some x ->
  exists r ends,
    Host.snapshot (Page.client t) = Some r
    /\ phaseEndsAtMs r = Some ends
    /\ status r = st_playing
    /\ (1000 * (x - 1) < ends - now <= 1000 * x)%Z
    /\ ((x <= 0)%Z <-> (ends <= now)%Z)
    /\ (forall clk dur s,
           (x <= 0)%Z ->
           (now <= nowMs clk)%Z ->
           Host.isHost (Page.client t) = true ->
           Host.lockEqb (Host.autoLock (Page.client t)) (phase r, ends) = false ->
           Host.tick clk dur (Page.client t) s
           = match Host.advance clk dur r s with
             | Ok s' => (Host.mkClient (Host.playerId (Page.client t))
                                       (Host.snapshot (Page.client t))
                                       (Some (phase r, ends)), s')
             | Throw _ s' => (Host.mkClient (Host.playerId (Page.client t))
                                            (Host.snapshot (Page.client t)) None, s')
             end).
Proof.
  intros Hx. unfold Page.timeLeftSec in Hx.
  destruct (Host.snapshot (Page.client t)) as [r|] eqn:Hsnap; [|discriminate].
  destruct (phaseEndsAtMs r) as [ends|] eqn:He; [|discriminate].
  destruct (ends =? 0)%Z eqn:Hz; [discriminate|].
  destruct (Phase_eqb (phase r) ph_ended); [discriminate|].
  destruct (status r) eqn:Hst; simpl in Hx; try discriminate.
  injection Hx as <-. exists r, ends.
  pose proof (ceilDiv_bounds (ends - now)) as Hb.
  split; [reflexivity|]. split; [exact He|]. split; [exact Hst|].
  split; [lia|]. split; [lia|].
  intros clk dur s Hx Hnow Hhost Hlock.
  unfold Host.tick. rewrite Hhost, Hsnap, Hst, He, Hz, Hlock. simpl.
  assert (Hexp : (ends <=? nowMs clk)%Z = true) by (apply Z.leb_le; lia).
  rewrite Hexp. reflexivity.
Qed.

(** The owner's tab on [night4], whose night ends at 61000: with the state
    at 61000 the countdown shows 0, and the tick that reads the clock at
    61200 resolves the night. *)
Lemma expired_countdown_lets_tick_advance_witness :
  Page.timeLeftSec Scenes.ownerPage 61000 = Some 0%Z
  /\ exists r,
      Host.snapshot (Page.client Scenes.ownerPage) = Some r
      /\ Host.tick (Sample.clk 61200) Host.fixedDurations
                   (Page.client Scenes.ownerPage) Sample.night4
         = match Host.advance (Sample.clk 61200) Host.fixedDurations r Sample.night4 with
           | Ok s' => (Host.mkClient (Some "p1") (Some r) (Some (ph_night, 61000%Z)), s')
           | Throw _ s' => (Host.mkClient (Some "p1") (Some r) None, s')
           end.
Proof.
  assert (H : Page.timeLeftSec Scenes.ownerPage 61000 = Some 0%Z)
    by (vm_compute; reflexivity).
  split; [exact H|].
  destruct (expired_countdown_lets_tick_advance Scenes.ownerPage 61000 0 H)
    as (r & ends & Hs & He & _ & _ & _ & Ht).
  exists r. split; [exact Hs|].
  vm_compute in Hs. injection Hs as <-.
  vm_compute in He. injection He as <-.
  apply (Ht (Sample.clk 61200) Host.fixedDurations Sample.night4).
  - lia.
  - vm_compute. discriminate.
  - vm_compute. reflexivity.
  - vm_compute. reflexivity.
Defined.

(** The converse does not hold: the state may lag behind the clock by its
    refresh interval.  With the state at 60500 the countdown of the owner's
    tab still shows 1 second, while a tick that reads the clock at 61000
    resolves the night. *)
Lemma countdown_may_lag_example :
  Page.timeLeftSec Scenes.ownerPage 60500 = Some 1%Z
  /\ snd (Host.tick (Sample.clk 61000) Host.fixedDurations
                    (Page.client Scenes.ownerPage) Sample.night4) <> Sample.night4.
Proof.
  split; [vm_compute; reflexivity|].
  vm_compute. intros H. discriminate H.
Qed.

(** ** The chat *)

Lemma trimStart_head (t : ChatService.Text) :
  match ChatService.trimStart t with
  | [] => True
  | c :: _ => ChatService.isWhiteSpace c = false
  end.
Proof.
  induction t as [|c t IH]; simpl; [exact I|].
  destruct (ChatService.isWhiteSpace c) eqn:E; [exact IH|exact E].
Qed.

Lemma trimStart_blank (t : ChatService.Text) :
  forallb ChatService.isWhiteSpace t = true -> ChatService.trimStart t = [].
Proof.
  induction t as [|c t IH]; simpl; [reflexivity|].
  intros H. apply andb_prop in H. destruct H as (Hc & Ht). rewrite Hc. now apply IH.
Qed.

Lemma trimStart_fixed (c : N) (t : ChatService.Text) :
  ChatService.isWhiteSpace c = false -> ChatService.trimStart (c :: t) = c :: t.
Proof. intros H. simpl. now rewrite H. Qed.

(** White space is cut from the end only behind the last other unit. *)
Lemma trimStart_snoc (l : ChatService.Text) (c : N) :
  ChatService.isWhiteSpace c = false ->
  ChatService.trimStart (l ++ [c]) = ChatService.trimStart l ++ [c].
Proof.
  intros Hc. induction l as [|a l IH]; simpl.
  - now rewrite Hc.
  - destruct (ChatService.isWhiteSpace a); [exact IH|reflexivity].
Qed.

Lemma trimEnd_cons (c : N) (t : ChatService.Text) :
  ChatService.isWhiteSpace c = false ->
  ChatService.trimEnd (c :: t) = c :: ChatService.trimEnd t.
Proof.
  intros Hc. unfold ChatService.trimEnd. simpl.
  rewrite trimStart_snoc by exact Hc. rewrite rev_app_distr. reflexivity.
Qed.

Lemma trimEnd_last (t : ChatService.Text) :
  match rev (ChatService.trimEnd t) with
  | [] => True
  | c :: _ => ChatService.isWhiteSpace c = false
  end.
Proof.
  unfold ChatService.trimEnd. rewrite rev_involutive. apply trimStart_head.
Qed.

Lemma trimEnd_fixed (t : ChatService.Text) (c : N) :
  ChatService.isWhiteSpace c = false ->
  ChatService.trimEnd (t ++ [c]) = t ++ [c].
Proof.
  intros Hc. unfold ChatService.trimEnd.
  rewrite rev_app_distr. simpl. rewrite Hc. simpl. now rewrite rev_involutive.
Qed.

(** A trimmed text is empty or begins and ends with a unit that is no white
    space; trimming it again changes nothing. *)
Lemma trim_shape (t : ChatService.Text) :
  ChatService.trim t = []
  \/ exists c u, ChatService.trim t = c :: u
                 /\ ChatService.isWhiteSpace c = false
                 /\ (exists v e, ChatService.trim t = v ++ [e]
                                 /\ ChatService.isWhiteSpace e = false)
                 /\ ChatService.trim (ChatService.trim t) = ChatService.trim t.
Proof.
  unfold ChatService.trim.
  pose proof (trimStart_head t) as Hh.
  destruct (ChatService.trimStart t) as [|c u] eqn:E; [left; reflexivity|].
  right. exists c, (ChatService.trimEnd u).
  rewrite (trimEnd_cons c u Hh).
  split; [reflexivity|]. split; [exact Hh|].
  assert (Hlast : exists v e, c :: ChatService.trimEnd u = v ++ [e]
                              /\ ChatService.isWhiteSpace e = false).
  { pose proof (trimEnd_last (c :: u)) as Hl. rewrite (trimEnd_cons c u Hh) in Hl.
    destruct (rev (c :: ChatService.trimEnd u)) as [|e w] eqn:Er.
    - apply (f_equal (@rev N)) in Er. rewrite rev_involutive in Er. discriminate Er.
    - exists (rev w), e. split; [|exact Hl].
      apply (f_equal (@rev N)) in Er. rewrite rev_involutive in Er. exact Er. }
  split; [exact Hlast|].
  destruct Hlast as (v & e & Hve & He).
  rewrite (trimStart_fixed c _ Hh). rewrite Hve. now apply trimEnd_fixed.
Qed.

(** X22.  What [sendMessage] stores is clean.  A text of white space only
    adds no message.  Any other text adds exactly one message, last in the
    list, with the given sender and scope; its text is the trimmed input cut
    to 300 code units, so it is not empty, has at most 300 units and begins
    with a unit that is no white space.  When the trimmed input fits into
    300 units the stored text is that input, ends with a unit that is no
    white space, and is unchanged by another trim. *)
Theorem sendMessage_stores_clean_text (sid nick : string) (txt : ChatService.Text)
        (sc : ChatService.Scope) (msgs : list ChatService.Message) :
  (forallb ChatService.isWhiteSpace txt = true ->
   ChatService.sendMessage sid nick txt sc msgs = msgs)
  /\ (ChatService.trim txt <> [] ->
      exists m,
        ChatService.sendMessage sid nick txt sc msgs = msgs ++ [m]
        /\ (ChatService.senderId m, ChatService.senderNick m, ChatService.scope m)
           = (sid, nick, sc)
        /\ ChatService.text m = firstn 300 (ChatService.trim txt)
        /\ 0 < length (ChatService.text m) <= 300
        /\ (exists c u, ChatService.text m = c :: u
                        /\ ChatService.isWhiteSpace c = false)
        /\ (length (ChatService.trim txt) <= 300 ->
            ChatService.text m = ChatService.trim txt
            /\ (exists v e, ChatService.text m = v ++ [e]
                            /\ ChatService.isWhiteSpace e = false)
            /\ ChatService.trim (ChatService.text m) = ChatService.text m)).
Proof.
  split.
  - intros Hblank. unfold ChatService.sendMessage, ChatService.trim.
    now rewrite (trimStart_blank txt Hblank).
  - intros Hne.
    destruct (trim_shape txt) as [He|(c & u & Hcu & Hc & Hlast & Hidem)];
      [contradiction|].
    unfold ChatService.sendMessage. rewrite Hcu.
    eexists. split; [reflexivity|].
    cbn [ChatService.senderId ChatService.senderNick ChatService.scope ChatService.text].
    change (firstn 300 (c :: u)) with (c :: firstn 299 u).
    split; [reflexivity|]. split; [reflexivity|].
    split.
    { pose proof (firstn_le_length 299 u). cbn [length]. lia. }
    split; [exists c, (firstn 299 u); auto|].
    intros Hlen. cbn [length] in Hlen.
    assert (Hall : c :: firstn 299 u = c :: u).
    { f_equal. apply firstn_all2. lia. }
    rewrite Hall. rewrite <- Hcu. auto.
Qed.

Lemma sendMessage_stores_clean_text_witness :
  exists m,
    ChatService.sendMessage "p1" "Alex" [32; 104; 105; 32; 10]%N ChatService.sc_public []
    = [m]
    /\ ChatService.text m = [104; 105]%N.
Proof.
  destruct (proj2 (sendMessage_stores_clean_text
                     "p1" "Alex" [32; 104; 105; 32; 10]%N ChatService.sc_public []))
    as (m & E & _ & Ht & _).
  - vm_compute. discriminate.
  - exists m. split; [exact E|]. rewrite Ht. vm_compute. reflexivity.
Defined.

Lemma sendMessage_scope (sid nick : string) (txt : ChatService.Text)
      (sc : ChatService.Scope) (msgs : list ChatService.Message) (m : ChatService.Message) :
  In m (ChatService.sendMessage sid nick txt sc msgs) ->
  In m msgs \/ (ChatService.scope m = sc /\ ChatService.senderId m = sid).
Proof.
  unfold ChatService.sendMessage.
  destruct (ChatService.trim txt); [auto|].
  intros H. apply in_app_or in H. destruct H as [H|[<-|[]]]; auto.
Qed.

(** X23.  The mafia scope is closed to the town on both sides.  A tab whose
    player is not mafia or don never adds a message of scope "mafia": with
    that scope chosen, [onSendChat] sends the text with scope "public", and
    the message is then shown by [visibleMsgs] in every tab that has a room
    snapshot, whatever its player's role and the state of the room.  And
    [visibleMsgs] of such a tab shows no message of scope "mafia". *)
Theorem mafia_scope_is_closed_to_town (t : Page.Tab) :
  Page.isMafiaPlayer t = false ->
  (forall chatText chatScope msgs m,
      In m (Page.onSendChat chatText chatScope t msgs) ->
      In m msgs \/ ChatService.scope m <> ChatService.sc_mafia)
  /\ (forall chatText msgs m viewer,
         In m (Page.onSendChat chatText ChatService.sc_mafia t msgs) ->
         ~ In m msgs ->
         Host.snapshot (Page.client viewer) <> None ->
         ChatService.scope m = ChatService.sc_public
         /\ In m (Page.visibleMsgs viewer
                                   (Page.onSendChat chatText ChatService.sc_mafia t msgs)))
  /\ (forall msgs m,
         In m (Page.visibleMsgs t msgs) -> ChatService.scope m <> ChatService.sc_mafia).
Proof.
  intros Htown.
  assert (Hsend : forall chatText chatScope msgs m,
             In m (Page.onSendChat chatText chatScope t msgs) ->
             In m msgs
             \/ (ChatService.scope m
                 = match chatScope with
                   | ChatService.sc_mafia => ChatService.sc_public
                   | sc => sc
                   end)).
  { intros chatText chatScope msgs m. unfold Page.onSendChat. rewrite Htown.
    destruct (Page.me t) as [me|]; [|auto].
    destruct (pid me =? ""); [auto|].
    destruct (ChatService.trim chatText) as [|c u] eqn:E; [auto|].
    intros H. apply sendMessage_scope in H. destruct H as [H|(H & _)]; [auto|].
    right. rewrite H. now destruct chatScope. }
  split; [|split].
  - intros chatText chatScope msgs m H.
    destruct (Hsend _ _ _ _ H) as [H'|H']; [auto|].
    right. rewrite H'. destruct chatScope; discriminate.
  - intros chatText msgs m viewer H Hnew Hsnap.
    destruct (Hsend _ _ _ _ H) as [H'|H']; [contradiction|].
    split; [exact H'|].
    unfold Page.visibleMsgs.
    destruct (Host.snapshot (Page.client viewer)) as [r|]; [|contradiction].
    apply filter_In. split; [exact H|]. now rewrite H'.
  - intros msgs m H. unfold Page.visibleMsgs in H.
    destruct (Host.snapshot (Page.client t)) as [r|]; [|contradiction].
    apply filter_In in H. destruct H as (_ & H).
    intros Hsc. rewrite Hsc, Htown in H. discriminate H.
Qed.

Lemma mafia_scope_is_closed_to_town_witness :
  exists m,
    In m (Page.onSendChat [104; 105]%N ChatService.sc_mafia Scenes.komissarPage [])
    /\ ChatService.scope m = ChatService.sc_public
    /\ In m (Page.visibleMsgs
               Scenes.ownerPage
               (Page.onSendChat [104; 105]%N ChatService.sc_mafia Scenes.komissarPage [])).
Proof.
  pose proof (proj1 (proj2 (mafia_scope_is_closed_to_town Scenes.komissarPage eq_refl))
                    [104; 105]%N [] ) as H.
  destruct (Page.onSendChat [104; 105]%N ChatService.sc_mafia Scenes.komissarPage [])
    as [|m l] eqn:E; [vm_compute in E; discriminate E|].
  exists m. split; [now left|].
  apply (H m Scenes.ownerPage); [now left|intros []|].
  vm_compute. discriminate.
Defined.

(** ** Reconnection *)

Lemma setPlayerConnection_eq (clk : Clock) (i : string) (b : bool) (s : Store)
      (cs : LobbyService.Connections) :
  hasPlayer i (players s) = true ->
  LobbyService.setPlayerConnection clk i b s cs
  = LobbyService.Wrote
      (RoomService.setEntry i (LobbyService.mkConnection b (nowMs clk) (Some (serverTs clk))) cs).
Proof.
  intros H. unfold LobbyService.setPlayerConnection. now rewrite H.
Qed.

Lemma hasPlayer_app (i : string) (ps qs : list Player) :
  hasPlayer i (ps ++ qs) = hasPlayer i ps || hasPlayer i qs.
Proof. unfold hasPlayer. apply existsb_app. Qed.

(** X24.  [autoRejoinIfNeeded] never throws and is idempotent on the game.
    It adds a player document only when the browser stores a non-empty
    player id that names no document of the room; the document is then the
    last of the roster, alive, with the role unknown and the id that the
    browser stores from then on.  In every other case the store and
    [localStorage] stay as they are.  Whenever it reports a player id it
    stamps that player's connection fields: connected, with the time of the
    call.  A second call, right after the first, reports the same player
    id, does not rejoin, leaves store and [localStorage] as they are, and
    only renews that stamp. *)
Theorem autoRejoin_is_idempotent (i j code fallback : string)
        (clkAdd clk clkAdd' clk' : Clock)
        (ls : LobbyService.LocalStorage) (s : Store) (cs : LobbyService.Connections) :
  i <> "" ->
  exists v ls1 s1 cs1,
    LobbyService.autoRejoinIfNeeded i clkAdd clk code fallback ls s cs
    = LobbyService.Returned v ls1 s1 cs1
    /\ LobbyService.autoRejoinIfNeeded j clkAdd' clk' code fallback ls1 s1 cs1
       = LobbyService.Returned
           (LobbyService.mkRejoin (LobbyService.rejoin_playerId v) false) ls1 s1
           (match LobbyService.rejoin_playerId v with
            | Some p =>
                RoomService.setEntry p (LobbyService.mkConnection true (nowMs clk')
                                                      (Some (serverTs clk'))) cs1
            | None => cs1
            end)
    /\ (LobbyService.didRejoin v = true
        <-> exists stored,
              LobbyService.getItem ("playerId_" ++ code) ls = Some stored
              /\ stored <> "" /\ hasPlayer stored (players s) = false)
    /\ (LobbyService.didRejoin v = false ->
        ls1 = ls /\ s1 = s
        /\ cs1 = match LobbyService.rejoin_playerId v with
                 | Some p =>
                     RoomService.setEntry p (LobbyService.mkConnection true (nowMs clk)
                                                           (Some (serverTs clk))) cs
                 | None => cs
                 end)
    /\ (LobbyService.didRejoin v = true ->
        LobbyService.rejoin_playerId v = Some i
        /\ LobbyService.getItem ("playerId_" ++ code) ls1 = Some i
        /\ room s1 = room s
        /\ (exists nick, players s1 = players s ++ [RoomService.newPlayer i nick])
        /\ RoomService.getEntry i cs1
           = Some (LobbyService.mkConnection true (nowMs clk) (Some (serverTs clk)))).
Proof.
  intros Hi. unfold LobbyService.autoRejoinIfNeeded at 1.
  destruct (LobbyService.getItem ("playerId_" ++ code) ls) as [stored|] eqn:Hget.
  - destruct (truthy (Some stored)) eqn:Htr; simpl.
    + assert (Hne : stored <> "").
      { simpl in Htr. intros ->. discriminate Htr. }
      unfold LobbyService.ensurePlayerExists.
      destruct (hasPlayer stored (players s)) eqn:Hhas.
      * rewrite (setPlayerConnection_eq clk stored true s cs Hhas).
        eexists (LobbyService.mkRejoin (Some stored) false), ls, s, _.
        split; [reflexivity|]. split.
        { unfold LobbyService.autoRejoinIfNeeded. rewrite Hget, Htr. simpl.
          unfold LobbyService.ensurePlayerExists. rewrite Hhas.
          now rewrite (setPlayerConnection_eq clk' stored true s _ Hhas). }
        simpl. split; [|split; [auto|discriminate]].
        split; [discriminate|].
        intros (st & Hst & _ & Hno). congruence.
      * match goal with
        | |- context [RoomService.newPlayer i ?n] => set (nick := n)
        end.
        set (s1 := mkStore (room s) (players s ++ [RoomService.newPlayer i nick])).
        set (ls1 := LobbyService.setItem ("playerId_" ++ code) i ls).
        assert (Hhas1 : hasPlayer i (players s1) = true).
        { simpl. rewrite hasPlayer_app. simpl. rewrite String.eqb_refl.
          now rewrite orb_true_r. }
        rewrite (setPlayerConnection_eq clk i true s1 _ Hhas1).
        eexists (LobbyService.mkRejoin (Some i) true), ls1, s1, _.
        assert (Hget1 : LobbyService.getItem ("playerId_" ++ code) ls1 = Some i).
        { apply getEntry_setEntry_same. }
        split; [reflexivity|]. split.
        { unfold LobbyService.autoRejoinIfNeeded. rewrite Hget1.
          assert (Htr1 : truthy (Some i) = true).
          { simpl. destruct (i =? "") eqn:E; [apply String.eqb_eq in E; contradiction|].
            reflexivity. }
          rewrite Htr1. simpl. unfold LobbyService.ensurePlayerExists. rewrite Hhas1.
          now rewrite (setPlayerConnection_eq clk' i true s1 _ Hhas1). }
        simpl. split; [|split; [discriminate|]].
        { split; [|reflexivity]. intros _. exists stored. auto. }
        intros _. split; [reflexivity|]. split; [exact Hget1|].
        split; [reflexivity|]. split; [now exists nick|].
        apply getEntry_setEntry_same.
    + exists (LobbyService.mkRejoin None false), ls, s, cs.
      split; [reflexivity|]. split.
      { unfold LobbyService.autoRejoinIfNeeded. now rewrite Hget, Htr. }
      simpl. split; [|split; [auto|discriminate]].
      split; [discriminate|].
      intros (st & Hst & Hne & _). injection Hst as <-.
      simpl in Htr. destruct (stored =? "") eqn:E; [|discriminate Htr].
      apply String.eqb_eq in E. contradiction.
  - simpl. exists (LobbyService.mkRejoin None false), ls, s, cs.
    split; [reflexivity|]. split.
    { unfold LobbyService.autoRejoinIfNeeded. now rewrite Hget. }
    simpl. split; [|split; [auto|discriminate]].
    split; [discriminate|].
    intros (st & Hst & _). discriminate Hst.
Qed.

Lemma autoRejoin_is_idempotent_witness :
  exists v ls1 s1 cs1,
    LobbyService.autoRejoinIfNeeded "p9" (Sample.clk 70000) (Sample.clk 70100)
                                    "123456" "Guest"
                                    [("playerId_123456", "gone")] Sample.night4 []
    = LobbyService.Returned v ls1 s1 cs1
    /\ LobbyService.autoRejoinIfNeeded "p10" (Sample.clk 80000) (Sample.clk 80100)
                                       "123456" "Guest" ls1 s1 cs1
       = LobbyService.Returned
           (LobbyService.mkRejoin (LobbyService.rejoin_playerId v) false) ls1 s1
           (match LobbyService.rejoin_playerId v with
            | Some p =>
                RoomService.setEntry p (LobbyService.mkConnection
                              true (nowMs (Sample.clk 80100))
                              (Some (serverTs (Sample.clk 80100)))) cs1
            | None => cs1
            end).
Proof.
  destruct (autoRejoin_is_idempotent "p9" "p10" "123456" "Guest"
              (Sample.clk 70000) (Sample.clk 70100) (Sample.clk 80000) (Sample.clk 80100)
              [("playerId_123456", "gone")] Sample.night4 [])
    as (v & ls1 & s1 & cs1 & E1 & E2 & _).
  - discriminate.
  - exists v, ls1, s1, cs1. split; [exact E1|exact E2].
Defined.

(** ** The current service and the exactly-once rule *)

(** [submitVote], in closed form, when it goes through. *)
Lemma submitVote_eq (clk : Clock) (voter target : string) (s : Store) (r : Room) (v : Player) :
  room s = Some r ->
  find (fun p => pid p =? voter) (players s) = Some v ->
  voteSubmitted v = false ->
  RoomService.submitVote clk voter target s
  = Ok (mkStore (Some (RoomService.withVote
                         (RoomService.setVoteOf voter target (serverTs clk)) r))
                (updatePlayers voter (setVoteSubmitted true) (players s))).
Proof.
  intros Hroom Hfind Hvs. unfold RoomService.submitVote.
  rewrite Hfind, Hvs. unfold updateRoomDoc, updatePlayerDoc. rewrite Hroom. simpl.
  now rewrite (hasPlayer_find _ _ _ Hfind).
Qed.

(** X25.  In the current service a submission counts once.  When a player
    who has not yet submitted sends a night action, the call commits, and a
    second night action of the same player, with whatever role and target,
    throws [ActionAlreadySubmitted] and leaves the store as the first call
    left it.  The same holds for ballots: the first ballot is stored under
    the voter's id and a second one is rejected without a trace. *)
Theorem submission_counts_once (clk clk' : Clock) (x x' : Role)
        (actor t t' : string) (s : Store) (r : Room) (a : Player) :
  room s = Some r ->
  find (fun p => pid p =? actor) (players s) = Some a ->
  (nightSubmitted a = false ->
   exists s1,
     RoomService.submitNightAction clk x actor t s = Ok s1
     /\ room s1 = Some (nightWrite clk x actor t r)
     /\ RoomService.submitNightAction clk' x' actor t' s1
        = Throw ActionAlreadySubmitted s1)
  /\ (voteSubmitted a = false ->
      exists s1 r1,
        RoomService.submitVote clk actor t s = Ok s1
        /\ room s1 = Some r1
        /\ RoomService.getEntry actor (votes (vote r1)) = Some t
        /\ RoomService.submitVote clk' actor t' s1 = Throw ActionAlreadySubmitted s1).
Proof.
  intros Hroom Hfind. split.
  - intros Hns. eexists.
    split; [exact (submitNightAction_eq clk x actor t s r a Hroom Hfind Hns)|].
    split; [reflexivity|].
    apply submitNightAction_once with (a := setNightSubmitted true a); [|reflexivity].
    simpl. rewrite find_updatePlayers_same by reflexivity. now rewrite Hfind.
  - intros Hvs. eexists. eexists.
    split; [exact (submitVote_eq clk actor t s r a Hroom Hfind Hvs)|].
    split; [reflexivity|]. split.
    + simpl. apply getEntry_setEntry_same.
    + apply submitVote_once with (v := setVoteSubmitted true a); [|reflexivity].
      simpl. rewrite find_updatePlayers_same by reflexivity. now rewrite Hfind.
Qed.

Lemma submission_counts_once_witness :
  exists s1,
    RoomService.submitNightAction (Sample.clk 2000) mafia "p1" "p4" Sample.night4 = Ok s1
    /\ RoomService.submitNightAction (Sample.clk 3000) mafia "p1" "p3" s1
       = Throw ActionAlreadySubmitted s1.
Proof.
  destruct (room Sample.night4) as [r|] eqn:Hroom;
    [|vm_compute in Hroom; discriminate Hroom].
  destruct (find (fun p => pid p =? "p1") (players Sample.night4)) as [a|] eqn:Ha;
    [|vm_compute in Ha; discriminate Ha].
  destruct (proj1 (submission_counts_once (Sample.clk 2000) (Sample.clk 3000) mafia mafia
                     "p1" "p4" "p3" Sample.night4 r a Hroom Ha))
    as (s1 & E1 & _ & E2).
  - vm_compute in Ha. injection Ha as <-. reflexivity.
  - exists s1. split; [exact E1|exact E2].
Defined.

(** ** The komissar's result in the current service *)

(** X26.  In the current service the result of the komissar's check
    reaches the komissar only.  When [resolveNight] commits, the room
    document holds no check any more (its day record is empty and the night
    record names no check target and no checker), the private state of every
    player other than the checker is what it was, and the checker's private
    state holds the checked id, whether the target's role is mafia or don,
    and the time of the resolution. *)
Theorem check_result_reaches_the_komissar_only (clk : Clock) (d : option Z)
        (s s' : Store) (r : Room) :
  room s = Some r ->
  RoomService.resolveNight clk d s = Ok s' ->
  (exists r',
      room s' = Some r'
      /\ day r' = emptyDay
      /\ (checkTargetId (night r'), checkBy (night r')) = (None, None))
  /\ exists g,
      players s' = map g (players s)
      /\ (forall p, checkBy (night r) <> Some (pid p) ->
                    private_lastCheckResult (g p) = private_lastCheckResult p)
      /\ (forall ct cb target p,
             checkTargetId (night r) = Some ct -> checkBy (night r) = Some cb ->
             ct <> "" -> cb <> "" ->
             find (fun q => pid q =? ct) (players s) = Some target ->
             pid p = cb ->
             private_lastCheckResult (g p)
             = Some (mkCheckResult ct (RoomService.isMafiaRole (role target))
                                   (Some (nowMs clk)))).
Proof.
  intros Hroom Hok. split.
  - pose proof Hok as Hok'.
    rewrite (resolveNight_eq clk d s r Hroom) in Hok'.
    destruct (checkCommits (night r) (players s)); [|discriminate].
    destruct (victimExists (RoomService.killedOf (night r)) (players s)); [|discriminate].
    injection Hok' as <-. eexists. split; [reflexivity|].
    rewrite nightRoomUpdate_night. split; [|reflexivity].
    unfold RoomService.nightRoomUpdate. now destruct (RoomService.calcWinner _).
  - destruct (resolveNight_check_private clk d s s' r Hroom Hok) as (_ & g & Hg & H1 & H2).
    exists g. split; [exact Hg|]. split; [exact H1|].
    intros ct cb target p Hct Hcb Hne1 Hne2 Hfind Hp.
    rewrite <- mafiaAligned_isMafiaRole. eapply H2; eauto.
Qed.

Lemma check_result_reaches_the_komissar_only_witness :
  exists s' r',
    RoomService.resolveNight (Sample.clk 61000) None Sample.night4Acted = Ok s'
    /\ room s' = Some r'
    /\ day r' = emptyDay.
Proof.
  destruct (room Sample.night4Acted) as [r|] eqn:Hroom;
    [|vm_compute in Hroom; discriminate Hroom].
  destruct (RoomService.resolveNight (Sample.clk 61000) None Sample.night4Acted)
    as [s'|e s'] eqn:E; [|vm_compute in E; discriminate E].
  destruct (check_result_reaches_the_komissar_only (Sample.clk 61000) None
              Sample.night4Acted s' r Hroom E) as ((r' & Hr' & Hday & _) & _).
  exists s', r'. split; [reflexivity|]. split; [exact Hr'|exact Hday].
Defined.

(** ** A kicked player *)

Lemma aliveHas_standing (ps qs : list Player) (i : string) :
  map standing ps = map standing qs ->
  RoomService.aliveHas ps i = RoomService.aliveHas qs i.
Proof.
  unfold RoomService.aliveHas. revert qs.
  induction ps as [|p ps IH]; intros [|q qs] H; simpl in *; try discriminate; auto.
  pose proof (f_equal (@tl _) H) as Hrest. simpl in Hrest.
  assert (Hpid : pid p = pid q) by (injection H; auto).
  assert (Halive : isAlive p = isAlive q) by (injection H; auto).
  rewrite Halive. destruct (isAlive q); simpl; rewrite ?Hpid, (IH qs Hrest); reflexivity.
Qed.

Lemma eliminatedOf_standing (ps qs : list Player) (vs : list (string * string)) :
  map standing ps = map standing qs ->
  RoomService.eliminatedOf ps vs = RoomService.eliminatedOf qs vs.
Proof.
  intros H. unfold RoomService.eliminatedOf, RoomService.tallyVotes. f_equal.
  generalize (@nil (string * RoomService.TallyValue)).
  induction vs as [|e vs IH]; intros tally; simpl; [reflexivity|].
  unfold RoomService.tallyStep at 2 4.
  rewrite (aliveHas_standing ps qs (fst e) H), (aliveHas_standing ps qs (snd e) H).
  apply IH.
Qed.

(** X27.  A kick changes nothing in the game.  [kickPlayer] sets the flag
    on the target's document and leaves every player's id, role and life
    and the room as they are, so [calcWinner] and the tally of any ballots
    give what they gave before; the kicked player's night action and ballot
    are accepted as before and leave the room document they would have left
    without the kick. *)
Theorem kick_changes_nothing_in_the_game (clk : Clock) (x : Role) (k t : string)
        (s : Store) (r : Room) (a : Player) :
  room s = Some r ->
  find (fun p => pid p =? k) (players s) = Some a ->
  exists s1,
    LobbyService.kickPlayer k s = Ok s1
    /\ room s1 = Some r
    /\ (forall p, In p (players s1) -> pid p = k -> isKicked p = true)
    /\ map standing (players s1) = map standing (players s)
    /\ RoomService.calcWinner (players s1) = RoomService.calcWinner (players s)
    /\ (forall vs, RoomService.eliminatedOf (players s1) vs
                   = RoomService.eliminatedOf (players s) vs)
    /\ (nightSubmitted a = false ->
        exists s2, RoomService.submitNightAction clk x k t s1 = Ok s2
                   /\ room s2 = room (storeOf (RoomService.submitNightAction clk x k t s)))
    /\ (voteSubmitted a = false ->
        exists s2, RoomService.submitVote clk k t s1 = Ok s2
                   /\ room s2 = room (storeOf (RoomService.submitVote clk k t s))).
Proof.
  intros Hroom Hfind.
  set (ps1 := updatePlayers k (LobbyService.setKicked true) (players s)).
  exists (mkStore (room s) ps1).
  assert (Hst : map standing ps1 = map standing (players s)).
  { unfold ps1, updatePlayers. rewrite map_map. apply map_ext. intros p.
    now destruct (pid p =? k). }
  assert (Hfind1 : find (fun p => pid p =? k) ps1 = Some (LobbyService.setKicked true a)).
  { unfold ps1. rewrite find_updatePlayers_same by reflexivity. now rewrite Hfind. }
  split.
  { unfold LobbyService.kickPlayer, updatePlayerDoc.
    now rewrite (hasPlayer_find _ _ _ Hfind). }
  split; [exact Hroom|]. split.
  { intros p Hp Hpid. unfold ps1, updatePlayers in Hp. apply in_map_iff in Hp.
    destruct Hp as (q & <- & _).
    destruct (pid q =? k) eqn:E; [reflexivity|].
    apply String.eqb_neq in E. contradiction. }
  split; [exact Hst|].
  split; [now apply calcWinner_standing|].
  split; [intros vs; now apply eliminatedOf_standing|].
  split.
  - intros Hns. eexists. split.
    + apply (submitNightAction_eq clk x k t (mkStore (room s) ps1) r
                                  (LobbyService.setKicked true a) Hroom Hfind1 Hns).
    + now rewrite (submitNightAction_eq clk x k t s r a Hroom Hfind Hns).
  - intros Hvs. eexists. split.
    + apply (submitVote_eq clk k t (mkStore (room s) ps1) r
                           (LobbyService.setKicked true a) Hroom Hfind1 Hvs).
    + now rewrite (submitVote_eq clk k t s r a Hroom Hfind Hvs).
Qed.

Lemma kick_changes_nothing_in_the_game_witness :
  exists s1,
    LobbyService.kickPlayer "p1" Sample.night4 = Ok s1
    /\ RoomService.calcWinner (players s1) = RoomService.calcWinner (players Sample.night4).
Proof.
  destruct (room Sample.night4) as [r|] eqn:Hroom;
    [|vm_compute in Hroom; discriminate Hroom].
  destruct (find (fun p => pid p =? "p1") (players Sample.night4)) as [a|] eqn:Ha;
    [|vm_compute in Ha; discriminate Ha].
  destruct (kick_changes_nothing_in_the_game (Sample.clk 2000) mafia "p1" "p4"
              Sample.night4 r a Hroom Ha) as (s1 & E & _ & _ & _ & Hw & _).
  exists s1. split; [exact E|exact Hw].
Defined.

(** ** A majority *)

Lemma votesFor_two (ps : list Player) (vs : list (string * string)) (t t' : string) :
  t <> t' ->
  Spec.votesFor ps vs t + Spec.votesFor ps vs t'
  <= length (filter (Spec.validVote ps) vs).
Proof.
  intros Hne. induction vs as [|e vs IH]; simpl; [lia|].
  destruct (Spec.validVote ps e); simpl; [|lia].
  destruct (snd e =? t) eqn:E1, (snd e =? t') eqn:E2; try lia.
  apply String.eqb_eq in E1. apply String.eqb_eq in E2. congruence.
Qed.

(** X28.  More than half of the living players is enough.  In a reachable
    store, when the counted ballots for [t] (voter and target alive) are
    more than half of the living players and [t] is no property name of
    [Object.prototype], [resolveVote] commits, records [t] as eliminated, and
    no document with the id [t] is alive afterwards. *)
Theorem majority_is_voted_out (clk : Clock) (d : option Z) (s : Store) (r : Room)
        (t : string) :
  Game.reachable s ->
  room s = Some r ->
  RoomService.inherited t = false ->
  Spec.countPlayers isAlive (players s)
  < 2 * Spec.votesFor (players s) (votes (vote r)) t ->
  exists s' r',
    RoomService.resolveVote clk d s = Ok s'
    /\ room s' = Some r'
    /\ eliminatedPlayerId (vote r') = Some t
    /\ (forall p, In p (players s') -> pid p = t -> isAlive p = false).
Proof.
  intros Hs Hroom Hord Hmaj.
  destruct (reachable_inv s Hs) as (_ & Hne & _).
  destruct (reachable_ballots s Hs) as (r0 & Hr0 & Hnd).
  rewrite Hroom in Hr0. injection Hr0 as <-.
  pose proof (valid_ballots_le_alive (players s) (votes (vote r)) Hnd) as Hle.
  assert (Het : RoomService.eliminatedOf (players s) (votes (vote r)) = Some t).
  { apply eliminatedOf_spec.
    rewrite <- (votesFor_ordinary_target (players s) (votes (vote r)) t Hord) in Hmaj.
    split; [lia|].
    intros t' Hne'.
    pose proof (votesFor_two (players s) (votes (vote r)) t t'
                             (fun H => Hne' (eq_sym H))).
    pose proof (votesFor_ordinary_le (players s) (votes (vote r)) t').
    pose proof (votesFor_ordinary_le (players s) (votes (vote r)) t). lia. }
  eexists. eexists.
  split; [exact (resolveVote_eq clk d s r Hroom Hne)|].
  split; [reflexivity|]. rewrite Het. split.
  - unfold RoomService.voteResolveUpdate. now destruct (RoomService.calcWinner _).
  - intros p Hp Hpid. simpl in Hp. apply in_map_iff in Hp.
    destruct Hp as (q & <- & _). unfold afterResolution in *. simpl in *.
    destruct (pid q =? t) eqn:E; [reflexivity|].
    apply String.eqb_neq in E. contradiction.
Qed.

Lemma majority_is_voted_out_witness :
  exists s' r',
    RoomService.resolveVote (Sample.clk 166000) None Sample.voteAfterKillCast = Ok s'
    /\ room s' = Some r'
    /\ eliminatedPlayerId (vote r') = Some "p2".
Proof.
  destruct (room Sample.voteAfterKillCast) as [r|] eqn:Hroom;
    [|vm_compute in Hroom; discriminate Hroom].
  destruct (majority_is_voted_out (Sample.clk 166000) None Sample.voteAfterKillCast r "p2")
    as (s' & r' & E & Hr' & He & _).
  - unfold Sample.voteAfterKillCast, Sample.voteAfterKill, Sample.night4Acted.
    repeat apply reachable_runAll. exact reachable_night4.
  - exact Hroom.
  - reflexivity.
  - vm_compute in Hroom. injection Hroom as <-. vm_compute. lia.
  - exists s', r'. tauto.
Defined.

(** ** Acting through the page *)

Lemma me_fresh (i : string) (s : Store) :
  i <> "" ->
  Page.me (Page.freshTab i s) = find (fun p => pid p =? i) (players s).
Proof.
  intros Hi. unfold Page.me, Page.freshTab, Host.freshClient. simpl.
  destruct (i =? "") eqn:E; [apply String.eqb_eq in E; contradiction|reflexivity].
Qed.

(** X29.  The page passes the player's own role, and it lets the dead act
    at night but not vote.  In a tab holding the current snapshots of a
    playing room, a click on Submit in the night panel by a player who holds
    a night role and has not yet submitted calls [submitNightAction] with
    the role stored in the player's document, whether the player is alive or
    dead; a kill sent this way by a mafia or don, dead or not, is what the
    resolution will carry out unless the target is saved.  A citizen is
    offered no night action.  In the vote panel a dead player's click does
    nothing, and a living player's click calls [submitVote]. *)
Theorem page_lets_the_dead_act_at_night (clk : Clock) (i target : string)
        (s : Store) (r : Room) (m : Player) :
  room s = Some r -> status r = st_playing ->
  find (fun p => pid p =? i) (players s) = Some m ->
  i <> "" -> target <> "" ->
  (phase r = ph_night -> nightSubmitted m = false ->
   (RoomService.isMafiaRole (role m) = true \/ role m = doctor \/ role m = komissar ->
    Page.clickSubmitNight clk target (Page.freshTab i s) s
    = storeOf (RoomService.submitNightAction clk (role m) i target s))
   /\ (RoomService.isMafiaRole (role m) = true ->
       saveTargetId (night r) <> Some target ->
       exists r1,
         room (Page.clickSubmitNight clk target (Page.freshTab i s) s) = Some r1
         /\ RoomService.killedOf (night r1) = Some target)
   /\ (role m = citizen \/ role m = unknown ->
       Page.clickSubmitNight clk target (Page.freshTab i s) s = s))
  /\ (phase r = ph_vote ->
      (isAlive m = false ->
       Page.clickSubmitVote clk target (Page.freshTab i s) s = s)
      /\ (isAlive m = true -> voteSubmitted m = false ->
          Page.clickSubmitVote clk target (Page.freshTab i s) s
          = storeOf (RoomService.submitVote clk i target s))).
Proof.
  intros Hroom Hst Hfind Hi Ht.
  pose proof (me_fresh i s Hi) as Hme. rewrite Hfind in Hme.
  assert (Hpid : pid m = i) by (apply find_pid in Hfind; tauto).
  assert (Hi' : (i =? "") = false) by now apply String.eqb_neq.
  assert (Ht' : (target =? "") = false) by now apply String.eqb_neq.
  assert (Hnight : phase r = ph_night -> nightSubmitted m = false ->
                   RoomService.isMafiaRole (role m) = true \/ role m = doctor
                   \/ role m = komissar ->
                   Page.clickSubmitNight clk target (Page.freshTab i s) s
                   = storeOf (RoomService.submitNightAction clk (role m) i target s)).
  { intros Hph Hns Hrole.
    unfold Page.clickSubmitNight, Page.nightAction, Page.onSubmitNight,
      Page.statusIs, Page.phaseIs, Page.isMafiaPlayer, Page.isDoctor, Page.isKomissar.
    rewrite Hme. simpl. rewrite Hroom, Hst, Hph, Hns, Hpid, Hi', Ht'. simpl.
    destruct (role m); simpl in *;
      destruct Hrole as [H|[H|H]]; try discriminate; reflexivity. }
  split.
  - intros Hph Hns. split; [now apply Hnight|]. split.
    + intros Hmafia Hsave. rewrite (Hnight Hph Hns (or_introl Hmafia)).
      rewrite (submitNightAction_eq clk (role m) i target s r m Hroom Hfind Hns).
      eexists. split; [reflexivity|].
      assert (Hn : killTargetId (night (nightWrite clk (role m) i target r)) = Some target
                   /\ saveTargetId (night (nightWrite clk (role m) i target r))
                      = saveTargetId (night r))
        by (destruct (role m); try discriminate; split; reflexivity).
      destruct Hn as (Hkt & Hsv).
      unfold RoomService.killedOf. rewrite Hkt, Hsv. simpl. rewrite Ht'. simpl.
      destruct (saveTargetId (night r)) as [sv|]; simpl; [|reflexivity].
      destruct (target =? sv) eqn:E'; [|reflexivity].
      apply String.eqb_eq in E'. congruence.
    + intros Hrole.
      unfold Page.clickSubmitNight, Page.nightAction,
        Page.isMafiaPlayer, Page.isDoctor, Page.isKomissar.
      rewrite Hme. destruct Hrole as [H|H]; rewrite H; simpl;
        now rewrite andb_false_r.
  - intros Hph. split.
    + intros Hdead. unfold Page.clickSubmitVote, Page.voteAction.
      rewrite Hme, Hdead. now rewrite andb_false_r.
    + intros Halive Hvs.
      unfold Page.clickSubmitVote, Page.voteAction, Page.onSubmitVote,
        Page.statusIs, Page.phaseIs.
      rewrite Hme. simpl. rewrite Hroom, Hst, Hph, Halive, Hvs, Hpid, Hi', Ht'.
      reflexivity.
Qed.

Lemma page_lets_the_dead_act_at_night_witness :
  exists r1,
    room (Page.clickSubmitNight (Sample.clk 230000) "q9"
                                (Page.freshTab "q1" Scenes.secondNight9)
                                Scenes.secondNight9) = Some r1
    /\ RoomService.killedOf (night r1) = Some "q9".
Proof.
  destruct (room Scenes.secondNight9) as [r|] eqn:Hroom;
    [|vm_compute in Hroom; discriminate Hroom].
  destruct (find (fun p => pid p =? "q1") (players Scenes.secondNight9)) as [m|] eqn:Hm;
    [|vm_compute in Hm; discriminate Hm].
  assert (Hr : (status r, phase r, saveTargetId (night r)) = (st_playing, ph_night, None)).
  { vm_compute in Hroom. injection Hroom as <-. reflexivity. }
  assert (Hmm : (isAlive m, role m, nightSubmitted m) = (false, mafia, false)).
  { vm_compute in Hm. injection Hm as <-. reflexivity. }
  injection Hr as Hst Hph Hsv. injection Hmm as Hal Hro Hns.
  destruct (page_lets_the_dead_act_at_night (Sample.clk 230000) "q1" "q9"
              Scenes.secondNight9 r m Hroom Hst Hm) as (Hnight & _).
  - discriminate.
  - discriminate.
  - destruct (Hnight Hph Hns) as (_ & Hkill & _).
    apply Hkill.
    + now rewrite Hro.
    + rewrite Hsv. discriminate.
Defined.

(** ** The cycle of phases *)

Lemma isHost_owner (i : string) (s : Store) (r : Room) :
  room s = Some r -> ownerPlayerId r = Some i -> i <> "" ->
  Host.isHost (Host.freshClient i s) = true.
Proof.
  intros Hr Ho Hi. unfold Host.isHost, Host.freshClient. simpl.
  rewrite Hr, Ho. simpl. rewrite String.eqb_refl.
  destruct (i =? "") eqn:E; [apply String.eqb_eq in E; contradiction|reflexivity].
Qed.

(** X30.  The host's tick moves a running game along night, day, vote,
    night.  When the owner's tab holds the current room, the room is
    playing in one of these three phases and its deadline has passed, a tick
    whose resolution commits locks that phase instance and leaves the room
    either ended (status and phase "ended", a winner, no deadline) or
    playing in the next phase of the cycle with the deadline at now plus
    that phase's duration; the day number goes up by one when a night ends
    and stays otherwise.  A day never ends the game. *)
Theorem tick_follows_the_cycle (clk : Clock) (dur : Host.Durations) (i : string)
        (s : Store) (r : Room) (d : Z) :
  room s = Some r -> status r = st_playing ->
  In (phase r) [ph_night; ph_day; ph_vote] ->
  phaseEndsAtMs r = Some d -> d <> 0%Z -> (d <= nowMs clk)%Z ->
  ownerPlayerId r = Some i -> i <> "" ->
  (forall p, In p (players s) -> pid p <> "") ->
  isOk (Host.advance clk dur r s) = true ->
  exists r',
    room (snd (Host.tick clk dur (Host.freshClient i s) s)) = Some r'
    /\ Host.autoLock (fst (Host.tick clk dur (Host.freshClient i s) s))
       = Some (phase r, d)
    /\ (((status r', phase r', phaseEndsAtMs r') = (st_ended, ph_ended, None)
         /\ winner r' <> None /\ phase r <> ph_day)
        \/ ((status r', phase r') = (st_playing, nextPhase (phase r))
            /\ phaseEndsAtMs r'
               = Some (nowMs clk + durationOf dur (nextPhase (phase r)) * 1000)%Z
            /\ dayNumber r'
               = dayNumber r + (if Phase_eqb (phase r) ph_night then 1 else 0))).
Proof.
  intros Hroom Hst Hph Hd Hd0 Hexp Hown Hi Hne Hok.
  assert (Htick : Host.tick clk dur (Host.freshClient i s) s
                  = (Host.mkClient (Some i) (room s) (Some (phase r, d)),
                     storeOf (Host.advance clk dur r s))).
  { unfold Host.tick. rewrite (isHost_owner i s r Hroom Hown Hi).
    simpl. rewrite Hroom, Hst, Hd. simpl.
    destruct (d =? 0)%Z eqn:E0; [apply Z.eqb_eq in E0; contradiction|].
    apply Z.leb_le in Hexp. rewrite Hexp. simpl.
    destruct (Host.advance clk dur r s); [reflexivity|discriminate]. }
  rewrite Htick. simpl.
  unfold Host.advance in *.
  destruct Hph as [Hph|[Hph|[Hph|[]]]]; rewrite <- Hph in *; simpl.
  - rewrite (resolveNight_eq clk (Some (Host.DAY_SEC dur)) s r Hroom) in *.
    destruct (checkCommits (night r) (players s)); [|discriminate].
    destruct (victimExists (RoomService.killedOf (night r)) (players s)); [|discriminate].
    eexists. split; [reflexivity|]. split; [reflexivity|].
    unfold RoomService.nightRoomUpdate, RoomService.computeEndsAtMs.
    destruct (RoomService.calcWinner _); simpl.
    + left. repeat split; discriminate.
    + right. rewrite Hst. repeat split.
  - rewrite (startVote_eq clk (Some (Host.VOTE_SEC dur)) s r Hroom).
    eexists. split; [reflexivity|]. split; [reflexivity|].
    right. simpl. rewrite Hst. unfold RoomService.computeEndsAtMs.
    repeat split. lia.
  - rewrite (resolveVote_eq clk (Some (Host.NIGHT_SEC dur)) s r Hroom Hne).
    eexists. split; [reflexivity|]. split; [reflexivity|].
    unfold RoomService.voteResolveUpdate, RoomService.computeEndsAtMs.
    destruct (RoomService.calcWinner _); simpl.
    + left. repeat split; discriminate.
    + right. rewrite Hst. repeat split. lia.
Qed.

Lemma tick_follows_the_cycle_witness :
  exists r',
    room (snd (Host.tick (Sample.clk 61000) Host.fixedDurations
                         (Host.freshClient "p1" Sample.night4) Sample.night4)) = Some r'
    /\ Host.autoLock (fst (Host.tick (Sample.clk 61000) Host.fixedDurations
                                     (Host.freshClient "p1" Sample.night4) Sample.night4))
       = Some (ph_night, 61000%Z).
Proof.
  destruct (room Sample.night4) as [r|] eqn:Hroom;
    [|vm_compute in Hroom; discriminate Hroom].
  assert (Hr : (status r, phase r, phaseEndsAtMs r, ownerPlayerId r)
               = (st_playing, ph_night, Some 61000%Z, Some "p1")).
  { vm_compute in Hroom. injection Hroom as <-. reflexivity. }
  injection Hr as Hst Hph Hd Hown.
  destruct (tick_follows_the_cycle (Sample.clk 61000) Host.fixedDurations "p1"
              Sample.night4 r 61000%Z Hroom Hst) as (r' & Hr' & Hlock & _).
  - rewrite Hph. now left.
  - exact Hd.
  - discriminate.
  - simpl. lia.
  - exact Hown.
  - discriminate.
  - nonempty_ids.
  - vm_compute in Hroom. injection Hroom as <-. vm_compute. reflexivity.
  - exists r'. split; [exact Hr'|]. rewrite Hlock, Hph. reflexivity.
Defined.
